(** * Photo booth session loop (camera.py): a shallow embedding

    The script camera.py sequences three external drivers (the camera with
    its overlay compositor, the GPIO input driver and the image library)
    around one loop.  The embedding keeps the script's structure: every
    function of the script is a computation in a state-and-exception monad
    over a [World] that holds the clock, the GPIO edge latches, the overlays
    on screen, the Python list objects of the heap and the trace of the
    calls made to the drivers.

    Conventions.
    - Time is counted in milliseconds ([N]).  The script only lets time
      pass in [sleep]; every other call is instantaneous in the model.
      [DEBOUNCE_TIME] and [PREP_DELAY] are the configured values converted
      to milliseconds.
    - Overlay handles are integers: [remove_overlay] compares its argument
      with [-1] and the script tests a handle for truth, which on an
      integer is the test [h <> 0].
    - Button lines are pulled up: level [true] is high (released), level
      [false] is low (pressed). *)

From Stdlib Require Import ZArith NArith QArith Qround List String Ascii Bool Lia.
From Stdlib Require Import DecimalString DecimalZ.
Import ListNotations.

Local Open Scope Z_scope.

(** ** Python built-ins used by the script *)

(** [str(n)] for an integer. *)
Definition py_str (z : Z) : string := NilEmpty.string_of_int (Z.to_int z).

(** [s.split(sep)[0]] for a one-character separator. *)
Fixpoint py_split_head (sep : ascii) (s : string) : string :=
  match s with
  | EmptyString => EmptyString
  | String c r => if Ascii.eqb c sep then EmptyString
                  else String c (py_split_head sep r)
  end.

(** [s.replace(a, b)] for one-character [a] and [b]. *)
Fixpoint py_replace (a b : ascii) (s : string) : string :=
  match s with
  | EmptyString => EmptyString
  | String c r => String (if Ascii.eqb c a then b else c) (py_replace a b r)
  end.

(** [range(lo, hi)] and [range(hi, 0, -1)]. *)
Fixpoint range_from (lo : Z) (n : nat) : list Z :=
  match n with
  | O => []
  | S k => lo :: range_from (lo + 1) k
  end.

Definition py_range (lo hi : Z) : list Z := range_from lo (Z.to_nat (hi - lo)).

Fixpoint range_down_from (hi : Z) (n : nat) : list Z :=
  match n with
  | O => []
  | S k => hi :: range_down_from (hi - 1) k
  end.

Definition py_range_down (hi : Z) : list Z := range_down_from hi (Z.to_nat hi).

(** [x in l] for a list of strings. *)
Definition py_in (x : string) (l : list string) : bool :=
  existsb (String.eqb x) l.

(** Truth value of an integer. *)
Definition truthy (h : Z) : bool := negb (h =? 0).

(** [os.path.basename] and the destination [shutil.copy2] writes when its
    second argument is a directory. *)
Fixpoint basename_acc (acc s : string) : string :=
  match s with
  | EmptyString => acc
  | String c r => if Ascii.eqb c "/"%char then basename_acc EmptyString r
                  else basename_acc (acc ++ String c EmptyString)%string r
  end.

Definition basename (s : string) : string := basename_acc EmptyString s.

Definition copy2_target (src dest : string) : string :=
  (dest ++ "/" ++ basename src)%string.

(** Whether a character occurs in a string. *)
Fixpoint has_char (c : ascii) (s : string) : bool :=
  match s with
  | EmptyString => false
  | String a r => Ascii.eqb a c || has_char c r
  end.

(** A folder name that names one folder of its own, directly in the
    working directory: not empty, not [.] or [..], without a directory
    part and without a NUL character, and no longer than a file name may
    be.  Two different names of this kind are two different folders, none
    inside the other, and [os.makedirs] makes such a folder in one step. *)
Definition plain_name (f : string) : bool :=
  negb (String.eqb f EmptyString) && negb (String.eqb f ".")
  && negb (String.eqb f "..") && negb (has_char "/"%char f)
  && negb (has_char "000"%char f) && (String.length f <=? 255)%nat.

(** ** Configuration (lines 67-104) *)

Record Config := mkConfig {
  CAMERA_BUTTON_PIN : Z;
  EXIT_BUTTON_PIN : Z;
  TOTAL_PICS : Z;
  PREP_DELAY : N;
  COUNTDOWN : Z;
  PHOTO_W : Z;
  PHOTO_H : Z;
  SCREEN_W : Z;
  SCREEN_H : Z;
  DEBOUNCE_TIME : N;
  TESTMODE_AUTOPRESS_BUTTON : bool;
  SAVE_RAW_IMAGES_FOLDER : string;
  PROPOSE_GPU_EFFECTS : bool;
  COPY_IMAGES_TO : list string
}.

(** ** The collaborators the script does not define *)

Record Env := mkEnv {
  (** directory of the script *)
  REAL_PATH : string;
  (** electrical level of a pin at a time, [true] = high *)
  level : Z -> N -> bool;
  (** handle the compositor returns, given the handles on screen *)
  alloc : list Z -> Z;
  (** [Image.open(path).size] *)
  image_size : string -> Z * Z;
  (** the floating-point height of lines 189-190, for screen width,
      image width and image height *)
  resize_height : Z -> Z -> Z -> Z;
  (** [str(datetime.datetime.now())] at a time *)
  datetime_now : N -> string;
  (** whether [copy2(src, dest)] raises *)
  copy_fails : string -> string -> bool
}.

(** ** Driver calls, as they appear in the trace *)

Inductive Event :=
| EPrint (s : string)
| ESleep (ms : N)
| EAddOverlay (path mode : string) (padded size : Z * Z) (layer handle : Z)
| ERemoveOverlay (handle : Z)
| ESetAlpha (handle alpha : Z)
| EAnnotate (text : string)
| EImageEffect (name : string)
| EStartPreview (resolution : Z * Z)
| ECapture (path : string)
| EMontage (pattern : string) (w h : Q) (out : string)
| ECopy (src dest : string)
| EMakedirs (folder : string).

Inductive Exc :=
| RuntimeError (msg : string)
| CopyError (src dest : string).

Record World := mkWorld {
  clock : N;
  armed : Z -> bool;
  latch : Z -> bool;
  active : list Z;
  lists : list (list string);
  folders : list string;
  trace : list Event
}.

Inductive Result (A : Type) :=
| Ok (a : A) (w : World)
| Raised (e : Exc) (w : World)
| OutOfFuel.

Arguments Ok {A} a w.
Arguments Raised {A} e w.
Arguments OutOfFuel {A}.

Definition M (A : Type) : Type := World -> Result A.

Definition ret {A} (a : A) : M A := fun w => Ok a w.

Definition bind {A B} (m : M A) (k : A -> M B) : M B :=
  fun w => match m w with
           | Ok a w' => k a w'
           | Raised e w' => Raised e w'
           | OutOfFuel => OutOfFuel
           end.

Definition raise {A} (e : Exc) : M A := fun w => Raised e w.

Notation "x <- m ;; k" := (bind m (fun x => k))
  (at level 61, m at next level, right associativity).
Notation "m ;;; k" := (bind m (fun _ => k))
  (at level 61, right associativity).

(** [for x in l: body x] *)
Fixpoint for_each {A} (l : list A) (body : A -> M unit) : M unit :=
  match l with
  | [] => ret tt
  | x :: r => body x ;;; for_each r body
  end.

(** The world a computation stops in, whether it returned or raised. *)
Definition final_world {A} (r : Result A) : option World :=
  match r with
  | Ok _ w => Some w
  | Raised _ w => Some w
  | OutOfFuel => None
  end.

(** ** World updates *)

Definition emit (e : Event) : M unit := fun w =>
  Ok tt (mkWorld (clock w) (armed w) (latch w) (active w) (lists w)
                 (folders w) (trace w ++ [e])).

Definition print (s : string) : M unit := emit (EPrint s).

(** A falling edge of [sig] between [t] and [t + n]. *)
Fixpoint fell (sig : N -> bool) (t : N) (n : nat) : bool :=
  match n with
  | O => false
  | S k => (sig t && negb (sig (N.succ t))) || fell sig (N.succ t) k
  end.

Arguments fell : simpl never.

Section Booth.

Variable cfg : Config.
Variable env : Env.

(** [time.sleep]: the clock advances and every armed pin latches the
    falling edges that happen meanwhile. *)
Definition sleep (ms : N) : M unit := fun w =>
  Ok tt (mkWorld (clock w + ms)%N (armed w)
                 (fun p => latch w p
                           || (armed w p && fell (level env p) (clock w) (N.to_nat ms)))
                 (active w) (lists w) (folders w) (trace w ++ [ESleep ms])).

Definition perf_counter : M N := fun w => Ok (clock w) w.

(** *** GPIO driver

    The contract of the input driver: [add_event_detect] arms a pin with
    a clear latch and refuses a pin that is armed already;
    [remove_event_detect] disarms the pin and drops its latch;
    [event_detected] reads the latch of an armed pin and clears it;
    [input] reads the level of the pin now. *)

Definition GPIO_add_event_detect (pin : Z) : M unit := fun w =>
  if armed w pin
  then Raised (RuntimeError
         "Conflicting edge detection already enabled for this GPIO channel") w
  else Ok tt (mkWorld (clock w)
                      (fun p => if p =? pin then true else armed w p)
                      (fun p => if p =? pin then false else latch w p)
                      (active w) (lists w) (folders w) (trace w)).

Definition GPIO_remove_event_detect (pin : Z) : M unit := fun w =>
  Ok tt (mkWorld (clock w)
                 (fun p => if p =? pin then false else armed w p)
                 (fun p => if p =? pin then false else latch w p)
                 (active w) (lists w) (folders w) (trace w)).

Definition GPIO_event_detected (pin : Z) : M bool := fun w =>
  Ok (armed w pin && latch w pin)
     (mkWorld (clock w) (armed w)
              (fun p => if p =? pin then false else latch w p)
              (active w) (lists w) (folders w) (trace w)).

Definition GPIO_input (pin : Z) : M Z := fun w =>
  Ok (if level env pin (clock w) then 1 else 0) w.

(** *** Camera driver

    [add_overlay] returns the handle the compositor chooses and puts it on
    screen; [remove_overlay] takes a handle off the screen.  [capture],
    the properties [annotate_text] and [image_effect], and
    [start_preview] only leave their event in the trace. *)

Definition CAMERA_add_overlay (path mode : string) (padded size : Z * Z)
    (layer : Z) : M Z := fun w =>
  let h := alloc env (active w) in
  Ok h (mkWorld (clock w) (armed w) (latch w) (h :: active w) (lists w)
                (folders w)
                (trace w ++ [EAddOverlay path mode padded size layer h])).

Definition CAMERA_remove_overlay (h : Z) : M unit := fun w =>
  Ok tt (mkWorld (clock w) (armed w) (latch w)
                 (List.remove Z.eq_dec h (active w)) (lists w) (folders w)
                 (trace w ++ [ERemoveOverlay h])).

(** *** Python list objects: [photo_filenames] is a reference into [lists] *)

Definition new_list : M nat := fun w =>
  Ok (List.length (lists w))
     (mkWorld (clock w) (armed w) (latch w) (active w) (lists w ++ [[]])
              (folders w) (trace w)).

Fixpoint append_at (r : nat) (x : string) (ls : list (list string)) :=
  match ls, r with
  | [], _ => []
  | l :: rest, O => (l ++ [x]) :: rest
  | l :: rest, S k => l :: append_at k x rest
  end.

Definition list_append (r : nat) (x : string) : M unit := fun w =>
  Ok tt (mkWorld (clock w) (armed w) (latch w) (active w)
                 (append_at r x (lists w)) (folders w) (trace w)).

Definition list_read (r : nat) : M (list string) := fun w =>
  Ok (nth r (lists w) []) w.

(** *** File system

    [folders] holds the names [os.path.exists] answers [True] for.  The
    two folder functions are those of a working directory the script may
    write to, for folder names that are [plain_name]s: there
    [os.makedirs] succeeds and makes the folder it is given and no other,
    and a name exists whenever it was there before or has been made.  For
    other names (the empty name, on which [os.makedirs] raises; a path
    with a directory part, whose missing parents [os.makedirs] makes as
    well; two spellings of one folder) the real functions do more than
    is written here, and the statements about the folder check are made
    for plain names only.

    [copy2] is recorded before it can fail, so the trace holds every copy
    that was attempted. *)

Definition os_path_exists (folder : string) : M bool := fun w =>
  Ok (py_in folder (folders w)) w.

Definition os_makedirs (folder : string) : M unit := fun w =>
  Ok tt (mkWorld (clock w) (armed w) (latch w) (active w) (lists w)
                 (folder :: folders w) (trace w ++ [EMakedirs folder])).

Definition copy2 (src dest : string) : M unit :=
  emit (ECopy src dest) ;;;
  if copy_fails env src dest then raise (CopyError src dest) else ret tt.

(** ** Helper functions (lines 126-221) *)

(** Lines 131-140, one folder of the loop; [folders_checked] is threaded. *)
Definition health_test_folder (folders_checked : list string) (folder : string)
    : M (list string) :=
  checked <- (if negb (py_in folder folders_checked)
              then ret (folders_checked ++ [folder])
              else print ("ERROR: Cannot use same folder path (" ++ folder
                          ++ ") twice. Refer config file.")%string ;;;
                   ret folders_checked) ;;
  present <- os_path_exists folder ;;
  (if negb present
   then print ("Creating folder: " ++ folder)%string ;;; os_makedirs folder
   else ret tt) ;;;
  ret checked.

Fixpoint health_test_loop (folders_list folders_checked : list string)
    : M unit :=
  match folders_list with
  | [] => ret tt
  | folder :: rest =>
      checked <- health_test_folder folders_checked folder ;;
      health_test_loop rest checked
  end.

Definition health_test_required_folders : M unit :=
  health_test_loop (SAVE_RAW_IMAGES_FOLDER cfg :: COPY_IMAGES_TO cfg) [].

Definition print_overlay (string_to_print : string) : M unit :=
  print string_to_print ;;; emit (EAnnotate string_to_print).

Definition get_base_filename_for_images : M string :=
  t <- perf_counter ;;
  let base_filename := py_split_head "."%char (datetime_now env t) in
  let base_filename := py_replace " "%char "_"%char base_filename in
  let base_filename := py_replace ":"%char "-"%char base_filename in
  ret (SAVE_RAW_IMAGES_FOLDER cfg ++ "/" ++ base_filename)%string.

Definition remove_overlay (overlay_id : Z) : M unit :=
  if negb (overlay_id =? -1) then CAMERA_remove_overlay overlay_id else ret tt.

(** Lines 186-191: the size of the image once it fits the screen. *)
Definition fitted_size (size : Z * Z) : Z * Z :=
  if fst size >? SCREEN_W cfg
  then (SCREEN_W cfg, resize_height env (SCREEN_W cfg) (fst size) (snd size))
  else size.

(** Lines 203-206: the size of the padded buffer. *)
Definition padded_size (size : Z * Z) : Z * Z :=
  (((fst size + 31) / 32) * 32, ((snd size + 15) / 16) * 16).

Definition overlay_image (image_path : string) (layer : Z) (mode : string)
    : M Z :=
  let img_size := fitted_size (image_size env image_path) in
  let pad_size := padded_size img_size in
  CAMERA_add_overlay image_path mode pad_size img_size layer.

(** ** Screens (lines 226-290) *)

Definition prep_for_photo_screen (photo_number : Z) : M Z :=
  let get_ready_image :=
    (REAL_PATH env ++ "/assets/get_ready_" ++ py_str photo_number ++ ".png")%string in
  overlay_image get_ready_image 5 "RGB".

(** Lines 244-249, the body of the countdown loop. *)
Definition countdown_step (counter : Z) : M unit :=
  let countdown_image :=
    (REAL_PATH env ++ "/assets/countdown_" ++ py_str counter ++ ".png")%string in
  countdown_overlay <- overlay_image countdown_image 5 "RGBA" ;;
  print (" ..." ++ py_str counter)%string ;;;
  sleep 1000 ;;;
  remove_overlay countdown_overlay.

(** Line 241. *)
Definition photo_filename (filename_prefix : string) (photo_number : Z) : string :=
  (filename_prefix ++ "_" ++ py_str photo_number ++ "of"
     ++ py_str (TOTAL_PICS cfg) ++ ".jpg")%string.

Definition taking_photo (photo_number : Z) (filename_prefix : string)
    : M string :=
  let filename := photo_filename filename_prefix photo_number in
  for_each (py_range_down (COUNTDOWN cfg)) countdown_step ;;;
  sleep 500 ;;;
  emit (EAnnotate EmptyString) ;;;
  emit (ECapture filename) ;;;
  print ("Photo (" ++ py_str photo_number ++ ") saved: " ++ filename)%string ;;;
  ret filename.

(** Line 270. *)
Definition montage_filename (filename_prefix : string) : string :=
  (filename_prefix ++ ".jpg")%string.

(** Lines 273-282; [prev_overlay] is threaded through the iterations and
    its last value is returned. *)
Fixpoint playback_loop (montage : string) (filenames : list string)
    (prev_overlay : Z) : M Z :=
  match filenames with
  | [] => ret prev_overlay
  | filename :: rest =>
      this_overlay <- overlay_image filename 6 "RGB" ;;
      (if truthy prev_overlay then remove_overlay prev_overlay else ret tt) ;;;
      (if String.eqb filename montage then sleep 6000 else sleep 2000) ;;;
      playback_loop montage rest this_overlay
  end.

(** [photo_filenames] is the caller's list object: the montage appended on
    line 271 stays in it after the call.  The list is not changed while
    line 273 iterates over it, so the loop runs over its content at that
    point.  The [montage] command of line 267 is recorded with its file
    pattern, its geometry [PHOTO_W/2 x PHOTO_H/2] and its output file. *)
Definition playback_screen (filename_prefix : string) (photo_filenames : nat)
    : M Z :=
  print "Processing..." ;;;
  let processing_image := (REAL_PATH env ++ "/assets/processing.png")%string in
  prev_overlay <- overlay_image processing_image 4 "RGB" ;;
  emit (EMontage (filename_prefix ++ "*")%string
                 (inject_Z (PHOTO_W cfg) / 2)%Q (inject_Z (PHOTO_H cfg) / 2)%Q
                 (montage_filename filename_prefix)) ;;;
  let montage := montage_filename filename_prefix in
  list_append photo_filenames montage ;;;
  filenames <- list_read photo_filenames ;;
  prev_overlay <- playback_loop montage filenames prev_overlay ;;
  print "All done!" ;;;
  let finished_image :=
    (REAL_PATH env ++ "/assets/all_done_delayed_upload.png")%string in
  ol_done <- overlay_image finished_image 5 "RGB" ;;
  remove_overlay prev_overlay ;;;
  ret ol_done.

(** ** Main program loop (lines 292-416) *)

(** Lines 329-332, 334-337 and 371-374 are the same four lines on a pin:
    the value is [true] where the script sets its flag to [True]. *)
Definition debounced_press (pin : Z) : M bool :=
  detected <- GPIO_event_detected pin ;;
  if detected
  then sleep (DEBOUNCE_TIME cfg) ;;;
       lv <- GPIO_input pin ;;
       ret (lv =? 0)
  else ret false.

(** The variables of [main] that live across iterations of [while True]. *)
Record Locals := mkLocals {
  loc_i : Z;
  loc_overlay_1 : Z;
  loc_overlay_2 : Z
}.

(** How an iteration of [while True] ends: [return] (line 340), [break]
    (line 408), or going round again. *)
Inductive Control := CReturn | CBreak | CContinue.

Definition blink_speed : Z := 10.

(** Lines 348-358. *)
Definition idle_blink (l : Locals) : M Locals :=
  let i := loc_i l + 1 in
  i <- (if i =? blink_speed
        then emit (ESetAlpha (loc_overlay_2 l) 255) ;;; ret i
        else if i =? 2 * blink_speed
             then emit (ESetAlpha (loc_overlay_2 l) 0) ;;; ret 0
             else ret i) ;;
  sleep 100 ;;;
  ret (mkLocals i (loc_overlay_1 l) (loc_overlay_2 l)).

(** Lines 369-378.  An iteration that does not break sleeps 100 ms, so the
    guard fails after at most twenty of them: [gpu_effect_window_fuel]
    iterations are enough (lemma [gpu_effect_window_returns]). *)
Fixpoint gpu_effect_loop (fuel : nat) (tic : N) : M unit :=
  match fuel with
  | O => fun _ => OutOfFuel
  | S f =>
      t <- perf_counter ;;
      if (t - tic <? 2000)%N
      then pressed <- debounced_press (CAMERA_BUTTON_PIN cfg) ;;
           if pressed
           then emit (EImageEffect "sketch")
           else sleep 100 ;;; gpu_effect_loop f tic
      else ret tt
  end.

Definition gpu_effect_window_fuel : nat := 21.

(** Lines 389-394, the body of the capture loop. *)
Definition capture_step (filename_prefix : string) (photo_filenames : nat)
    (photo_number : Z) : M unit :=
  ol_id <- prep_for_photo_screen photo_number ;;
  sleep (PREP_DELAY cfg) ;;;
  remove_overlay ol_id ;;;
  fname <- taking_photo photo_number filename_prefix ;;
  list_append photo_filenames fname.

(** Lines 403-404 on one (source, destination) pair. *)
Definition copy_pair (p : string * string) : M unit :=
  print (fst p ++ " -> " ++ snd p)%string ;;;
  copy2 (fst p) (snd p).

(** Lines 401-404. *)
Definition archive (photo_filenames : nat) : M unit :=
  for_each (COPY_IMAGES_TO cfg) (fun dest =>
    srcs <- list_read photo_filenames ;;
    for_each srcs (fun src => copy_pair (src, dest))).

Definition intro_image_1 : string := (REAL_PATH env ++ "/assets/intro_1.png")%string.
Definition intro_image_2 : string := (REAL_PATH env ++ "/assets/intro_2.png")%string.

(** Lines 361-397: from the confirmed press to the end of the playback.
    Returns the prefix, the list object and the handle of the last
    overlay. *)
Definition capture_phase (l : Locals) : M (string * nat * Z) :=
  print "Button pressed! You folks are in for a treat." ;;;
  remove_overlay (loc_overlay_2 l) ;;;
  remove_overlay (loc_overlay_1 l) ;;;
  emit (EImageEffect "none") ;;;
  (if PROPOSE_GPU_EFFECTS cfg
   then tic <- perf_counter ;; gpu_effect_loop gpu_effect_window_fuel tic
   else ret tt) ;;;
  GPIO_remove_event_detect (CAMERA_BUTTON_PIN cfg) ;;;
  GPIO_remove_event_detect (EXIT_BUTTON_PIN cfg) ;;;
  filename_prefix <- get_base_filename_for_images ;;
  photo_filenames <- new_list ;;
  for_each (py_range 1 (TOTAL_PICS cfg + 1))
           (capture_step filename_prefix photo_filenames) ;;;
  ol_done <- playback_screen filename_prefix photo_filenames ;;
  ret (filename_prefix, photo_filenames, ol_done).

(** Lines 410-416. *)
Definition rearm (l : Locals) (ol_done : Z) : M Locals :=
  overlay_1 <- overlay_image intro_image_1 3 "RGB" ;;
  overlay_2 <- overlay_image intro_image_2 4 "RGB" ;;
  remove_overlay ol_done ;;;
  GPIO_add_event_detect (CAMERA_BUTTON_PIN cfg) ;;;
  GPIO_add_event_detect (EXIT_BUTTON_PIN cfg) ;;;
  print "Press the button to take a photo" ;;;
  ret (mkLocals (loc_i l) overlay_1 overlay_2).

(** Lines 361-416: one session, from the confirmed press back to the top
    of the loop. *)
Definition session (l : Locals) : M (Control * Locals) :=
  r <- capture_phase l ;;
  let '(_, photo_filenames, ol_done) := r in
  sleep 2000 ;;;
  archive photo_filenames ;;;
  if TESTMODE_AUTOPRESS_BUTTON cfg
  then ret (CBreak, l)
  else l' <- rearm l ol_done ;; ret (CContinue, l').

(** Lines 326-416: one iteration of [while True]. *)
Definition loop_body (l : Locals) : M (Control * Locals) :=
  photo_button_is_pressed <- debounced_press (CAMERA_BUTTON_PIN cfg) ;;
  exit_button_is_pressed <- debounced_press (EXIT_BUTTON_PIN cfg) ;;
  if exit_button_is_pressed
  then ret (CReturn, l)
  else
    let photo_button_is_pressed :=
      if TESTMODE_AUTOPRESS_BUTTON cfg then true else photo_button_is_pressed in
    if negb photo_button_is_pressed
    then l' <- idle_blink l ;; ret (CContinue, l')
    else session l.

Fixpoint main_loop (fuel : nat) (l : Locals) : M unit :=
  match fuel with
  | O => fun _ => OutOfFuel
  | S f =>
      r <- loop_body l ;;
      match fst r with
      | CReturn => ret tt
      | CBreak => ret tt
      | CContinue => main_loop f (snd r)
      end
  end.

(** Lines 297-323. *)
Definition main_startup : M Locals :=
  print "Welcome to the photo booth!" ;;;
  print "(version 2.2)" ;;;
  print EmptyString ;;;
  print "Press the 'Take photo' button to take a photo" ;;;
  print "Use [Ctrl] + [\] to exit" ;;;
  print EmptyString ;;;
  health_test_required_folders ;;;
  overlay_1 <- overlay_image intro_image_1 3 "RGB" ;;
  overlay_2 <- overlay_image intro_image_2 4 "RGB" ;;
  emit (EStartPreview (SCREEN_W cfg, SCREEN_H cfg)) ;;;
  GPIO_add_event_detect (CAMERA_BUTTON_PIN cfg) ;;;
  GPIO_add_event_detect (EXIT_BUTTON_PIN cfg) ;;;
  ret (mkLocals 0 overlay_1 overlay_2).

Definition main (fuel : nat) : M unit :=
  l <- main_startup ;;
  main_loop fuel l.

End Booth.

(** ** Observations on traces *)

(** The calls that create files: captures, the montage, archive copies. *)
Definition is_file_op (e : Event) : bool :=
  match e with
  | ECapture _ | EMontage _ _ _ _ | ECopy _ _ => true
  | _ => false
  end.

Definition file_ops (evs : list Event) : list Event := filter is_file_op evs.

(** The pairs [copy2] is called on, in order. *)
Definition copy_calls (evs : list Event) : list (string * string) :=
  flat_map (fun e => match e with ECopy s d => [(s, d)] | _ => [] end) evs.

(** All (source, destination) pairs, in the order of lines 401-402. *)
Definition archive_pairs (dests srcs : list string) : list (string * string) :=
  flat_map (fun dest => map (fun src => (src, dest)) srcs) dests.

(** The calls that produce a new picture: captures and the montage. *)
Definition is_production (e : Event) : bool :=
  match e with
  | ECapture _ | EMontage _ _ _ _ => true
  | _ => false
  end.

Definition produced (evs : list Event) : list Event := filter is_production evs.

Definition copy_event (p : string * string) : Event := ECopy (fst p) (snd p).

(** The sleep that follows a point of the trace before any other overlay
    is added. *)
Fixpoint next_sleep (evs : list Event) : option N :=
  match evs with
  | [] => None
  | ESleep ms :: _ => Some ms
  | EAddOverlay _ _ _ _ _ _ :: _ => None
  | _ :: r => next_sleep r
  end.

(** The images put on a layer, each with the time it is held. *)
Fixpoint slides (layer : Z) (evs : list Event) : list (string * option N) :=
  match evs with
  | [] => []
  | EAddOverlay path _ _ _ ly _ :: r =>
      if ly =? layer then (path, next_sleep r) :: slides layer r
      else slides layer r
  | _ :: r => slides layer r
  end.

(** The handle of the overlay added last. *)
Fixpoint last_shown (cur : option Z) (evs : list Event) : option Z :=
  match evs with
  | [] => cur
  | EAddOverlay _ _ _ _ _ h :: r => last_shown (Some h) r
  | _ :: r => last_shown cur r
  end.


(** The time an image of the slideshow is held (lines 278-281). *)
Definition hold_of (montage f : string) : N :=
  if String.eqb f montage then 6000%N else 2000%N.


(** A computation that returns, touches neither the edge-detection
    set-up nor the list objects, and creates no file. *)
Definition quietly {A} (m : M A) (w : World) : Prop :=
  exists a w' evs,
    m w = Ok a w' /\ trace w' = trace w ++ evs /\ file_ops evs = [] /\
    armed w' = armed w /\ lists w' = lists w /\ (clock w <= clock w')%N.

Definition Quiet {A} (m : M A) : Prop := forall w, quietly m w.

(** What a computation leaves unchanged between two worlds: the
    edge-detection set-up stays, the clock does not go back, and the trace
    grows by events whose file operations are [fops]. *)
Definition frame (w w' : World) (fops : list Event) : Prop :=
  armed w' = armed w /\ (clock w <= clock w')%N /\
  exists evs, trace w' = trace w ++ evs /\ file_ops evs = fops.

(** The computation returns, in a world and with a value that satisfy [Q]. *)
Definition wp {A} (m : M A) (w : World) (Q : A -> World -> Prop) : Prop :=
  exists a w', m w = Ok a w' /\ Q a w'.

(** The computation stops, by returning or by raising, after a stretch of
    trace whose file operations are [fops]. *)
Definition stops {A} (m : M A) (w : World) (fops : list Event) : Prop :=
  exists w' evs, final_world (m w) = Some w' /\
                 trace w' = trace w ++ evs /\ file_ops evs = fops.

(** The trace a run ends with. *)
Definition run_trace {A} (r : Result A) : list Event :=
  match final_world r with
  | Some w => trace w
  | None => []
  end.

(** The same installation with another signal on one pin. *)
Definition with_pin_signal (env : Env) (pin : Z) (sig : N -> bool) : Env :=
  mkEnv (REAL_PATH env)
        (fun p t => if p =? pin then sig t else level env p t)
        (alloc env) (image_size env) (resize_height env) (datetime_now env)
        (copy_fails env).

(** Two worlds that differ at most in the latch of pin [x]. *)
Definition agree_off (x : Z) (w1 w2 : World) : Prop :=
  clock w1 = clock w2 /\
  (forall p, armed w1 p = armed w2 p) /\
  (forall p, p <> x -> latch w1 p = latch w2 p) /\
  active w1 = active w2 /\ lists w1 = lists w2 /\
  folders w1 = folders w2 /\ trace w1 = trace w2.

(** Two results with the same outcome and value, in such worlds. *)
Definition same_result {A} (x : Z) (r1 r2 : Result A) : Prop :=
  match r1, r2 with
  | Ok a1 w1, Ok a2 w2 => a1 = a2 /\ agree_off x w1 w2
  | Raised e1 w1, Raised e2 w2 => e1 = e2 /\ agree_off x w1 w2
  | OutOfFuel, OutOfFuel => True
  | _, _ => False
  end.

(** Two computations that cannot be told apart by anything but the latch
    of pin [x]. *)
Definition blind_to {A} (x : Z) (m1 m2 : M A) : Prop :=
  forall w1 w2, agree_off x w1 w2 -> same_result x (m1 w1) (m2 w2).

(** ** Observations for the further properties *)

(** Partial correctness: whenever the computation returns, its value and
    world satisfy [Q]. *)
Definition post {A} (m : M A) (w : World) (Q : A -> World -> Prop) : Prop :=
  forall a w', m w = Ok a w' -> Q a w'.

(** A compositor whose handles are new on the screen and are neither 0
    nor the sentinel -1. *)
Definition well_behaved (al : list Z -> Z) : Prop :=
  forall act, ~ In (al act) act /\ al act <> 0 /\ al act <> -1.

(** The folders [os.makedirs] is called on, in order. *)
Definition makedirs_of (evs : list Event) : list string :=
  flat_map (fun e => match e with EMakedirs f => [f] | _ => [] end) evs.

(** The message of line 135. *)
Definition duplicate_message (folder : string) : string :=
  ("ERROR: Cannot use same folder path (" ++ folder
     ++ ") twice. Refer config file.")%string.

(** The time a slideshow of the files [fs] takes. *)
Definition total_hold (montage : string) (fs : list string) : N :=
  fold_right (fun f acc => (hold_of montage f + acc)%N) 0%N fs.

(** The screen of the waiting loop: the two intro overlays and nothing
    else, the second on top. *)
Definition intro_screen (l : Locals) (w : World) : Prop :=
  active w = [loc_overlay_2 l; loc_overlay_1 l] /\
  loc_overlay_1 l <> loc_overlay_2 l /\
  loc_overlay_1 l <> -1 /\ loc_overlay_2 l <> -1.

(** The edge detection of the waiting loop: both pins armed, both latches
    clear. *)
Definition armed_and_clear (cfg : Config) (w : World) : Prop :=
  armed w (CAMERA_BUTTON_PIN cfg) = true /\
  armed w (EXIT_BUTTON_PIN cfg) = true /\
  latch w (CAMERA_BUTTON_PIN cfg) = false /\
  latch w (EXIT_BUTTON_PIN cfg) = false.

(** A computation that, whenever it returns, has let exactly [dt]
    milliseconds pass. *)
Definition takes {A} (m : M A) (dt : N) : Prop :=
  forall w, post m w (fun _ w' => clock w' = (clock w + dt)%N).

(** A computation that, whenever it returns, leaves the screen as it
    found it. *)
Definition keeps_screen {A} (m : M A) : Prop :=
  forall w, post m w (fun _ w' => active w' = active w).



(** The folders of the configuration, in the order of lines 127-128, and
    a configuration whose folders all have plain names. *)
Definition folders_list (cfg : Config) : list string :=
  SAVE_RAW_IMAGES_FOLDER cfg :: COPY_IMAGES_TO cfg.

Definition plain_folders (cfg : Config) : Prop :=
  forall f, In f (folders_list cfg) -> plain_name f = true.

(** How often a line is printed. *)
Definition is_print (s : string) (e : Event) : bool :=
  match e with
  | EPrint s' => String.eqb s' s
  | _ => false
  end.

Definition count_prints (s : string) (evs : list Event) : nat :=
  List.length (filter (is_print s) evs).

(** How often a folder is listed. *)
Definition times_listed (f : string) (l : list string) : nat :=
  List.length (filter (String.eqb f) l).

(** ** Sample installations *)

(** A compositor that hands out the lowest handle not on screen. *)
Fixpoint lowest_free (n : nat) (h : Z) (act : list Z) : Z :=
  match n with
  | O => h
  | S k => if existsb (Z.eqb h) act then lowest_free k (h + 1) act else h
  end.

Definition lowest_handle (act : list Z) : Z := lowest_free (List.length act) 0 act.

(** A compositor that numbers its overlays from 1 and never reuses one. *)
Definition counting_handle (act : list Z) : Z := 1 + fold_right Z.max 0 act.

Definition sample_clock (_ : N) : string := "2017-12-31 23:59:59.123456".

Definition sample_env (lv : Z -> N -> bool) (al : list Z -> Z)
    (fails : string -> string -> bool) : Env :=
  mkEnv "/home/pi/booth" lv al (fun _ => (500, 300))
        (fun sw w h => h * sw / w) sample_clock fails.

Definition released : Z -> N -> bool := fun _ _ => true.
Definition held : Z -> N -> bool := fun _ _ => false.
(** Low for the first 10 ms only. *)
Definition glitch : Z -> N -> bool := fun _ t => (10 <=? t)%N.

Definition never_fails : string -> string -> bool := fun _ _ => false.

Definition sample_cfg (total : Z) (autopress gpu : bool) (copy_to : list string)
    : Config :=
  mkConfig 21 26 total 1000 3 2592 1944 800 480 50 autopress "photos" gpu copy_to.

Definition fresh_world : World :=
  mkWorld 0 (fun _ => false) (fun _ => false) [] [] [] [].

(** The world of the waiting loop with both latches set. *)
Definition both_latched : World :=
  mkWorld 0 (fun _ => true) (fun _ => true) [2; 1] [] ["photos"%string] [].

(** A booth that takes two photos per session, archives to one folder and
    runs one session on its own (test mode). *)
Definition booth_cfg : Config := sample_cfg 2 true false ["backup"%string].
Definition booth_env : Env := sample_env released lowest_handle never_fails.
Definition waiting_locals : Locals := mkLocals 0 1 2.

(** The same booth with an archive folder that refuses the first photo. *)
Definition refuses_first (src dest : string) : bool :=
  String.eqb src "photos/2017-12-31_23-59-59_1of2.jpg".
Definition faulty_env : Env := sample_env released lowest_handle refuses_first.

(** The world of the waiting loop, pins armed and latches clear. *)
Definition waiting_world : World :=
  mkWorld 0 (fun _ => true) (fun _ => false) [2; 1] [] ["photos"%string] [].

(** A world about to archive the list object 0. *)
Definition archiving_world : World :=
  mkWorld 0 (fun _ => false) (fun _ => false) [] [["a.jpg"; "b.jpg"]%string]
          ["photos"; "backup"]%string [].
Definition refuses_a (src dest : string) : bool := String.eqb src "a.jpg".

(** A walk-up booth (no test mode) with the effect preview, and an exit
    button that is pressed and released every half second. *)
Definition walkup_cfg : Config := sample_cfg 2 false true ["backup"%string].
Definition exit_hammered : Z -> N -> bool :=
  fun p t => if p =? 26 then N.even (t / 500) else true.
Definition walkup_env : Env := sample_env exit_hammered counting_handle never_fails.

(** The booth of [booth_cfg] told to archive into its own photo folder. *)
Definition same_folder_cfg : Config := sample_cfg 2 true false ["photos"%string].

(** * Properties *)

(** ** The built-ins on samples *)

Example py_str_samples :
  py_str 0 = "0"%string /\ py_str 12 = "12"%string /\ py_str (-3) = "-3"%string.
Proof. repeat split. Qed.

Example py_range_samples :
  py_range 1 (4 + 1) = [1; 2; 3; 4] /\ py_range 1 (0 + 1) = [] /\
  py_range_down 3 = [3; 2; 1] /\ py_range_down 0 = [].
Proof. repeat split. Qed.

Example basename_samples :
  basename "photos/2017-12-31_23-59-59_1of4.jpg" = "2017-12-31_23-59-59_1of4.jpg"%string /\
  copy2_target "photos/a.jpg" "backup" = "backup/a.jpg"%string.
Proof. repeat split. Qed.

(** The example of the docstring of [get_base_filename_for_images]. *)
Example base_filename_sample :
  get_base_filename_for_images booth_cfg booth_env fresh_world
  = Ok "photos/2017-12-31_23-59-59"%string fresh_world.
Proof. reflexivity. Qed.

Example padded_size_samples :
  padded_size (500, 300) = (512, 304) /\ padded_size (640, 480) = (640, 480) /\
  padded_size (1, 1) = (32, 16) /\ padded_size (0, 0) = (0, 0).
Proof. repeat split. Qed.

(** ** Strings and ranges *)

Lemma append_assoc (a b c : string) : ((a ++ b) ++ c = a ++ (b ++ c))%string.
Proof. induction a as [|x a IH]; simpl; [reflexivity | now rewrite IH]. Qed.

Lemma append_nil_r (a : string) : (a ++ EmptyString)%string = a.
Proof. induction a as [|x a IH]; simpl; [reflexivity | now rewrite IH]. Qed.

Lemma append_length (a b : string) :
  String.length (a ++ b) = (String.length a + String.length b)%nat.
Proof. induction a as [|x a IH]; simpl; [reflexivity | now rewrite IH]. Qed.

Lemma append_inv_head (a b c : string) : (a ++ b = a ++ c)%string -> b = c.
Proof.
  induction a as [|x a IH]; simpl; intros E; [exact E|].
  injection E as E. auto.
Qed.

Lemma append_inv_tail (r a b : string) : (a ++ r = b ++ r)%string -> a = b.
Proof.
  intros E.
  assert (L : String.length a = String.length b).
  { apply (f_equal String.length) in E. rewrite !append_length in E. lia. }
  revert b E L. induction a as [|x a IH]; intros [|y b] E L; simpl in *;
    try discriminate; [reflexivity|].
  injection E as -> E. f_equal. apply IH; [exact E | lia].
Qed.

Lemma py_str_inj (i j : Z) : py_str i = py_str j -> i = j.
Proof.
  unfold py_str. intros E. apply DecimalZ.to_int_inj.
  assert (S : Some (Z.to_int i) = Some (Z.to_int j)).
  { rewrite <- !NilEmpty.isi. now rewrite E. }
  now injection S.
Qed.

Lemma range_from_length (lo : Z) (n : nat) : List.length (range_from lo n) = n.
Proof. revert lo. induction n; intros lo; simpl; [reflexivity | now rewrite IHn]. Qed.

Lemma range_from_In (n : nat) (lo i : Z) :
  In i (range_from lo n) <-> lo <= i < lo + Z.of_nat n.
Proof.
  revert lo. induction n as [|n IH]; intros lo; simpl.
  - lia.
  - rewrite IH. lia.
Qed.

Lemma range_from_NoDup (n : nat) (lo : Z) : NoDup (range_from lo n).
Proof.
  revert lo. induction n as [|n IH]; intros lo; simpl; constructor.
  - rewrite range_from_In. lia.
  - apply IH.
Qed.

Lemma py_range_In (lo hi i : Z) : In i (py_range lo hi) <-> lo <= i < hi.
Proof. unfold py_range. rewrite range_from_In. lia. Qed.

Lemma py_range_length (lo hi : Z) :
  List.length (py_range lo hi) = Z.to_nat (hi - lo).
Proof. apply range_from_length. Qed.

Lemma NoDup_map_inj {A B} (f : A -> B) (l : list A) :
  (forall x y, In x l -> In y l -> f x = f y -> x = y) ->
  NoDup l -> NoDup (map f l).
Proof.
  intros Hinj Hnd. induction Hnd as [|x l Hx Hnd IH]; simpl; constructor.
  - intros Hin. apply in_map_iff in Hin as (y & Hy & Hyl).
    apply Hx. rewrite (Hinj x y); simpl; auto.
  - apply IH. intros a b Ha Hb. apply Hinj; simpl; auto.
Qed.

(** ** Padding arithmetic *)

Lemma ceiling_as_floor (a : Z) (d : positive) :
  Qceiling (a # d) = (a + (Z.pos d - 1)) / Z.pos d.
Proof.
  unfold Qceiling, Qfloor. change (- (a # d))%Q with ((- a) # d).
  pose proof (Pos2Z.is_pos d) as Hd.
  assert (Hnz : Z.pos d <> 0) by lia.
  pose proof (Z.mod_pos_bound (- a) (Z.pos d) Hd) as Hm.
  pose proof (Z.div_mod (- a) (Z.pos d) Hnz) as Hdm.
  apply Z.div_unique
    with (r := a + (Z.pos d - 1) - Z.pos d * - (- a / Z.pos d)).
  - left. nia.
  - ring.
Qed.

Section BoothFacts.

Variable cfg : Config.
Variable env : Env.

Lemma photo_filename_inj (prefix : string) (i j : Z) :
  photo_filename cfg prefix i = photo_filename cfg prefix j -> i = j.
Proof.
  unfold photo_filename. intros E.
  apply append_inv_head in E. apply append_inv_head in E.
  apply append_inv_tail in E. now apply py_str_inj.
Qed.

Lemma photo_filename_not_montage (prefix : string) (i : Z) :
  photo_filename cfg prefix i <> montage_filename prefix.
Proof.
  unfold photo_filename, montage_filename. intros E.
  apply append_inv_head in E. discriminate E.
Qed.

End BoothFacts.

(** ** Running computations *)

Lemma bind_ok {A B} (m : M A) (k : A -> M B) (w w' : World) (a : A) :
  m w = Ok a w' -> bind m k w = k a w'.
Proof. unfold bind. now intros ->. Qed.

Lemma Ok_inj {A} (a a' : A) (w w' : World) :
  Ok a w = Ok a' w' -> a = a' /\ w = w'.
Proof. intros E. injection E. auto. Qed.

Lemma bind_raised {A B} (m : M A) (k : A -> M B) (w w' : World) (e : Exc) :
  m w = Raised e w' -> bind m k w = Raised e w'.
Proof. unfold bind. now intros ->. Qed.

Lemma file_ops_app (a b : list Event) :
  file_ops (a ++ b) = file_ops a ++ file_ops b.
Proof. apply filter_app. Qed.

Lemma copy_calls_app (a b : list Event) :
  copy_calls (a ++ b) = copy_calls a ++ copy_calls b.
Proof. apply flat_map_app. Qed.

Lemma Quiet_ret {A} (a : A) : Quiet (ret a).
Proof.
  intros w. exists a, w, []. rewrite app_nil_r.
  repeat split; auto. apply N.le_refl.
Qed.

Lemma Quiet_bind {A B} (m : M A) (k : A -> M B) :
  Quiet m -> (forall a, Quiet (k a)) -> Quiet (bind m k).
Proof.
  intros Hm Hk w.
  destruct (Hm w) as (a & w1 & evs1 & E1 & T1 & F1 & A1 & L1 & C1).
  destruct (Hk a w1) as (b & w2 & evs2 & E2 & T2 & F2 & A2 & L2 & C2).
  exists b, w2, (evs1 ++ evs2). rewrite (bind_ok _ _ _ _ _ E1).
  repeat split; try congruence.
  - rewrite T2, T1. symmetry. apply app_assoc.
  - rewrite file_ops_app, F1, F2. reflexivity.
  - eapply N.le_trans; eassumption.
Qed.

Lemma Quiet_if {A} (b : bool) (m1 m2 : M A) :
  Quiet m1 -> Quiet m2 -> Quiet (if b then m1 else m2).
Proof. destruct b; auto. Qed.

Lemma Quiet_emit (e : Event) : is_file_op e = false -> Quiet (emit e).
Proof.
  intros He w. exists tt, (mkWorld (clock w) (armed w) (latch w) (active w)
    (lists w) (folders w) (trace w ++ [e])), [e].
  unfold file_ops. simpl. rewrite He. repeat split; auto. apply N.le_refl.
Qed.

Lemma Quiet_print (s : string) : Quiet (print s).
Proof. apply Quiet_emit. reflexivity. Qed.

Lemma Quiet_for_each {A} (l : list A) (body : A -> M unit) :
  (forall x, Quiet (body x)) -> Quiet (for_each l body).
Proof.
  intros Hb. induction l as [|x l IH]; simpl.
  - apply Quiet_ret.
  - apply Quiet_bind; auto.
Qed.

Create HintDb quiet.

Section Runs.

Variable cfg : Config.
Variable env : Env.

Lemma Quiet_sleep (ms : N) : Quiet (sleep env ms).
Proof.
  intros w. eexists tt, _, [ESleep ms]. unfold sleep.
  repeat split; simpl; auto. lia.
Qed.

Lemma Quiet_perf_counter : Quiet perf_counter.
Proof.
  intros w. exists (clock w), w, []. rewrite app_nil_r.
  repeat split; auto. apply N.le_refl.
Qed.

Lemma Quiet_event_detected (pin : Z) : Quiet (GPIO_event_detected pin).
Proof.
  intros w. eexists _, _, []. unfold GPIO_event_detected.
  repeat split; simpl; auto.
  - symmetry. apply app_nil_r.
  - apply N.le_refl.
Qed.

Lemma Quiet_input (pin : Z) : Quiet (GPIO_input env pin).
Proof.
  intros w. eexists _, w, []. unfold GPIO_input. rewrite app_nil_r.
  repeat split; auto. apply N.le_refl.
Qed.

Lemma Quiet_add_overlay (path mode : string) (padded size : Z * Z) (layer : Z) :
  Quiet (CAMERA_add_overlay env path mode padded size layer).
Proof.
  intros w. eexists _, _, [_]. unfold CAMERA_add_overlay.
  repeat split; simpl; auto. apply N.le_refl.
Qed.

Lemma Quiet_camera_remove (h : Z) : Quiet (CAMERA_remove_overlay h).
Proof.
  intros w. eexists _, _, [_]. unfold CAMERA_remove_overlay.
  repeat split; simpl; auto. apply N.le_refl.
Qed.

Lemma Quiet_remove_overlay (h : Z) : Quiet (remove_overlay h).
Proof.
  unfold remove_overlay. apply Quiet_if;
    [apply Quiet_camera_remove | apply Quiet_ret].
Qed.

Lemma Quiet_overlay_image (path : string) (layer : Z) (mode : string) :
  Quiet (overlay_image cfg env path layer mode).
Proof. unfold overlay_image. apply Quiet_add_overlay. Qed.

#[local] Hint Resolve Quiet_ret Quiet_print Quiet_sleep Quiet_perf_counter
  Quiet_event_detected Quiet_input Quiet_add_overlay Quiet_camera_remove
  Quiet_remove_overlay Quiet_overlay_image : quiet.

(** Walks down a chain of binds and branches of quiet steps. *)
Ltac quiet :=
  repeat first
    [ solve [auto with quiet]
    | apply Quiet_emit; reflexivity
    | apply Quiet_bind; [|intro]
    | apply Quiet_if
    | apply Quiet_for_each; intro ].

Lemma Quiet_debounced_press (pin : Z) : Quiet (debounced_press cfg env pin).
Proof. unfold debounced_press. quiet. Qed.

Lemma Quiet_countdown_step (counter : Z) : Quiet (countdown_step cfg env counter).
Proof. unfold countdown_step. quiet. Qed.

Lemma Quiet_prep_for_photo_screen (photo_number : Z) :
  Quiet (prep_for_photo_screen cfg env photo_number).
Proof. unfold prep_for_photo_screen. quiet. Qed.


End Runs.

(** ** Weakest preconditions *)

Lemma wp_ok {A} (m : M A) (w w' : World) (a : A) (Q : A -> World -> Prop) :
  m w = Ok a w' -> Q a w' -> wp m w Q.
Proof. intros E HQ. exists a, w'. auto. Qed.

Lemma wp_bind {A B} (m : M A) (k : A -> M B) (w : World)
    (Q : B -> World -> Prop) :
  wp m w (fun a w1 => wp (k a) w1 Q) -> wp (bind m k) w Q.
Proof.
  intros (a & w1 & E1 & b & w2 & E2 & HQ).
  exists b, w2. rewrite (bind_ok _ _ _ _ _ E1). auto.
Qed.

Lemma wp_conseq {A} (m : M A) (w : World) (Q Q' : A -> World -> Prop) :
  wp m w Q -> (forall a w', Q a w' -> Q' a w') -> wp m w Q'.
Proof. intros (a & w' & E & HQ) H. exists a, w'. auto. Qed.

Lemma frame_refl (w : World) : frame w w [].
Proof.
  repeat split; [apply N.le_refl|]. exists []. now rewrite app_nil_r.
Qed.

Lemma frame_trans (w1 w2 w3 : World) (f g : list Event) :
  frame w1 w2 f -> frame w2 w3 g -> frame w1 w3 (f ++ g).
Proof.
  intros (A1 & C1 & e1 & T1 & F1) (A2 & C2 & e2 & T2 & F2).
  repeat split; [congruence | eapply N.le_trans; eassumption |].
  exists (e1 ++ e2). rewrite T2, T1, file_ops_app, F1, F2.
  now rewrite app_assoc.
Qed.

Lemma frame_quiet_l (w1 w2 w3 : World) (g : list Event) :
  frame w1 w2 [] -> frame w2 w3 g -> frame w1 w3 g.
Proof. intros F1 F2. apply (frame_trans _ _ _ _ _ F1 F2). Qed.

Lemma frame_quiet_r (w1 w2 w3 : World) (f : list Event) :
  frame w1 w2 f -> frame w2 w3 [] -> frame w1 w3 f.
Proof.
  intros F1 F2. rewrite <- (app_nil_r f). apply (frame_trans _ _ _ _ _ F1 F2).
Qed.

Lemma quietly_frame {A} (m : M A) (w : World) :
  quietly m w -> wp m w (fun _ w' => frame w w' [] /\ lists w' = lists w).
Proof.
  intros (a & w' & evs & E & T & F & Ar & L & C).
  exists a, w'. repeat split; auto. exists evs. auto.
Qed.

Lemma wp_quiet {A} (m : M A) (w : World) (Q : A -> World -> Prop) :
  Quiet m ->
  (forall a w', frame w w' [] -> lists w' = lists w -> Q a w') ->
  wp m w Q.
Proof.
  intros Hm HQ. eapply wp_conseq; [apply quietly_frame, Hm|].
  intros a w' [F L]. auto.
Qed.

Lemma wp_emit (e : Event) (w : World) (Q : unit -> World -> Prop) :
  (forall w', frame w w' (file_ops [e]) -> lists w' = lists w -> Q tt w') ->
  wp (emit e) w Q.
Proof.
  intros HQ. eapply wp_ok; [reflexivity|]. apply HQ; [|reflexivity].
  repeat split; simpl; [apply N.le_refl|]. exists [e]. auto.
Qed.

(** ** The list objects *)

Lemma append_at_length (r : nat) (x : string) (ls : list (list string)) :
  List.length (append_at r x ls) = List.length ls.
Proof.
  revert r. induction ls as [|l ls IH]; intros [|r]; simpl; auto.
Qed.

Lemma append_at_nth_same (r : nat) (x : string) (ls : list (list string)) :
  (r < List.length ls)%nat ->
  nth r (append_at r x ls) [] = nth r ls [] ++ [x].
Proof.
  revert r. induction ls as [|l ls IH]; intros [|r] H; simpl in *;
    try lia; auto. apply IH. lia.
Qed.

Lemma wp_list_append (r : nat) (x : string) (w : World)
    (Q : unit -> World -> Prop) :
  (r < List.length (lists w))%nat ->
  (forall w', frame w w' [] ->
              List.length (lists w') = List.length (lists w) ->
              nth r (lists w') [] = nth r (lists w) [] ++ [x] -> Q tt w') ->
  wp (list_append r x) w Q.
Proof.
  intros Hr HQ. eapply wp_ok; [reflexivity|]. apply HQ; simpl.
  - repeat split; simpl; [apply N.le_refl|]. exists []. now rewrite app_nil_r.
  - apply append_at_length.
  - now apply append_at_nth_same.
Qed.

(** ** The phases of a session *)

Section Session.

Variable cfg : Config.
Variable env : Env.

Lemma quietly_bind {A B} (m : M A) (k : A -> M B) (w : World) :
  quietly m w ->
  (forall a w1, m w = Ok a w1 -> (clock w <= clock w1)%N -> quietly (k a) w1) ->
  quietly (bind m k) w.
Proof.
  intros (a & w1 & evs1 & E1 & T1 & F1 & A1 & L1 & C1) Hk.
  destruct (Hk a w1 E1 C1) as (b & w2 & evs2 & E2 & T2 & F2 & A2 & L2 & C2).
  exists b, w2, (evs1 ++ evs2). rewrite (bind_ok _ _ _ _ _ E1).
  repeat split; try congruence.
  - rewrite T2, T1. symmetry. apply app_assoc.
  - rewrite file_ops_app, F1, F2. reflexivity.
  - eapply N.le_trans; eassumption.
Qed.

(** The preview window always closes: the fuel is never used up. *)
Lemma gpu_effect_loop_quiet (fuel : nat) (tic : N) (w : World) :
  (tic <= clock w)%N ->
  (2000 <= (clock w - tic) + 100 * N.of_nat fuel)%N ->
  quietly (gpu_effect_loop cfg env (S fuel) tic) w.
Proof.
  revert w. induction fuel as [|f IH]; intros w Htic Hfuel;
    cbn [gpu_effect_loop];
    (apply quietly_bind; [apply Quiet_perf_counter|]);
    intros t w0 E0 _; unfold perf_counter in E0; injection E0 as <- <-;
    destruct (clock w - tic <? 2000)%N eqn:Hlt;
    try apply Quiet_ret.
  - apply N.ltb_lt in Hlt. lia.
  - apply N.ltb_lt in Hlt.
    apply quietly_bind; [apply Quiet_debounced_press|].
    intros pressed w1 E1 C1. destruct pressed.
    + now apply Quiet_emit.
    + apply quietly_bind; [apply Quiet_sleep|].
      intros [] w2 E2 _. unfold sleep in E2.
      destruct (Ok_inj _ _ _ _ E2) as [_ <-].
      apply IH; cbn [clock]; lia.
Qed.

Lemma gpu_effect_window_returns (w : World) :
  quietly (gpu_effect_loop cfg env gpu_effect_window_fuel (clock w)) w.
Proof.
  unfold gpu_effect_window_fuel. apply gpu_effect_loop_quiet; lia.
Qed.

Lemma wp_taking_photo (photo_number : Z) (prefix : string) (w : World)
    (Q : string -> World -> Prop) :
  (forall w', frame w w' [ECapture (photo_filename cfg prefix photo_number)] ->
              lists w' = lists w ->
              Q (photo_filename cfg prefix photo_number) w') ->
  wp (taking_photo cfg env photo_number prefix) w Q.
Proof.
  intros HQ. unfold taking_photo.
  apply wp_bind, wp_quiet;
    [apply Quiet_for_each, Quiet_countdown_step | intros _ w1 F1 L1].
  apply wp_bind, wp_quiet; [apply Quiet_sleep | intros _ w2 F2 L2].
  apply wp_bind, wp_emit; intros w3 F3 L3.
  apply wp_bind, wp_emit; intros w4 F4 L4.
  apply wp_bind, wp_quiet; [apply Quiet_print | intros _ w5 F5 L5].
  eapply wp_ok; [reflexivity|]. apply HQ; [|congruence].
  eapply frame_quiet_r; [|exact F5].
  eapply frame_quiet_l; [exact F1|].
  eapply frame_quiet_l; [exact F2|].
  eapply frame_quiet_l; [exact F3|]. exact F4.
Qed.

Lemma wp_capture_step (prefix : string) (r : nat) (n : Z) (w : World)
    (Q : unit -> World -> Prop) :
  (r < List.length (lists w))%nat ->
  (forall w', frame w w' [ECapture (photo_filename cfg prefix n)] ->
              List.length (lists w') = List.length (lists w) ->
              nth r (lists w') [] = nth r (lists w) [] ++ [photo_filename cfg prefix n] ->
              Q tt w') ->
  wp (capture_step cfg env prefix r n) w Q.
Proof.
  intros Hr HQ. unfold capture_step.
  apply wp_bind, wp_quiet; [apply Quiet_prep_for_photo_screen | intros ol w1 F1 L1].
  apply wp_bind, wp_quiet; [apply Quiet_sleep | intros _ w2 F2 L2].
  apply wp_bind, wp_quiet; [apply Quiet_remove_overlay | intros _ w3 F3 L3].
  apply wp_bind, wp_taking_photo; intros w4 F4 L4.
  apply wp_list_append; [congruence|]. intros w5 F5 Len5 Nth5.
  apply HQ.
  - eapply frame_quiet_r; [|exact F5].
    eapply frame_quiet_l; [exact F1|].
    eapply frame_quiet_l; [exact F2|].
    eapply frame_quiet_l; [exact F3|]. exact F4.
  - congruence.
  - rewrite Nth5. congruence.
Qed.

Lemma wp_capture_loop (prefix : string) (r : nat) (ns : list Z) (w : World)
    (Q : unit -> World -> Prop) :
  (r < List.length (lists w))%nat ->
  (forall w', frame w w' (map (fun n => ECapture (photo_filename cfg prefix n)) ns) ->
              List.length (lists w') = List.length (lists w) ->
              nth r (lists w') [] =
                nth r (lists w) [] ++ map (photo_filename cfg prefix) ns ->
              Q tt w') ->
  wp (for_each ns (capture_step cfg env prefix r)) w Q.
Proof.
  revert w Q. induction ns as [|n ns IH]; intros w Q Hr HQ; simpl.
  - eapply wp_ok; [reflexivity|]. apply HQ; auto using frame_refl.
    now rewrite app_nil_r.
  - apply wp_bind, wp_capture_step; [exact Hr|]. intros w1 F1 Len1 Nth1.
    apply IH; [congruence|]. intros w2 F2 Len2 Nth2.
    apply HQ.
    + apply (frame_trans _ _ _ _ _ F1 F2).
    + congruence.
    + rewrite Nth2, Nth1, <- app_assoc. reflexivity.
Qed.

Lemma Quiet_playback_loop (montage : string) (filenames : list string)
    (prev_overlay : Z) :
  Quiet (playback_loop cfg env montage filenames prev_overlay).
Proof.
  revert prev_overlay. induction filenames as [|f fs IH]; intros prev; simpl.
  - apply Quiet_ret.
  - apply Quiet_bind; [apply Quiet_overlay_image|]. intros this.
    apply Quiet_bind;
      [apply Quiet_if; [apply Quiet_remove_overlay | apply Quiet_ret]|].
    intros _. apply Quiet_bind; [apply Quiet_if; apply Quiet_sleep|].
    intros _. apply IH.
Qed.

Lemma wp_playback_screen (prefix : string) (r : nat) (w : World)
    (Q : Z -> World -> Prop) :
  (r < List.length (lists w))%nat ->
  (forall h w',
      frame w w' [EMontage (prefix ++ "*")%string
                           (inject_Z (PHOTO_W cfg) / 2)%Q
                           (inject_Z (PHOTO_H cfg) / 2)%Q
                           (montage_filename prefix)] ->
      List.length (lists w') = List.length (lists w) ->
      nth r (lists w') [] = nth r (lists w) [] ++ [montage_filename prefix] ->
      Q h w') ->
  wp (playback_screen cfg env prefix r) w Q.
Proof.
  intros Hr HQ. unfold playback_screen.
  apply wp_bind, wp_quiet; [apply Quiet_print | intros _ w1 F1 L1].
  apply wp_bind, wp_quiet; [apply Quiet_overlay_image | intros h0 w2 F2 L2].
  apply wp_bind, wp_emit; intros w3 F3 L3.
  apply wp_bind, wp_list_append; [congruence | intros w4 F4 Len4 Nth4].
  apply wp_bind. eapply wp_ok; [reflexivity|].
  apply wp_bind, wp_quiet; [apply Quiet_playback_loop | intros h1 w5 F5 L5].
  apply wp_bind, wp_quiet; [apply Quiet_print | intros _ w6 F6 L6].
  apply wp_bind, wp_quiet; [apply Quiet_overlay_image | intros h2 w7 F7 L7].
  apply wp_bind, wp_quiet; [apply Quiet_remove_overlay | intros _ w8 F8 L8].
  eapply wp_ok; [reflexivity|]. apply HQ.
  - eapply frame_quiet_l; [exact F1|].
    eapply frame_quiet_l; [exact F2|].
    eapply frame_quiet_r; [|exact F8].
    eapply frame_quiet_r; [|exact F7].
    eapply frame_quiet_r; [|exact F6].
    eapply frame_quiet_r; [|exact F5].
    eapply frame_quiet_r; [|exact F4]. exact F3.
  - congruence.
  - rewrite L8, L7, L6, L5, Nth4. congruence.
Qed.

Lemma Quiet_get_base_filename : Quiet (get_base_filename_for_images cfg env).
Proof.
  unfold get_base_filename_for_images.
  apply Quiet_bind; [apply Quiet_perf_counter|]. intros t. apply Quiet_ret.
Qed.

Lemma wp_remove_event_detect (pin : Z) (w : World) (Q : unit -> World -> Prop) :
  (forall w', armed w' pin = false ->
              (forall p, armed w p = false -> armed w' p = false) ->
              trace w' = trace w -> lists w' = lists w -> Q tt w') ->
  wp (GPIO_remove_event_detect pin) w Q.
Proof.
  intros HQ. eapply wp_ok; [reflexivity|]. apply HQ; cbn; auto.
  - now rewrite Z.eqb_refl.
  - intros p Hp. rewrite Hp. now destruct (p =? pin).
Qed.

Lemma wp_new_list (w : World) (Q : nat -> World -> Prop) :
  (forall w', frame w w' [] ->
              List.length (lists w') = S (List.length (lists w)) ->
              nth (List.length (lists w)) (lists w') [] = [] ->
              Q (List.length (lists w)) w') ->
  wp new_list w Q.
Proof.
  intros HQ. eapply wp_ok; [reflexivity|]. apply HQ; cbn.
  - repeat split; cbn; [apply N.le_refl|]. exists []. now rewrite app_nil_r.
  - rewrite length_app. simpl. lia.
  - rewrite app_nth2, Nat.sub_diag; auto.
Qed.

(** From the confirmed press to the end of the playback: the phase always
    returns, leaves both pins disarmed, creates the photo files and then
    the montage, and leaves all of them in the list object. *)
Lemma wp_capture_phase (l : Locals) (w : World)
    (Q : string * nat * Z -> World -> Prop) :
  (forall prefix r h w',
      armed w' (CAMERA_BUTTON_PIN cfg) = false ->
      armed w' (EXIT_BUTTON_PIN cfg) = false ->
      (exists evs, trace w' = trace w ++ evs /\
         file_ops evs =
           map (fun n => ECapture (photo_filename cfg prefix n))
               (py_range 1 (TOTAL_PICS cfg + 1))
           ++ [EMontage (prefix ++ "*")%string
                        (inject_Z (PHOTO_W cfg) / 2)%Q
                        (inject_Z (PHOTO_H cfg) / 2)%Q
                        (montage_filename prefix)]) ->
      nth r (lists w') [] =
        map (photo_filename cfg prefix) (py_range 1 (TOTAL_PICS cfg + 1))
        ++ [montage_filename prefix] ->
      Q (prefix, r, h) w') ->
  wp (capture_phase cfg env l) w Q.
Proof.
  intros HQ. unfold capture_phase.
  apply wp_bind, wp_quiet; [apply Quiet_print | intros _ w1 F1 L1].
  apply wp_bind, wp_quiet; [apply Quiet_remove_overlay | intros _ w2 F2 L2].
  apply wp_bind, wp_quiet; [apply Quiet_remove_overlay | intros _ w3 F3 L3].
  apply wp_bind, wp_emit; intros w4 F4 L4.
  apply wp_bind.
  assert (G : wp (if PROPOSE_GPU_EFFECTS cfg
                  then tic <- perf_counter ;;
                       gpu_effect_loop cfg env gpu_effect_window_fuel tic
                  else ret tt) w4
                 (fun _ w5 => frame w4 w5 [] /\ lists w5 = lists w4)).
  { apply quietly_frame. destruct (PROPOSE_GPU_EFFECTS cfg); [|apply Quiet_ret].
    apply quietly_bind; [apply Quiet_perf_counter|].
    intros t w0 E0 _. unfold perf_counter in E0.
    destruct (Ok_inj _ _ _ _ E0) as [<- <-]. apply gpu_effect_window_returns. }
  eapply wp_conseq; [exact G|]. clear G. intros _ w5 [F5 L5].
  pose proof (frame_quiet_l _ _ _ _ F1
    (frame_quiet_l _ _ _ _ F2 (frame_quiet_l _ _ _ _ F3
      (frame_quiet_l _ _ _ _ F4 F5)))) as (_ & _ & evs5 & T5 & Fo5).
  apply wp_bind, wp_remove_event_detect; intros w6 Ac6 Ak6 T6 L6.
  apply wp_bind, wp_remove_event_detect; intros w7 Ae7 Ak7 T7 L7.
  apply wp_bind, wp_quiet; [apply Quiet_get_base_filename | intros prefix w8 F8 L8].
  apply wp_bind, wp_new_list; intros w9 F9 Len9 Nth9.
  apply wp_bind, wp_capture_loop; [lia | intros w10 F10 Len10 Nth10].
  apply wp_bind, wp_playback_screen; [lia | intros h w11 F11 Len11 Nth11].
  eapply wp_ok; [reflexivity|].
  pose proof (frame_quiet_l _ _ _ _ F8 (frame_quiet_l _ _ _ _ F9
                (frame_trans _ _ _ _ _ F10 F11))) as (A11 & _ & evs & T11 & Fo11).
  apply HQ.
  - rewrite A11. auto.
  - rewrite A11. auto.
  - exists (evs5 ++ evs). split.
    + rewrite T11, T7, T6, T5. symmetry. apply app_assoc.
    + rewrite file_ops_app, Fo5, Fo11. reflexivity.
  - rewrite Nth11, Nth10, Nth9. reflexivity.
Qed.

End Session.

(** ** Archiving *)

Section Archive.

Variable cfg : Config.
Variable env : Env.

Lemma for_each_app {A} (l1 l2 : list A) (body : A -> M unit) (w : World) :
  for_each (l1 ++ l2) body w = (for_each l1 body ;;; for_each l2 body) w.
Proof.
  revert w. induction l1 as [|x l1 IH]; intros w; simpl.
  - reflexivity.
  - unfold bind in *. destruct (body x w) as [[] w1|e w1|]; auto.
Qed.

Lemma copy_pair_ok (p : string * string) (w : World) :
  copy_fails env (fst p) (snd p) = false ->
  exists w', copy_pair env p w = Ok tt w' /\
             frame w w' [copy_event p] /\ lists w' = lists w.
Proof.
  intros Hf. unfold copy_pair, copy2, bind, print, emit. rewrite Hf.
  eexists. split; [reflexivity|]. split; [|reflexivity].
  repeat split; cbn; [apply N.le_refl|].
  eexists [_; _]. rewrite <- app_assoc. split; reflexivity.
Qed.

Lemma copy_pair_raises (p : string * string) (w : World) :
  copy_fails env (fst p) (snd p) = true ->
  exists w', copy_pair env p w = Raised (CopyError (fst p) (snd p)) w' /\
             frame w w' [copy_event p] /\ lists w' = lists w.
Proof.
  intros Hf. unfold copy_pair, copy2, bind, print, emit. rewrite Hf.
  eexists. split; [reflexivity|]. split; [|reflexivity].
  repeat split; cbn; [apply N.le_refl|].
  eexists [_; _]. rewrite <- app_assoc. split; reflexivity.
Qed.

(** All copies succeed: every pair is attempted, in order. *)
Lemma copy_all_ok (pairs : list (string * string)) (w : World) :
  (forall p, In p pairs -> copy_fails env (fst p) (snd p) = false) ->
  exists w', for_each pairs (copy_pair env) w = Ok tt w' /\
             frame w w' (map copy_event pairs) /\ lists w' = lists w.
Proof.
  revert w. induction pairs as [|p ps IH]; intros w Hok; simpl.
  - exists w. split; [reflexivity|]. split; [apply frame_refl | reflexivity].
  - destruct (copy_pair_ok p w) as (w1 & E1 & F1 & L1); [apply Hok; simpl; auto|].
    destruct (IH w1) as (w2 & E2 & F2 & L2); [intros q Hq; apply Hok; simpl; auto|].
    exists w2. rewrite (bind_ok _ _ _ _ _ E1).
    split; [exact E2|]. split; [|congruence].
    apply (frame_trans _ _ _ [copy_event p] _ F1 F2).
Qed.

(** The first copy that fails ends the loop: the pairs after it are not
    attempted. *)
Lemma copy_until_failure (pre post : list (string * string))
    (p : string * string) (w : World) :
  (forall q, In q pre -> copy_fails env (fst q) (snd q) = false) ->
  copy_fails env (fst p) (snd p) = true ->
  exists w', for_each (pre ++ p :: post) (copy_pair env) w
               = Raised (CopyError (fst p) (snd p)) w' /\
             frame w w' (map copy_event (pre ++ [p])).
Proof.
  intros Hpre Hp.
  destruct (copy_all_ok pre w Hpre) as (w1 & E1 & F1 & L1).
  destruct (copy_pair_raises p w1 Hp) as (w2 & E2 & F2 & L2).
  exists w2. rewrite for_each_app, (bind_ok _ _ _ _ _ E1). simpl.
  rewrite (bind_raised _ _ _ _ _ E2). split; [reflexivity|].
  rewrite map_app. apply (frame_trans _ _ _ _ _ F1 F2).
Qed.

Lemma bind_congr {A B} (m m' : M A) (k k' : A -> M B) (w : World) :
  m w = m' w ->
  (forall a w1, m w = Ok a w1 -> k a w1 = k' a w1) ->
  bind m k w = bind m' k' w.
Proof.
  intros Em Ek. unfold bind. rewrite <- Em.
  destruct (m w) as [a w1|e w1|]; auto.
Qed.

Lemma copy_loop_lists (pairs : list (string * string)) (w w1 : World) :
  for_each pairs (copy_pair env) w = Ok tt w1 -> lists w1 = lists w.
Proof.
  revert w. induction pairs as [|p ps IH]; intros w E; simpl in E.
  - unfold ret in E. now destruct (Ok_inj _ _ _ _ E) as [_ <-].
  - unfold bind in E. destruct (copy_fails env (fst p) (snd p)) eqn:Hf.
    + destruct (copy_pair_raises p w Hf) as (w2 & E2 & _).
      rewrite E2 in E. discriminate.
    + destruct (copy_pair_ok p w Hf) as (w2 & E2 & _ & L2).
      rewrite E2 in E. rewrite <- L2. now apply IH.
Qed.

Lemma copy_loop_inner (dest : string) (l : list string) (w : World) :
  for_each l (fun src => copy_pair env (src, dest)) w =
  for_each (map (fun src => (src, dest)) l) (copy_pair env) w.
Proof.
  revert w. induction l as [|x l IH]; intros w; simpl; [reflexivity|].
  apply bind_congr; auto.
Qed.

(** The nested loops of lines 401-404 visit [archive_pairs] in order. *)
Lemma archive_flat (r : nat) (w : World) :
  archive cfg env r w =
  for_each (archive_pairs (COPY_IMAGES_TO cfg) (nth r (lists w) []))
           (copy_pair env) w.
Proof.
  unfold archive, archive_pairs. revert w.
  induction (COPY_IMAGES_TO cfg) as [|dest dests IH]; intros w; simpl.
  - reflexivity.
  - rewrite for_each_app.
    assert (E : (srcs <- list_read r ;;
                 for_each srcs (fun src => copy_pair env (src, dest))) w =
                for_each (map (fun src => (src, dest)) (nth r (lists w) []))
                         (copy_pair env) w).
    { rewrite <- copy_loop_inner. reflexivity. }
    apply bind_congr; [exact E|].
    intros [] w1 E1. rewrite E in E1. apply copy_loop_lists in E1.
    rewrite IH, E1. reflexivity.
Qed.

End Archive.

(** ** Buttons and overlays *)

Section Buttons.

Variable cfg : Config.
Variable env : Env.

(** What one poll of a pin does, by cases on the latch. *)
Lemma debounced_press_cases (pin : Z) (w : World) :
  (armed w pin && latch w pin = true /\
   exists w', debounced_press cfg env pin w
                = Ok (negb (level env pin (clock w + DEBOUNCE_TIME cfg))) w' /\
              clock w' = (clock w + DEBOUNCE_TIME cfg)%N /\
              trace w' = trace w ++ [ESleep (DEBOUNCE_TIME cfg)]) \/
  (armed w pin && latch w pin = false /\
   exists w', debounced_press cfg env pin w = Ok false w' /\
              clock w' = clock w /\ trace w' = trace w).
Proof.
  unfold debounced_press, bind, GPIO_event_detected.
  destruct (armed w pin && latch w pin); [left | right];
    (split; [reflexivity|]); eexists;
    unfold sleep, GPIO_input, ret; cbn [clock trace].
  - destruct (level env pin (clock w + DEBOUNCE_TIME cfg));
      (split; [reflexivity|]); split; reflexivity.
  - split; [reflexivity|]. split; reflexivity.
Qed.

Lemma debounced_press_true (pin : Z) (w w1 : World) :
  debounced_press cfg env pin w = Ok true w1 ->
  trace w1 = trace w ++ [ESleep (DEBOUNCE_TIME cfg)].
Proof.
  intros E.
  destruct (debounced_press_cases pin w)
    as [(_ & w' & E' & _ & T) | (_ & w' & E' & _)];
    rewrite E' in E.
  - now destruct (Ok_inj _ _ _ _ E) as [_ <-].
  - now destruct (Ok_inj _ _ _ _ E) as [? _].
Qed.

(** An exit press ends the loop whatever the capture button did. *)
Lemma exit_press_returns (l : Locals) (w w1 w2 : World) (photo : bool) :
  debounced_press cfg env (CAMERA_BUTTON_PIN cfg) w = Ok photo w1 ->
  debounced_press cfg env (EXIT_BUTTON_PIN cfg) w1 = Ok true w2 ->
  loop_body cfg env l w = Ok (CReturn, l) w2.
Proof.
  intros E1 E2. unfold loop_body.
  rewrite (bind_ok _ _ _ _ _ E1), (bind_ok _ _ _ _ _ E2). reflexivity.
Qed.

(** C2: in a tick of the waiting loop in which the capture button and the
    exit button are both found pressed, the iteration ends on the [return]
    of line 340 and the loop returns with it, in this very iteration,
    however many more it could have run; everything the loop has done by
    then is the two debounce sleeps, so no overlay is removed, no effect
    is set and no photo is taken. *)
Theorem exit_wins_over_capture (fuel : nat) (l : Locals) (w w1 w2 : World) :
  debounced_press cfg env (CAMERA_BUTTON_PIN cfg) w = Ok true w1 ->
  debounced_press cfg env (EXIT_BUTTON_PIN cfg) w1 = Ok true w2 ->
  loop_body cfg env l w = Ok (CReturn, l) w2 /\
  main_loop cfg env (S fuel) l w = Ok tt w2 /\
  trace w2 = trace w ++ [ESleep (DEBOUNCE_TIME cfg); ESleep (DEBOUNCE_TIME cfg)].
Proof.
  intros E1 E2.
  pose proof (exit_press_returns l w w1 w2 true E1 E2) as EL.
  split; [exact EL|]. split.
  - cbn [main_loop]. rewrite (bind_ok _ _ _ _ _ EL). reflexivity.
  - rewrite (debounced_press_true _ _ _ E2), (debounced_press_true _ _ _ E1).
    rewrite <- app_assoc. reflexivity.
Qed.

(** C5: a poll that finds the edge latch of a pin set sleeps for the
    debounce interval, then samples the pin, and reports a press exactly
    when the level sampled is low; so whenever the level is back to high
    when the debounce interval has elapsed, the poll reports no press. *)
Theorem debounce_rejects_released (pin : Z) (w : World) :
  (armed w pin = true -> latch w pin = true ->
   exists w', debounced_press cfg env pin w
                = Ok (negb (level env pin (clock w + DEBOUNCE_TIME cfg))) w' /\
              clock w' = (clock w + DEBOUNCE_TIME cfg)%N /\
              trace w' = trace w ++ [ESleep (DEBOUNCE_TIME cfg)]) /\
  (level env pin (clock w + DEBOUNCE_TIME cfg)%N = true ->
   exists w', debounced_press cfg env pin w = Ok false w').
Proof.
  destruct (debounced_press_cases pin w)
    as [(L & w' & E & C & T) | (L & w' & E & C & T)]; split.
  - intros _ _. exists w'. auto.
  - intros Hhigh. exists w'. rewrite E, Hhigh. reflexivity.
  - intros Ha Hl. rewrite Ha, Hl in L. discriminate.
  - intros _. exists w'. exact E.
Qed.

(** C6: an image of size (W, H) no wider than the screen is handed to the
    compositor in a buffer of size (ceil(W/32)*32, ceil(H/16)*16), the
    ceilings being those of the exact quotients, and with (W, H) as the
    visible size. *)
Theorem overlay_padding (path mode : string) (layer W H : Z) (w : World) :
  image_size env path = (W, H) ->
  W <= SCREEN_W cfg ->
  exists h w',
    overlay_image cfg env path layer mode w = Ok h w' /\
    trace w' = trace w ++
      [EAddOverlay path mode
         (Qceiling (W # 32) * 32, Qceiling (H # 16) * 16) (W, H) layer h].
Proof.
  intros Hsize Hfit.
  unfold overlay_image, CAMERA_add_overlay, fitted_size. rewrite Hsize.
  cbn [fst snd].
  replace (W >? SCREEN_W cfg) with false
    by (symmetry; rewrite Z.gtb_ltb; apply Z.ltb_ge; lia).
  eexists _, _. split; [reflexivity|]. cbn [trace].
  unfold padded_size. cbn [fst snd]. rewrite !ceiling_as_floor. reflexivity.
Qed.

End Buttons.

Lemma exit_wins_over_capture_witness :
  exists w2,
    loop_body (sample_cfg 2 false false []) (sample_env held lowest_handle never_fails)
              (mkLocals 0 1 2) both_latched
      = Ok (CReturn, mkLocals 0 1 2) w2 /\
    main_loop (sample_cfg 2 false false [])
              (sample_env held lowest_handle never_fails) 5
              (mkLocals 0 1 2) both_latched
      = Ok tt w2 /\
    trace w2 = trace both_latched ++ [ESleep 50; ESleep 50].
Proof.
  eexists.
  eapply (exit_wins_over_capture (sample_cfg 2 false false [])
            (sample_env held lowest_handle never_fails) 4); reflexivity.
Defined.

Lemma debounce_rejects_released_witness :
  (exists w', debounced_press (sample_cfg 2 false false [])
                (sample_env glitch lowest_handle never_fails) 21 both_latched
                = Ok false w' /\
              clock w' = 50%N /\ trace w' = [ESleep 50]) /\
  (exists w', debounced_press (sample_cfg 2 false false [])
                (sample_env glitch lowest_handle never_fails) 21 both_latched
                = Ok false w').
Proof.
  destruct (debounce_rejects_released (sample_cfg 2 false false [])
              (sample_env glitch lowest_handle never_fails) 21 both_latched)
    as [H1 H2].
  split.
  - exact (H1 eq_refl eq_refl).
  - exact (H2 eq_refl).
Defined.

Lemma overlay_padding_witness :
  exists h w',
    overlay_image (sample_cfg 2 false false [])
                  (sample_env released lowest_handle never_fails)
                  "/home/pi/booth/assets/intro_1.png" 3 "RGB" fresh_world
      = Ok h w' /\
    trace w' = [EAddOverlay "/home/pi/booth/assets/intro_1.png" "RGB"
                  (512, 304) (500, 300) 3 h].
Proof.
  apply (overlay_padding (sample_cfg 2 false false [])
           (sample_env released lowest_handle never_fails)
           "/home/pi/booth/assets/intro_1.png" "RGB" 3 500 300 fresh_world).
  - reflexivity.
  - cbn. lia.
Defined.

(** ** A whole session *)

Lemma produced_file_ops (evs : list Event) : produced (file_ops evs) = produced evs.
Proof.
  unfold produced, file_ops. induction evs as [|e evs IH]; simpl; auto.
  destruct e; simpl; rewrite ?IH; reflexivity.
Qed.

Lemma copy_calls_file_ops (evs : list Event) :
  copy_calls (file_ops evs) = copy_calls evs.
Proof.
  unfold copy_calls, file_ops. induction evs as [|e evs IH]; simpl; auto.
  destruct e; simpl; rewrite ?IH; reflexivity.
Qed.

Lemma produced_app (a b : list Event) : produced (a ++ b) = produced a ++ produced b.
Proof. apply filter_app. Qed.

Lemma produced_captures {A} (f : A -> string) (l : list A) :
  produced (map (fun x => ECapture (f x)) l) = map (fun x => ECapture (f x)) l.
Proof.
  unfold produced. induction l as [|x l IH]; simpl; [reflexivity|].
  now rewrite IH.
Qed.

Lemma produced_copies (ps : list (string * string)) :
  produced (map copy_event ps) = [].
Proof. induction ps as [|p ps IH]; simpl; auto. Qed.

Lemma copy_calls_captures {A} (f : A -> string) (l : list A) :
  copy_calls (map (fun x => ECapture (f x)) l) = [].
Proof. induction l as [|x l IH]; simpl; auto. Qed.

Lemma copy_calls_copies (ps : list (string * string)) :
  copy_calls (map copy_event ps) = ps.
Proof.
  unfold copy_calls. induction ps as [|[s d] ps IH]; simpl; [reflexivity|].
  now rewrite IH.
Qed.

Lemma first_failure {A} (fails : A -> bool) (l : list A) :
  (forall p, In p l -> fails p = false) \/
  (exists pre p post, l = pre ++ p :: post /\
                      (forall q, In q pre -> fails q = false) /\
                      fails p = true).
Proof.
  induction l as [|x l IH].
  - left. intros p [].
  - destruct (fails x) eqn:Hx.
    + right. exists [], x, l. repeat split; auto. intros q [].
    + destruct IH as [Hall | (pre & p & post & -> & Hpre & Hp)].
      * left. intros p [<- | Hin]; auto.
      * right. exists (x :: pre), p, post. repeat split; auto.
        intros q [<- | Hin]; auto.
Qed.

Section Sessions.

Variable cfg : Config.
Variable env : Env.

(** Re-arming the waiting screen creates no file, whether or not the GPIO
    driver accepts the two arming calls. *)
Lemma rearm_stops (l : Locals) (ol_done : Z) (w : World) :
  stops (x <- rearm cfg env l ol_done ;; ret (CContinue, x)) w [].
Proof.
  unfold rearm.
  destruct (Quiet_overlay_image cfg env (intro_image_1 env) 3 "RGB" w)
    as (o1 & w1 & e1 & E1 & T1 & F1 & _).
  destruct (Quiet_overlay_image cfg env (intro_image_2 env) 4 "RGB" w1)
    as (o2 & w2 & e2 & E2 & T2 & F2 & _).
  destruct (Quiet_remove_overlay ol_done w2) as ([] & w3 & e3 & E3 & T3 & F3 & _).
  assert (T : trace w3 = trace w ++ (e1 ++ e2 ++ e3))
    by (rewrite T3, T2, T1, <- !app_assoc; reflexivity).
  assert (F : file_ops (e1 ++ e2 ++ e3) = [])
    by (rewrite !file_ops_app, F1, F2, F3; reflexivity).
  unfold stops, bind. rewrite E1, E2, E3. unfold GPIO_add_event_detect.
  destruct (armed w3 (CAMERA_BUTTON_PIN cfg)).
  { exists w3, (e1 ++ e2 ++ e3). auto. }
  cbn [armed].
  destruct (if EXIT_BUTTON_PIN cfg =? CAMERA_BUTTON_PIN cfg then true
            else armed w3 (EXIT_BUTTON_PIN cfg)).
  - eexists _, (e1 ++ e2 ++ e3). split; [reflexivity|]. auto.
  - eexists _, ((e1 ++ e2 ++ e3) ++ [_]). split; [reflexivity|]. cbn [trace].
    rewrite T, file_ops_app, F, <- app_assoc. split; reflexivity.
Qed.

(** The file operations of a session: the captures, then the montage, then
    the archive copies, as far as they get. *)
Lemma session_file_ops (l : Locals) (w : World) :
  exists prefix copies,
    let names := map (photo_filename cfg prefix) (py_range 1 (TOTAL_PICS cfg + 1)) in
    let pairs := archive_pairs (COPY_IMAGES_TO cfg)
                               (names ++ [montage_filename prefix]) in
    stops (session cfg env l) w
          (map (fun n => ECapture (photo_filename cfg prefix n))
               (py_range 1 (TOTAL_PICS cfg + 1))
           ++ [EMontage (prefix ++ "*")%string
                        (inject_Z (PHOTO_W cfg) / 2)%Q
                        (inject_Z (PHOTO_H cfg) / 2)%Q
                        (montage_filename prefix)]
           ++ map copy_event copies) /\
    (exists rest, pairs = copies ++ rest) /\
    ((forall p, In p pairs -> copy_fails env (fst p) (snd p) = false) ->
     copies = pairs).
Proof.
  destruct (wp_capture_phase cfg env l w
              (fun r w' =>
                 exists prefix ref h, r = (prefix, ref, h) /\
                   (exists evs, trace w' = trace w ++ evs /\
                      file_ops evs =
                        map (fun n => ECapture (photo_filename cfg prefix n))
                            (py_range 1 (TOTAL_PICS cfg + 1))
                        ++ [EMontage (prefix ++ "*")%string
                                     (inject_Z (PHOTO_W cfg) / 2)%Q
                                     (inject_Z (PHOTO_H cfg) / 2)%Q
                                     (montage_filename prefix)]) /\
                   nth ref (lists w') [] =
                     map (photo_filename cfg prefix)
                         (py_range 1 (TOTAL_PICS cfg + 1))
                     ++ [montage_filename prefix]))
    as (r & w1 & E1 & prefix & ref & h & -> & (evs1 & T1 & F1) & N1).
  { intros prefix ref h w' _ _ Hev Hn. exists prefix, ref, h. auto. }
  destruct (Quiet_sleep env 2000 w1) as ([] & w2 & e2 & E2 & T2 & F2 & _ & L2 & _).
  set (names := map (photo_filename cfg prefix) (py_range 1 (TOTAL_PICS cfg + 1))) in *.
  set (pairs := archive_pairs (COPY_IMAGES_TO cfg) (names ++ [montage_filename prefix])).
  assert (Hflat : archive cfg env ref w2 = for_each pairs (copy_pair env) w2).
  { rewrite archive_flat, L2, N1. reflexivity. }
  assert (T12 : trace w2 = trace w ++ (evs1 ++ e2))
    by (rewrite T2, T1, <- app_assoc; reflexivity).
  assert (F12 : file_ops (evs1 ++ e2) = file_ops evs1)
    by (rewrite file_ops_app, F2, app_nil_r; reflexivity).
  unfold session. unfold stops.
  rewrite (bind_ok _ _ _ _ _ E1). cbv beta iota.
  rewrite (bind_ok _ _ _ _ _ E2).
  destruct (first_failure (fun p => copy_fails env (fst p) (snd p)) pairs)
    as [Hall | (pre & p & post & Hsplit & Hpre & Hp)].
  - destruct (copy_all_ok env pairs w2 Hall) as (w3 & E3 & (_ & _ & e3 & T3 & F3) & _).
    rewrite <- Hflat in E3. rewrite (bind_ok _ _ _ _ _ E3).
    exists prefix, pairs. split; [|split; [exists []; now rewrite app_nil_r | auto]].
    destruct (TESTMODE_AUTOPRESS_BUTTON cfg).
    + exists w3, ((evs1 ++ e2) ++ e3). split; [reflexivity|]. split.
      * rewrite T3, T12, <- !app_assoc. reflexivity.
      * rewrite file_ops_app, F12, F1, F3, <- app_assoc. reflexivity.
    + destruct (rearm_stops l h w3) as (w4 & e4 & E4 & T4 & F4).
      exists w4, (((evs1 ++ e2) ++ e3) ++ e4). split; [exact E4|]. split.
      * rewrite T4, T3, T12, <- !app_assoc. reflexivity.
      * rewrite !file_ops_app, F4, F3, F2, F1, !app_nil_r, <- !app_assoc.
        reflexivity.
  - destruct (copy_until_failure env pre post p w2 Hpre Hp)
      as (w3 & E3 & _ & _ & e3 & T3 & F3).
    rewrite <- Hsplit, <- Hflat in E3. rewrite (bind_raised _ _ _ _ _ E3).
    exists prefix, (pre ++ [p]). split; [|split].
    + exists w3, ((evs1 ++ e2) ++ e3). split; [reflexivity|]. split.
      * rewrite T3, T12, <- !app_assoc. reflexivity.
      * rewrite file_ops_app, F12, F1, F3, <- app_assoc. reflexivity.
    + exists post. change (pairs = (pre ++ [p]) ++ post).
      rewrite Hsplit, <- app_assoc. reflexivity.
    + intros Hall. rewrite (Hall p) in Hp; [discriminate|].
      change (In p pairs). rewrite Hsplit. apply in_or_app. right. simpl. auto.
Qed.

End Sessions.

(** ** File names *)

Lemma basename_acc_snoc (c : ascii) (acc a0 : string) :
  Ascii.eqb c "/"%char = false ->
  basename_acc a0 (acc ++ String c EmptyString) =
  (basename_acc a0 acc ++ String c EmptyString)%string.
Proof.
  intros Hc. revert a0. induction acc as [|x acc IH]; intros a0; simpl.
  - rewrite Hc. reflexivity.
  - destruct (Ascii.eqb x "/"%char); apply IH.
Qed.

Lemma basename_acc_twice (s acc : string) :
  basename_acc EmptyString (basename_acc acc s) =
  basename_acc (basename_acc EmptyString acc) s.
Proof.
  revert acc. induction s as [|c s IH]; intros acc; simpl.
  - reflexivity.
  - destruct (Ascii.eqb c "/"%char) eqn:Hc.
    + rewrite IH. reflexivity.
    + rewrite IH, basename_acc_snoc; auto.
Qed.

Lemma basename_idempotent (s : string) : basename (basename s) = basename s.
Proof. unfold basename. rewrite basename_acc_twice. reflexivity. Qed.

Lemma basename_acc_dir (d t acc : string) :
  basename_acc acc (d ++ "/" ++ t) = basename_acc EmptyString t.
Proof.
  revert acc. induction d as [|c d IH]; intros acc; simpl.
  - reflexivity.
  - destruct (Ascii.eqb c "/"%char); apply IH.
Qed.

(** A copy into a folder keeps the name of the file. *)
Lemma copy2_keeps_name (src dest : string) :
  basename (copy2_target src dest) = basename src.
Proof.
  unfold copy2_target, basename at 1. rewrite basename_acc_dir.
  apply basename_idempotent.
Qed.

Lemma archive_pairs_dest (dests srcs : list string) (s d : string) :
  In (s, d) (archive_pairs dests srcs) -> In d dests /\ In s srcs.
Proof.
  unfold archive_pairs. rewrite in_flat_map. intros (dest & Hd & Hin).
  apply in_map_iff in Hin as (src & E & Hs). injection E as <- <-. auto.
Qed.

(** ** Sessions: files and archive *)

Section SessionClaims.

Variable cfg : Config.
Variable env : Env.

(** C1: with a photo count N of at least 1, a session issues exactly N
    captures, to the files <base>_<i>of<N>.jpg for i = 1..N in this order,
    and then exactly one montage, to <base>.jpg; the N + 1 names share the
    base and are pairwise different. *)
Theorem session_photos_and_montage (l : Locals) (w : World) :
  1 <= TOTAL_PICS cfg ->
  exists base w' evs,
    final_world (session cfg env l w) = Some w' /\
    trace w' = trace w ++ evs /\
    produced evs =
      map (fun i => ECapture (base ++ "_" ++ py_str i ++ "of"
                                ++ py_str (TOTAL_PICS cfg) ++ ".jpg")%string)
          (py_range 1 (TOTAL_PICS cfg + 1))
      ++ [EMontage (base ++ "*")%string
                   (inject_Z (PHOTO_W cfg) / 2)%Q (inject_Z (PHOTO_H cfg) / 2)%Q
                   (base ++ ".jpg")%string] /\
    (forall i, In i (py_range 1 (TOTAL_PICS cfg + 1)) <-> 1 <= i <= TOTAL_PICS cfg) /\
    List.length (py_range 1 (TOTAL_PICS cfg + 1)) = Z.to_nat (TOTAL_PICS cfg) /\
    NoDup (map (fun i => (base ++ "_" ++ py_str i ++ "of"
                            ++ py_str (TOTAL_PICS cfg) ++ ".jpg")%string)
               (py_range 1 (TOTAL_PICS cfg + 1))
           ++ [(base ++ ".jpg")%string]).
Proof.
  intros HN.
  destruct (session_file_ops cfg env l w)
    as (base & copies & (w' & evs & E & T & F) & _ & _).
  exists base, w', evs. split; [exact E|]. split; [exact T|]. split; [|split; [|split]].
  - rewrite <- produced_file_ops, F, !produced_app, produced_copies, app_nil_r.
    rewrite (produced_captures (photo_filename cfg base)). reflexivity.
  - intros i. rewrite py_range_In. lia.
  - rewrite py_range_length. f_equal. lia.
  - apply NoDup_app.
    + apply NoDup_map_inj; [|apply range_from_NoDup].
      intros x y _ _. apply (photo_filename_inj cfg base).
    + constructor; [intros [] | constructor].
    + intros name Hin [<- | []].
      apply in_map_iff in Hin as (i & Hi & _).
      exact (photo_filename_not_montage cfg base i Hi).
Qed.

(** C3, as the script behaves: when no copy fails, the archive loop copies
    into every destination folder every entry of the session's list of
    files, which by then holds the N photo files followed by the montage
    file that the playback appended to it; every copy goes by the folder
    itself, so the file keeps its name. *)
Theorem archive_copies_listed_files (l : Locals) (w : World) :
  (forall s d, copy_fails env s d = false) ->
  exists base w' evs,
    final_world (session cfg env l w) = Some w' /\
    trace w' = trace w ++ evs /\
    copy_calls evs =
      archive_pairs (COPY_IMAGES_TO cfg)
        (map (fun i => (base ++ "_" ++ py_str i ++ "of"
                          ++ py_str (TOTAL_PICS cfg) ++ ".jpg")%string)
             (py_range 1 (TOTAL_PICS cfg + 1))
         ++ [(base ++ ".jpg")%string]) /\
    (forall s d, In (s, d) (copy_calls evs) ->
                 In d (COPY_IMAGES_TO cfg) /\
                 basename (copy2_target s d) = basename s).
Proof.
  intros Hok.
  destruct (session_file_ops cfg env l w)
    as (base & copies & (w' & evs & E & T & F) & _ & Hall).
  rewrite Hall in F by (intros p _; apply Hok).
  assert (C : copy_calls evs =
              archive_pairs (COPY_IMAGES_TO cfg)
                (map (photo_filename cfg base) (py_range 1 (TOTAL_PICS cfg + 1))
                 ++ [montage_filename base])).
  { rewrite <- copy_calls_file_ops, F, !copy_calls_app, copy_calls_copies.
    rewrite (copy_calls_captures (photo_filename cfg base)). reflexivity. }
  exists base, w', evs. split; [exact E|]. split; [exact T|]. split; [exact C|].
  intros s d Hin. rewrite C in Hin. split.
  - exact (proj1 (archive_pairs_dest _ _ _ _ Hin)).
  - apply copy2_keeps_name.
Qed.

(** C4, as the script behaves: the first copy that fails raises out of the
    archive loop; the pairs before it and the failing pair have been
    attempted, the pairs after it are not. *)
Theorem archive_stops_at_first_failure (r : nat) (w : World)
    (pre post : list (string * string)) (p : string * string) :
  archive_pairs (COPY_IMAGES_TO cfg) (nth r (lists w) []) = pre ++ p :: post ->
  (forall q, In q pre -> copy_fails env (fst q) (snd q) = false) ->
  copy_fails env (fst p) (snd p) = true ->
  exists w' evs,
    archive cfg env r w = Raised (CopyError (fst p) (snd p)) w' /\
    trace w' = trace w ++ evs /\
    copy_calls evs = pre ++ [p].
Proof.
  intros Hsplit Hpre Hp.
  destruct (copy_until_failure env pre post p w Hpre Hp)
    as (w' & E & _ & _ & evs & T & F).
  exists w', evs. rewrite archive_flat, Hsplit. split; [exact E|].
  split; [exact T|].
  rewrite <- copy_calls_file_ops, F. apply copy_calls_copies.
Qed.

End SessionClaims.

Lemma session_photos_and_montage_witness :
  exists base w' evs,
    final_world (session booth_cfg booth_env waiting_locals fresh_world) = Some w' /\
    trace w' = trace fresh_world ++ evs /\
    produced evs =
      map (fun i => ECapture (base ++ "_" ++ py_str i ++ "of"
                                ++ py_str (TOTAL_PICS booth_cfg) ++ ".jpg")%string)
          (py_range 1 (TOTAL_PICS booth_cfg + 1))
      ++ [EMontage (base ++ "*")%string
                   (inject_Z (PHOTO_W booth_cfg) / 2)%Q
                   (inject_Z (PHOTO_H booth_cfg) / 2)%Q
                   (base ++ ".jpg")%string] /\
    (forall i, In i (py_range 1 (TOTAL_PICS booth_cfg + 1))
               <-> 1 <= i <= TOTAL_PICS booth_cfg) /\
    List.length (py_range 1 (TOTAL_PICS booth_cfg + 1))
      = Z.to_nat (TOTAL_PICS booth_cfg) /\
    NoDup (map (fun i => (base ++ "_" ++ py_str i ++ "of"
                            ++ py_str (TOTAL_PICS booth_cfg) ++ ".jpg")%string)
               (py_range 1 (TOTAL_PICS booth_cfg + 1))
           ++ [(base ++ ".jpg")%string]).
Proof.
  apply (session_photos_and_montage booth_cfg booth_env waiting_locals fresh_world).
  cbn. lia.
Defined.

Lemma archive_copies_listed_files_witness :
  exists base w' evs,
    final_world (session booth_cfg booth_env waiting_locals fresh_world) = Some w' /\
    trace w' = trace fresh_world ++ evs /\
    copy_calls evs =
      archive_pairs (COPY_IMAGES_TO booth_cfg)
        (map (fun i => (base ++ "_" ++ py_str i ++ "of"
                          ++ py_str (TOTAL_PICS booth_cfg) ++ ".jpg")%string)
             (py_range 1 (TOTAL_PICS booth_cfg + 1))
         ++ [(base ++ ".jpg")%string]) /\
    (forall s d, In (s, d) (copy_calls evs) ->
                 In d (COPY_IMAGES_TO booth_cfg) /\
                 basename (copy2_target s d) = basename s).
Proof.
  apply (archive_copies_listed_files booth_cfg booth_env waiting_locals fresh_world).
  intros s d. reflexivity.
Defined.

(** The claim C3 as stated fails on the sample booth: the montage is among
    the files copied to the archive folder, so the copies are not those of
    the two photo files alone. *)
Lemma montage_is_archived :
  In ("photos/2017-12-31_23-59-59.jpg", "backup")%string
     (copy_calls (run_trace (main booth_cfg booth_env 1 fresh_world))) /\
  copy_calls (run_trace (main booth_cfg booth_env 1 fresh_world)) <>
  archive_pairs (COPY_IMAGES_TO booth_cfg)
    (map (photo_filename booth_cfg "photos/2017-12-31_23-59-59")
         (py_range 1 (TOTAL_PICS booth_cfg + 1))).
Proof.
  split.
  - vm_compute. right. right. left. reflexivity.
  - vm_compute. intros H. discriminate H.
Qed.

Lemma archive_stops_at_first_failure_witness :
  exists w' evs,
    archive (sample_cfg 2 false false ["backup"%string])
            (sample_env released lowest_handle refuses_a) 0 archiving_world
      = Raised (CopyError "a.jpg" "backup") w' /\
    trace w' = trace archiving_world ++ evs /\
    copy_calls evs = [] ++ [("a.jpg", "backup")%string].
Proof.
  apply (archive_stops_at_first_failure (sample_cfg 2 false false ["backup"%string])
           (sample_env released lowest_handle refuses_a) 0 archiving_world
           [] [("b.jpg", "backup")%string] ("a.jpg", "backup")%string).
  - reflexivity.
  - intros q [].
  - reflexivity.
Defined.

(** The claim C4 as stated fails on the booth whose archive folder refuses
    the first photo: the copy of the second photo, which comes after the
    failing one, is never attempted. *)
Lemma failed_copy_ends_archiving :
  copy_fails faulty_env "photos/2017-12-31_23-59-59_1of2.jpg" "backup" = true /\
  In ("photos/2017-12-31_23-59-59_2of2.jpg", "backup")%string
     (archive_pairs (COPY_IMAGES_TO booth_cfg)
        ["photos/2017-12-31_23-59-59_1of2.jpg";
         "photos/2017-12-31_23-59-59_2of2.jpg";
         "photos/2017-12-31_23-59-59.jpg"]%string) /\
  ~ In ("photos/2017-12-31_23-59-59_2of2.jpg", "backup")%string
       (copy_calls (run_trace (main booth_cfg faulty_env 1 fresh_world))).
Proof.
  split; [reflexivity|]. split.
  - vm_compute. right. left. reflexivity.
  - vm_compute. intros [H | []]. discriminate H.
Qed.

(** ** Playback *)

Lemma last_shown_app (cur : option Z) (a b : list Event) :
  last_shown cur (a ++ b) = last_shown (last_shown cur a) b.
Proof.
  revert cur. induction a as [|e a IH]; intros cur; simpl; [reflexivity|].
  destruct e; apply IH.
Qed.





Section Playback.

Variable cfg : Config.
Variable env : Env.


(** On a handle that is not the sentinel, [remove_overlay] calls the
    camera. *)
Lemma remove_overlay_calls (h : Z) (w : World) :
  h <> -1 ->
  exists w', remove_overlay h w = Ok tt w' /\
             trace w' = trace w ++ [ERemoveOverlay h] /\
             active w' = List.remove Z.eq_dec h (active w) /\
             lists w' = lists w.
Proof.
  intros Hh. unfold remove_overlay.
  replace (h =? -1) with false by (symmetry; now apply Z.eqb_neq).
  eexists. split; [reflexivity|]. cbn. auto.
Qed.

Lemma overlay_image_run (path : string) (layer : Z) (mode : string) (w : World) :
  exists h pd sz w',
    overlay_image cfg env path layer mode w = Ok h w' /\
    trace w' = trace w ++ [EAddOverlay path mode pd sz layer h] /\
    lists w' = lists w.
Proof.
  unfold overlay_image, CAMERA_add_overlay. eexists _, _, _, _.
  split; [reflexivity|]. split; reflexivity.
Qed.

Lemma remove_overlay_run (h : Z) (w : World) :
  exists w' rm,
    remove_overlay h w = Ok tt w' /\ trace w' = trace w ++ rm /\
    lists w' = lists w /\ (rm = [] \/ rm = [ERemoveOverlay h]).
Proof.
  unfold remove_overlay. destruct (negb (h =? -1)).
  - eexists _, [_]. split; [reflexivity|]. cbn. auto.
  - exists w, []. rewrite app_nil_r. unfold ret. auto.
Qed.



End Playback.


Lemma counting_handle_well_behaved : well_behaved counting_handle.
Proof.
  assert (B : forall act x, In x act -> x <= fold_right Z.max 0 act).
  { induction act as [|y act IH]; intros x H; simpl in *; [contradiction|].
    destruct H as [<- | H]; [lia|]. specialize (IH x H). lia. }
  assert (P : forall act, 0 <= fold_right Z.max 0 act).
  { induction act as [|y act IH]; simpl; lia. }
  intros act. unfold counting_handle. specialize (P act). repeat split; try lia.
  intros H. apply B in H. lia.
Qed.


(** ** Back to the waiting loop *)

Section Rearming.

Variable cfg : Config.
Variable env : Env.

Lemma debounced_press_unlatched (pin : Z) (w : World) :
  armed w pin && latch w pin = false ->
  exists w', debounced_press cfg env pin w = Ok false w' /\
             armed w' = armed w /\
             (forall p, latch w p = false -> latch w' p = false) /\
             trace w' = trace w.
Proof.
  intros H. unfold debounced_press, bind, GPIO_event_detected. rewrite H.
  eexists. split; [reflexivity|]. cbn. repeat split.
  intros p Hp. rewrite Hp. now destruct (p =? pin).
Qed.

Lemma rearm_run (l : Locals) (ol_done : Z) (w : World) :
  armed w (CAMERA_BUTTON_PIN cfg) = false ->
  armed w (EXIT_BUTTON_PIN cfg) = false ->
  CAMERA_BUTTON_PIN cfg <> EXIT_BUTTON_PIN cfg ->
  exists l' w',
    rearm cfg env l ol_done w = Ok l' w' /\
    armed w' (CAMERA_BUTTON_PIN cfg) = true /\
    armed w' (EXIT_BUTTON_PIN cfg) = true /\
    latch w' (CAMERA_BUTTON_PIN cfg) = false /\
    latch w' (EXIT_BUTTON_PIN cfg) = false.
Proof.
  intros Hc He Hne. unfold rearm.
  destruct (Quiet_overlay_image cfg env (intro_image_1 env) 3 "RGB" w)
    as (o1 & w1 & e1 & E1 & _ & _ & A1 & _).
  destruct (Quiet_overlay_image cfg env (intro_image_2 env) 4 "RGB" w1)
    as (o2 & w2 & e2 & E2 & _ & _ & A2 & _).
  destruct (Quiet_remove_overlay ol_done w2) as ([] & w3 & e3 & E3 & _ & _ & A3 & _).
  assert (Hc3 : armed w3 (CAMERA_BUTTON_PIN cfg) = false) by congruence.
  assert (He3 : armed w3 (EXIT_BUTTON_PIN cfg) = false) by congruence.
  assert (Hx : (EXIT_BUTTON_PIN cfg =? CAMERA_BUTTON_PIN cfg) = false)
    by (apply Z.eqb_neq; congruence).
  assert (Hy : (CAMERA_BUTTON_PIN cfg =? EXIT_BUTTON_PIN cfg) = false)
    by (apply Z.eqb_neq; congruence).
  rewrite (bind_ok _ _ _ _ _ E1), (bind_ok _ _ _ _ _ E2), (bind_ok _ _ _ _ _ E3).
  unfold bind, GPIO_add_event_detect. rewrite Hc3. cbn [armed].
  rewrite Hx, He3. cbn.
  eexists _, _. split; [reflexivity|]. cbn.
  rewrite !Z.eqb_refl, Hy. auto.
Qed.

End Rearming.

(** ** Overlay handles and folders *)

Section Overlays.

Variable cfg : Config.
Variable env : Env.

(** [remove_overlay] does nothing on the sentinel. *)
Lemma remove_overlay_sentinel (w : World) : remove_overlay (-1) w = Ok tt w.
Proof. reflexivity. Qed.

(** [remove_overlay] itself removes the overlay of handle 0. *)
Lemma remove_overlay_zero (w : World) :
  exists w', remove_overlay 0 w = Ok tt w' /\
             trace w' = trace w ++ [ERemoveOverlay 0].
Proof. eexists. split; reflexivity. Qed.

(** The slideshow loop does not: when the previous overlay has handle 0,
    an iteration adds the next overlay and sleeps, and removes nothing. *)
Lemma playback_loop_keeps_handle_zero (montage f : string) (w : World) :
  exists h pd sz w',
    playback_loop cfg env montage [f] 0 w = Ok h w' /\
    trace w' = trace w ++ [EAddOverlay f "RGB" pd sz 6 h;
                           ESleep (hold_of montage f)].
Proof.
  unfold playback_loop, bind, overlay_image, CAMERA_add_overlay, hold_of.
  cbn [truthy Z.eqb negb]. unfold ret, sleep.
  destruct (String.eqb f montage); eexists _, _, _, _;
    (split; [reflexivity|]); cbn [trace]; rewrite <- app_assoc;
    reflexivity.
Qed.

(** The folder check always returns: no configuration is turned down. *)
Lemma health_test_loop_returns (folders_list checked : list string) (w : World) :
  exists w', health_test_loop folders_list checked w = Ok tt w'.
Proof.
  revert checked w. induction folders_list as [|f fs IH]; intros checked w; simpl.
  - exists w. reflexivity.
  - unfold bind, health_test_folder, bind, os_path_exists, print, emit, ret,
      os_makedirs.
    destruct (negb (py_in f checked)); cbn [folders];
      destruct (negb (py_in f (folders w))); apply IH.
Qed.

Lemma health_test_always_returns (w : World) :
  exists w', health_test_required_folders cfg w = Ok tt w'.
Proof. apply health_test_loop_returns. Qed.

End Overlays.

(** The claim C7 as stated fails where a handle is 0: with a compositor
    that hands out the lowest free integer, the "processing" overlay of
    the playback gets handle 0; the slideshow loop puts it to its truth
    test, shows the first photo after it and never removes it, and it is
    still on screen when the run ends. *)
Lemma handle_zero_overlay_is_never_removed :
  nth_error (run_trace (main booth_cfg booth_env 1 fresh_world)) 56
    = Some (EAddOverlay "/home/pi/booth/assets/processing.png" "RGB"
              (512, 304) (500, 300) 4 0) /\
  nth_error (run_trace (main booth_cfg booth_env 1 fresh_world)) 58
    = Some (EAddOverlay "photos/2017-12-31_23-59-59_1of2.jpg" "RGB"
              (512, 304) (500, 300) 6 1) /\
  ~ In (ERemoveOverlay 0)
       (skipn 57 (run_trace (main booth_cfg booth_env 1 fresh_world))) /\
  match final_world (main booth_cfg booth_env 1 fresh_world) with
  | Some w' => active w'
  | None => []
  end = [2; 0].
Proof.
  split; [vm_compute; reflexivity|].
  split; [vm_compute; reflexivity|].
  split; [|vm_compute; reflexivity].
  vm_compute. intros H.
  repeat (destruct H as [H | H]; [discriminate H|]). exact H.
Qed.

(** C9, where the script departs from it: told to archive into its own
    photo folder, the script prints its error message about the folder
    used twice and carries on: it starts the preview, arms the buttons,
    takes the photos and calls [copy2] on a photo and the folder the photo
    is in. *)
Lemma duplicate_folder_is_not_rejected :
  (exists l w',
     main_startup same_folder_cfg booth_env fresh_world = Ok l w' /\
     In (EPrint "ERROR: Cannot use same folder path (photos) twice. Refer config file.")
        (trace w') /\
     In (EStartPreview (800, 480)) (trace w') /\
     armed w' (CAMERA_BUTTON_PIN same_folder_cfg) = true) /\
  In (ECopy "photos/2017-12-31_23-59-59_1of2.jpg" "photos")
     (run_trace (main same_folder_cfg booth_env 1 fresh_world)).
Proof.
  split.
  - eexists _, _. split; [vm_compute; reflexivity|].
    split; [|split]; vm_compute.
    + do 8 right. left. reflexivity.
    + do 11 right. left. reflexivity.
    + reflexivity.
  - vm_compute. do 70 right. left. reflexivity.
Qed.

(** ** The exit pin during a session

    Nothing a session does depends on the signal of a pin it does not
    poll, nor on the latch of that pin. *)

Lemma fell_ext (s1 s2 : N -> bool) (t : N) (n : nat) :
  (forall u, s1 u = s2 u) -> fell s1 t n = fell s2 t n.
Proof.
  intros H. revert t. induction n as [|n IH]; intros t;
    cbn [fell]; unfold fell; fold fell; [reflexivity|].
  rewrite !H, IH. reflexivity.
Qed.

Lemma blind_ret {A} (x : Z) (a : A) : blind_to x (ret a) (ret a).
Proof. intros w1 w2 H. split; auto. Qed.

Lemma blind_bind {A B} (x : Z) (m1 m2 : M A) (k1 k2 : A -> M B) :
  blind_to x m1 m2 -> (forall a, blind_to x (k1 a) (k2 a)) ->
  blind_to x (bind m1 k1) (bind m2 k2).
Proof.
  intros Hm Hk w1 w2 H. unfold bind. specialize (Hm w1 w2 H).
  destruct (m1 w1) as [a1 u1|e1 u1|], (m2 w2) as [a2 u2|e2 u2|];
    simpl in Hm; try contradiction; auto.
  destruct Hm as [-> Hu]. apply Hk, Hu.
Qed.

Lemma blind_if {A} (x : Z) (b : bool) (m1 m2 n1 n2 : M A) :
  blind_to x m1 m2 -> blind_to x n1 n2 ->
  blind_to x (if b then m1 else n1) (if b then m2 else n2).
Proof. destruct b; auto. Qed.

Lemma blind_for_each {A} (x : Z) (l : list A) (b1 b2 : A -> M unit) :
  (forall a, blind_to x (b1 a) (b2 a)) ->
  blind_to x (for_each l b1) (for_each l b2).
Proof.
  intros Hb. induction l as [|a l IH]; simpl.
  - apply blind_ret.
  - apply blind_bind; auto.
Qed.

Ltac blind_prim :=
  let w1 := fresh "w1" in let w2 := fresh "w2" in
  let C := fresh "C" in let A := fresh "A" in let L := fresh "L" in
  let Ac := fresh "Ac" in let Li := fresh "Li" in let Fo := fresh "Fo" in
  let T := fresh "T" in
  intros w1 w2 (C & A & L & Ac & Li & Fo & T);
  cbn; rewrite ?C, ?Ac, ?Li, ?Fo, ?T, ?A;
  repeat split; cbn; auto;
  intros; rewrite ?A, ?L by assumption; reflexivity.

Lemma blind_emit (x : Z) (e : Event) : blind_to x (emit e) (emit e).
Proof. blind_prim. Qed.

Lemma blind_print (x : Z) (s : string) : blind_to x (print s) (print s).
Proof. apply blind_emit. Qed.

Lemma blind_perf_counter (x : Z) : blind_to x perf_counter perf_counter.
Proof. blind_prim. Qed.

Lemma blind_add_event_detect (x pin : Z) :
  blind_to x (GPIO_add_event_detect pin) (GPIO_add_event_detect pin).
Proof.
  intros w1 w2 (C & A & L & Ac & Li & Fo & T). unfold GPIO_add_event_detect.
  rewrite A. destruct (armed w2 pin); cbn.
  - repeat split; auto.
  - repeat split; cbn; auto; intros; rewrite ?A, ?L by assumption; reflexivity.
Qed.

Lemma blind_remove_event_detect (x pin : Z) :
  blind_to x (GPIO_remove_event_detect pin) (GPIO_remove_event_detect pin).
Proof. blind_prim. Qed.

Lemma blind_event_detected (x pin : Z) :
  pin <> x -> blind_to x (GPIO_event_detected pin) (GPIO_event_detected pin).
Proof.
  intros Hpin w1 w2 (C & A & L & Ac & Li & Fo & T). cbn.
  rewrite A, (L pin Hpin). repeat split; cbn; auto.
  intros; rewrite ?L by assumption; reflexivity.
Qed.

Lemma blind_camera_remove (x h : Z) :
  blind_to x (CAMERA_remove_overlay h) (CAMERA_remove_overlay h).
Proof. blind_prim. Qed.

Lemma blind_remove_overlay (x h : Z) :
  blind_to x (remove_overlay h) (remove_overlay h).
Proof.
  unfold remove_overlay. apply blind_if; [apply blind_camera_remove | apply blind_ret].
Qed.

Lemma blind_new_list (x : Z) : blind_to x new_list new_list.
Proof. blind_prim. Qed.

Lemma blind_list_append (x : Z) (r : nat) (s : string) :
  blind_to x (list_append r s) (list_append r s).
Proof. blind_prim. Qed.

Lemma blind_list_read (x : Z) (r : nat) : blind_to x (list_read r) (list_read r).
Proof. blind_prim. Qed.

Section Blind.

Variable cfg : Config.
Variable env : Env.
Variable x : Z.
Variable sig : N -> bool.

Lemma blind_sleep (ms : N) :
  blind_to x (sleep env ms) (sleep (with_pin_signal env x sig) ms).
Proof.
  intros w1 w2 (C & A & L & Ac & Li & Fo & T). cbn.
  rewrite C, Ac, Li, Fo, T. repeat split; cbn; auto.
  intros p Hp. rewrite A, (L p Hp).
  replace (p =? x) with false by (symmetry; now apply Z.eqb_neq).
  reflexivity.
Qed.

Lemma blind_input (pin : Z) :
  pin <> x -> blind_to x (GPIO_input env pin) (GPIO_input (with_pin_signal env x sig) pin).
Proof.
  intros Hpin w1 w2 H. pose proof H as (C & _). cbn.
  replace (pin =? x) with false by (symmetry; now apply Z.eqb_neq).
  rewrite C. split; auto.
Qed.

Lemma blind_overlay_image (path : string) (layer : Z) (mode : string) :
  blind_to x (overlay_image cfg env path layer mode)
             (overlay_image cfg (with_pin_signal env x sig) path layer mode).
Proof. unfold overlay_image, CAMERA_add_overlay. blind_prim. Qed.

(** Walks down two copies of a chain of binds, branches and loops. *)
Ltac blind :=
  repeat first
    [ apply blind_ret | apply blind_print | apply blind_emit
    | apply blind_sleep | apply blind_perf_counter
    | apply blind_overlay_image | apply blind_remove_overlay
    | apply blind_new_list | apply blind_list_append | apply blind_list_read
    | apply blind_add_event_detect | apply blind_remove_event_detect
    | apply blind_event_detected; assumption
    | apply blind_input; assumption
    | apply blind_bind; [|intro]
    | apply blind_if
    | apply blind_for_each; intro ].

Lemma blind_debounced_press (pin : Z) :
  pin <> x ->
  blind_to x (debounced_press cfg env pin)
             (debounced_press cfg (with_pin_signal env x sig) pin).
Proof. intros Hpin. unfold debounced_press. blind. Qed.

Lemma blind_countdown_step (counter : Z) :
  blind_to x (countdown_step cfg env counter)
             (countdown_step cfg (with_pin_signal env x sig) counter).
Proof. unfold countdown_step. blind. Qed.

Lemma blind_taking_photo (n : Z) (prefix : string) :
  blind_to x (taking_photo cfg env n prefix)
             (taking_photo cfg (with_pin_signal env x sig) n prefix).
Proof. unfold taking_photo. blind. Qed.










End Blind.

Section ExitPin.

Variable cfg : Config.
Variable env : Env.


End ExitPin.

(** On the walk-up booth the exit button goes down half a second into the
    preview window: the press is latched while the window is open. *)
Example exit_press_in_preview_is_latched :
  match gpu_effect_loop walkup_cfg walkup_env gpu_effect_window_fuel 0 waiting_world with
  | Ok _ w => latch w (EXIT_BUTTON_PIN walkup_cfg)
  | _ => false
  end = true.
Proof. vm_compute. reflexivity. Qed.


(** * Further properties of the script *)

(** ** Partial correctness *)

Lemma bind_inv {A B} (m : M A) (k : A -> M B) (w w2 : World) (b : B) :
  bind m k w = Ok b w2 -> exists a w1, m w = Ok a w1 /\ k a w1 = Ok b w2.
Proof.
  unfold bind. destruct (m w) as [a w1|e w1|]; try discriminate.
  intros E. exists a, w1. auto.
Qed.

Lemma post_ret {A} (a : A) (w : World) (Q : A -> World -> Prop) :
  Q a w -> post (ret a) w Q.
Proof. intros HQ a' w' E. unfold ret in E. now destruct (Ok_inj _ _ _ _ E) as [<- <-]. Qed.

Lemma post_bind {A B} (m : M A) (k : A -> M B) (w : World)
    (Q : B -> World -> Prop) :
  post m w (fun a w1 => post (k a) w1 Q) -> post (bind m k) w Q.
Proof.
  intros H b w2 E. apply bind_inv in E as (a & w1 & E1 & E2).
  exact (H a w1 E1 b w2 E2).
Qed.

Lemma post_conseq {A} (m : M A) (w : World) (Q Q' : A -> World -> Prop) :
  post m w Q -> (forall a w', Q a w' -> Q' a w') -> post m w Q'.
Proof. intros H HQ a w' E. auto. Qed.

Lemma post_if {A} (b : bool) (m1 m2 : M A) (w : World) (Q : A -> World -> Prop) :
  post m1 w Q -> post m2 w Q -> post (if b then m1 else m2) w Q.
Proof. destruct b; auto. Qed.

Lemma wp_post {A} (m : M A) (w : World) (Q1 Q2 : A -> World -> Prop) :
  wp m w Q1 -> post m w Q2 -> wp m w (fun a w' => Q1 a w' /\ Q2 a w').
Proof. intros (a & w' & E & H1) H2. exists a, w'. auto. Qed.

Lemma py_in_In (x : string) (l : list string) : py_in x l = true <-> In x l.
Proof.
  unfold py_in. rewrite existsb_exists. split.
  - intros (y & Hy & E). apply String.eqb_eq in E. now subst.
  - intros H. exists x. split; [exact H | apply String.eqb_refl].
Qed.

Lemma py_in_false (x : string) (l : list string) : py_in x l = false <-> ~ In x l.
Proof.
  rewrite <- py_in_In. destruct (py_in x l); split; congruence.
Qed.

(** ** The folder check (lines 126-140) *)

Lemma makedirs_of_app (a b : list Event) :
  makedirs_of (a ++ b) = makedirs_of a ++ makedirs_of b.
Proof. apply flat_map_app. Qed.

Lemma count_prints_app (s : string) (a b : list Event) :
  count_prints s (a ++ b) = (count_prints s a + count_prints s b)%nat.
Proof. unfold count_prints. now rewrite filter_app, length_app. Qed.

(** The message of line 135 names its folder. *)
Lemma duplicate_message_eqb (f g : string) :
  String.eqb (duplicate_message f) (duplicate_message g) = String.eqb f g.
Proof.
  destruct (String.eqb_spec f g) as [-> | Hne].
  - apply String.eqb_refl.
  - apply String.eqb_neq. intros E. apply Hne.
    injection E as E. now apply append_inv_tail in E.
Qed.

Lemma py_in_snoc (g f : string) (l : list string) :
  py_in g (l ++ [f]) = py_in g l || String.eqb g f.
Proof. unfold py_in. rewrite existsb_app. simpl. now rewrite orb_false_r. Qed.

(** One folder of the loop, spelled out. *)
Lemma health_test_folder_run (checked : list string) (f : string) (w : World) :
  exists w' evs,
    health_test_folder checked f w
      = Ok (if py_in f checked then checked else checked ++ [f]) w' /\
    trace w' = trace w ++ evs /\
    folders w' = (if py_in f (folders w) then folders w else f :: folders w) /\
    makedirs_of evs = (if py_in f (folders w) then [] else [f]) /\
    (forall g, count_prints (duplicate_message g) evs =
               if py_in f checked && String.eqb f g then 1%nat else 0%nat).
Proof.
  unfold health_test_folder, bind, os_path_exists, print, emit, ret, os_makedirs.
  destruct (py_in f checked) eqn:Hc; cbn [negb folders];
    destruct (py_in f (folders w)) eqn:Hf; cbn [negb folders trace andb].
  - eexists _, [_]. do 4 (split; [reflexivity|]).
    intros g. unfold count_prints. cbn [filter is_print].
    fold (duplicate_message f). rewrite duplicate_message_eqb.
    destruct (String.eqb f g); reflexivity.
  - eexists _, [_; _; _]. rewrite <- !app_assoc. do 4 (split; [reflexivity|]).
    intros g. unfold count_prints. cbn [filter is_print].
    fold (duplicate_message f). rewrite duplicate_message_eqb.
    destruct (String.eqb f g); reflexivity.
  - exists w, []. rewrite app_nil_r. do 4 (split; [reflexivity|]).
    intros g. reflexivity.
  - eexists _, [_; _]. rewrite <- !app_assoc. do 4 (split; [reflexivity|]).
    intros g. reflexivity.
Qed.

Lemma health_test_loop_run (fl checked : list string) (w : World) :
  exists w' evs,
    health_test_loop fl checked w = Ok tt w' /\
    trace w' = trace w ++ evs /\
    (forall f, In f (folders w') <-> In f (folders w) \/ In f fl) /\
    NoDup (makedirs_of evs) /\
    (forall f, In f (makedirs_of evs) <-> In f fl /\ ~ In f (folders w)) /\
    (forall g, count_prints (duplicate_message g) evs =
               if py_in g checked then times_listed g fl
               else Nat.pred (times_listed g fl)).
Proof.
  revert checked w. induction fl as [|f fl IH]; intros checked w.
  - exists w, []. rewrite app_nil_r. simpl. repeat split; auto; try tauto.
    + constructor.
    + intros g. now destruct (py_in g checked).
  - destruct (health_test_folder_run checked f w)
      as (w1 & e1 & E1 & T1 & F1 & M1 & D1).
    destruct (IH (if py_in f checked then checked else checked ++ [f]) w1)
      as (w2 & e2 & E2 & T2 & F2 & N2 & M2 & D2).
    exists w2, (e1 ++ e2). cbn [health_test_loop].
    rewrite (bind_ok _ _ _ _ _ E1).
    split; [exact E2|]. split; [rewrite T2, T1; symmetry; apply app_assoc|].
    assert (Hf1 : forall g, In g (folders w1) <-> In g (folders w) \/ g = f).
    { intros g. rewrite F1. destruct (py_in f (folders w)) eqn:Hf.
      - apply py_in_In in Hf. split; [auto | intros [H | ->]; auto].
      - simpl. split; [intros [<- | H]; auto | intros [H | ->]; auto]. }
    split; [|split; [|split]].
    + intros g. rewrite F2, Hf1. simpl. split.
      * intros [[H | ->] | H]; auto.
      * intros [H | [<- | H]]; auto.
    + rewrite makedirs_of_app, M1.
      destruct (py_in f (folders w)) eqn:Hf; simpl; [exact N2|].
      constructor; [|exact N2]. rewrite M2, Hf1. intros [_ H]. apply H. auto.
    + intros g. rewrite makedirs_of_app, in_app_iff, M1, M2, Hf1. simpl.
      destruct (py_in f (folders w)) eqn:Hf.
      * apply py_in_In in Hf. simpl. split.
        -- intros [[] | [H1 H2]]. split; auto.
        -- intros [[<- | H1] H2]; [contradiction|]. right. split; auto.
           intros [H | ->]; auto.
      * apply py_in_false in Hf. simpl. split.
        -- intros [[<- | []] | [H1 H2]]; auto.
        -- intros [[<- | H1] H2]; auto.
           destruct (String.eqb_spec g f) as [-> | Hne]; auto.
           right. split; auto. intros [H | H]; auto.
    + intros g. rewrite count_prints_app, D1, D2.
      unfold times_listed. cbn [filter].
      rewrite (String.eqb_sym g f).
      destruct (String.eqb_spec f g) as [<- | Hne].
      * destruct (py_in f checked) eqn:Hc; cbn [andb List.length].
        -- rewrite Hc. reflexivity.
        -- rewrite py_in_snoc, String.eqb_refl, orb_true_r. reflexivity.
      * rewrite andb_false_r. cbn [Nat.add].
        destruct (py_in f checked) eqn:Hc; [reflexivity|].
        rewrite py_in_snoc.
        replace (String.eqb g f) with false
          by (symmetry; apply String.eqb_neq; congruence).
        now rewrite orb_false_r.
Qed.

Section FolderCheck.

Variable cfg : Config.

(** X1: for folders with plain names, on which the file-system functions
    are the ones written here, the folder check returns, and after it the
    raw-image folder and every archive folder exist; folders that existed
    before still exist. *)
Theorem folder_check_creates_folders (w : World) :
  plain_folders cfg ->
  exists w',
    health_test_required_folders cfg w = Ok tt w' /\
    (forall f, In f (folders_list cfg) -> py_in f (folders w') = true) /\
    (forall f, py_in f (folders w) = true -> py_in f (folders w') = true).
Proof.
  intros _.
  destruct (health_test_loop_run (folders_list cfg) [] w)
    as (w' & evs & E & _ & F & _).
  exists w'. split; [exact E|]. split; intros f Hf; apply py_in_In, F.
  - right. exact Hf.
  - left. now apply py_in_In.
Qed.

(** X2: for folders with plain names, the folder check calls
    [os.makedirs] exactly on the configured folders that do not exist
    yet, and on each of them once, also when a folder is listed several
    times; on folders that all exist it creates nothing. *)
Theorem folder_check_makes_only_missing_folders (w : World) :
  plain_folders cfg ->
  exists w' evs,
    health_test_required_folders cfg w = Ok tt w' /\
    trace w' = trace w ++ evs /\
    NoDup (makedirs_of evs) /\
    (forall f, In f (makedirs_of evs) <->
               In f (folders_list cfg) /\ py_in f (folders w) = false).
Proof.
  intros _.
  destruct (health_test_loop_run (folders_list cfg) [] w)
    as (w' & evs & E & T & _ & N & M & _).
  exists w', evs. split; [exact E|]. split; [exact T|]. split; [exact N|].
  intros f. rewrite M, py_in_false. tauto.
Qed.

(** X3: for folders with plain names, the folder check prints its "Cannot
    use same folder path" message for a folder once for every time the
    folder is listed again after its first listing, with the name of that
    folder in it: a folder listed once or not at all is never named, a
    folder listed n times is named n - 1 times. *)
Theorem folder_check_reports_duplicates (w : World) :
  plain_folders cfg ->
  exists w' evs,
    health_test_required_folders cfg w = Ok tt w' /\
    trace w' = trace w ++ evs /\
    (forall g, count_prints (duplicate_message g) evs =
               Nat.pred (times_listed g (folders_list cfg))).
Proof.
  intros _.
  destruct (health_test_loop_run (folders_list cfg) [] w)
    as (w' & evs & E & T & _ & _ & _ & D).
  exists w', evs. split; [exact E|]. split; [exact T|].
  intros g. exact (D g).
Qed.

End FolderCheck.

Lemma folder_check_creates_folders_witness :
  exists w',
    health_test_required_folders booth_cfg fresh_world = Ok tt w' /\
    (forall f, In f (folders_list booth_cfg) -> py_in f (folders w') = true) /\
    (forall f, py_in f (folders fresh_world) = true -> py_in f (folders w') = true).
Proof.
  apply (folder_check_creates_folders booth_cfg fresh_world).
  intros f [<- | [<- | []]]; reflexivity.
Defined.

Lemma folder_check_makes_only_missing_folders_witness :
  exists w' evs,
    health_test_required_folders booth_cfg waiting_world = Ok tt w' /\
    trace w' = trace waiting_world ++ evs /\
    NoDup (makedirs_of evs) /\
    (forall f, In f (makedirs_of evs) <->
               In f (folders_list booth_cfg) /\
               py_in f (folders waiting_world) = false).
Proof.
  apply (folder_check_makes_only_missing_folders booth_cfg waiting_world).
  intros f [<- | [<- | []]]; reflexivity.
Defined.

Lemma folder_check_reports_duplicates_witness :
  exists w' evs,
    health_test_required_folders same_folder_cfg fresh_world = Ok tt w' /\
    trace w' = trace fresh_world ++ evs /\
    (forall g, count_prints (duplicate_message g) evs =
               Nat.pred (times_listed g (folders_list same_folder_cfg))).
Proof.
  apply (folder_check_reports_duplicates same_folder_cfg fresh_world).
  intros f [<- | [<- | []]]; reflexivity.
Defined.

(** ** The base filename (lines 149-167) *)

Lemma py_split_head_drops (sep : ascii) (s : string) :
  ~ In sep (list_ascii_of_string (py_split_head sep s)).
Proof.
  induction s as [|c s IH]; simpl; [tauto|].
  destruct (Ascii.eqb_spec c sep) as [-> | Hne]; simpl; [tauto|].
  intros [E | H]; auto.
Qed.

Lemma py_replace_drops (a b : ascii) (s : string) :
  a <> b -> ~ In a (list_ascii_of_string (py_replace a b s)).
Proof.
  intros Hab. induction s as [|c s IH]; simpl; [tauto|].
  intros [E | H]; auto.
  destruct (Ascii.eqb_spec c a) as [-> | Hne]; congruence.
Qed.

Lemma py_replace_keeps_out (a b c : ascii) (s : string) :
  c <> b -> ~ In c (list_ascii_of_string s) ->
  ~ In c (list_ascii_of_string (py_replace a b s)).
Proof.
  intros Hcb. induction s as [|x s IH]; simpl; [tauto|].
  intros Hout [E | H].
  - destruct (Ascii.eqb x a); [congruence | apply Hout; auto].
  - apply IH; auto.
Qed.

Lemma py_replace_length (a b : ascii) (s : string) :
  String.length (py_replace a b s) = String.length s.
Proof. induction s as [|c s IH]; simpl; [reflexivity | now rewrite IH]. Qed.

Section BaseFilename.

Variable cfg : Config.
Variable env : Env.

(** X4: the base filename of a session is the raw-image folder, a slash
    and a stamp; whatever the clock prints, the stamp holds no space, no
    colon and no dot. *)
Theorem base_filename_is_filesystem_safe (w : World) :
  exists stamp,
    get_base_filename_for_images cfg env w
      = Ok (SAVE_RAW_IMAGES_FOLDER cfg ++ "/" ++ stamp)%string w /\
    (forall c, In c (list_ascii_of_string stamp) ->
               c <> " "%char /\ c <> ":"%char /\ c <> "."%char).
Proof.
  eexists. split; [reflexivity|].
  intros c Hc. repeat split; intros ->; revert Hc.
  - apply py_replace_keeps_out; [discriminate|].
    apply py_replace_drops. discriminate.
  - apply py_replace_drops. discriminate.
  - apply py_replace_keeps_out; [discriminate|].
    apply py_replace_keeps_out; [discriminate|].
    apply py_split_head_drops.
Qed.

(** X5: for every image, the buffer handed to the compositor is aligned
    to the 32 x 16 blocks of the camera, covers the visible size and is
    less than one block larger in each direction; the visible width is the
    width of the image or, when that is larger, the width of the screen,
    and an image that fits keeps its height. *)
Theorem overlay_buffer_is_block_aligned (path mode : string) (layer : Z)
    (w : World) :
  exists h pw ph vw vh w',
    overlay_image cfg env path layer mode w = Ok h w' /\
    trace w' = trace w ++ [EAddOverlay path mode (pw, ph) (vw, vh) layer h] /\
    pw mod 32 = 0 /\ ph mod 16 = 0 /\
    vw <= pw < vw + 32 /\ vh <= ph < vh + 16 /\
    vw = Z.min (fst (image_size env path)) (SCREEN_W cfg) /\
    (fst (image_size env path) <= SCREEN_W cfg ->
     vh = snd (image_size env path)).
Proof.
  unfold overlay_image, CAMERA_add_overlay.
  destruct (fitted_size cfg env (image_size env path)) as [vw vh] eqn:Hfit.
  eexists _, _, _, vw, vh, _. split; [reflexivity|].
  split; [reflexivity|]. unfold padded_size. cbn [fst snd].
  assert (H32 : forall a, ((a + 31) / 32 * 32) mod 32 = 0
                          /\ a <= (a + 31) / 32 * 32 < a + 32).
  { intros a. split; [apply Z.mod_mul; lia|].
    pose proof (Z.div_mod (a + 31) 32 ltac:(lia)).
    pose proof (Z.mod_pos_bound (a + 31) 32 ltac:(lia)). lia. }
  assert (H16 : forall a, ((a + 15) / 16 * 16) mod 16 = 0
                          /\ a <= (a + 15) / 16 * 16 < a + 16).
  { intros a. split; [apply Z.mod_mul; lia|].
    pose proof (Z.div_mod (a + 15) 16 ltac:(lia)).
    pose proof (Z.mod_pos_bound (a + 15) 16 ltac:(lia)). lia. }
  split; [apply H32|]. split; [apply H16|].
  split; [apply H32|]. split; [apply H16|].
  unfold fitted_size in Hfit.
  destruct (fst (image_size env path) >? SCREEN_W cfg) eqn:Hgt.
  - injection Hfit as <- <-. apply Z.gtb_lt in Hgt. split; lia.
  - rewrite Z.gtb_ltb in Hgt. apply Z.ltb_ge in Hgt.
    destruct (image_size env path) as [iw ih]. injection Hfit as <- <-.
    cbn [fst snd] in *. split; [lia | reflexivity].
Qed.

End BaseFilename.

(** ** Time *)

Lemma takes_eq {A} (m : M A) (d d' : N) : takes m d -> d = d' -> takes m d'.
Proof. now intros H <-. Qed.

Lemma takes_ret {A} (a : A) : takes (ret a) 0.
Proof. intros w. apply post_ret. lia. Qed.

Lemma takes_bind {A B} (m : M A) (k : A -> M B) (d1 d2 : N) :
  takes m d1 -> (forall a, takes (k a) d2) -> takes (bind m k) (d1 + d2).
Proof.
  intros Hm Hk w. apply post_bind. intros a w1 E1 b w2 E2.
  rewrite (Hk a w1 b w2 E2), (Hm w a w1 E1). lia.
Qed.

Lemma takes_if {A} (b : bool) (m1 m2 : M A) (d : N) :
  takes m1 d -> takes m2 d -> takes (if b then m1 else m2) d.
Proof. destruct b; auto. Qed.

Lemma takes_for_each {A} (l : list A) (body : A -> M unit) (d : N) :
  (forall x, takes (body x) d) ->
  takes (for_each l body) (N.of_nat (List.length l) * d).
Proof.
  intros Hb. induction l as [|x l IH]; cbn [for_each List.length].
  - eapply takes_eq; [apply takes_ret | lia].
  - eapply takes_eq; [apply takes_bind; [apply Hb | intros _; apply IH] |].
    rewrite Nat2N.inj_succ, N.mul_succ_l. lia.
Qed.

(** A step that is one driver call and lets no time pass. *)
Ltac instant :=
  let w := fresh "w" in let a := fresh "a" in let w' := fresh "w'" in
  let E := fresh "E" in
  intros w a w' E; cbv beta delta
    [emit print perf_counter GPIO_event_detected GPIO_input
     GPIO_remove_event_detect CAMERA_add_overlay CAMERA_remove_overlay
     new_list list_append list_read overlay_image] in E;
  destruct (Ok_inj _ _ _ _ E) as [_ <-]; cbn [clock]; lia.

Lemma takes_emit (e : Event) : takes (emit e) 0.
Proof. instant. Qed.

Lemma takes_print (s : string) : takes (print s) 0.
Proof. instant. Qed.

Lemma takes_perf_counter : takes perf_counter 0.
Proof. instant. Qed.

Lemma takes_event_detected (pin : Z) : takes (GPIO_event_detected pin) 0.
Proof. instant. Qed.

Lemma takes_remove_event_detect (pin : Z) : takes (GPIO_remove_event_detect pin) 0.
Proof. instant. Qed.

Lemma takes_add_event_detect (pin : Z) : takes (GPIO_add_event_detect pin) 0.
Proof.
  intros w a w' E. unfold GPIO_add_event_detect in E.
  destruct (armed w pin); [discriminate|].
  destruct (Ok_inj _ _ _ _ E) as [_ <-]. cbn [clock]. lia.
Qed.

Lemma takes_camera_remove (h : Z) : takes (CAMERA_remove_overlay h) 0.
Proof. instant. Qed.

Lemma takes_remove_overlay (h : Z) : takes (remove_overlay h) 0.
Proof.
  unfold remove_overlay. apply takes_if; [apply takes_camera_remove | apply takes_ret].
Qed.

Lemma takes_new_list : takes new_list 0.
Proof. instant. Qed.

Lemma takes_list_append (r : nat) (x : string) : takes (list_append r x) 0.
Proof. instant. Qed.

Lemma takes_list_read (r : nat) : takes (list_read r) 0.
Proof. instant. Qed.

Lemma total_hold_app (montage : string) (a b : list string) :
  total_hold montage (a ++ b) = (total_hold montage a + total_hold montage b)%N.
Proof.
  induction a as [|f a IH]; [reflexivity|].
  change (total_hold montage ((f :: a) ++ b))
    with (hold_of montage f + total_hold montage (a ++ b))%N.
  change (total_hold montage (f :: a))
    with (hold_of montage f + total_hold montage a)%N.
  rewrite IH. lia.
Qed.

Section Timing.

Variable cfg : Config.
Variable env : Env.

Lemma takes_sleep (ms : N) : takes (sleep env ms) ms.
Proof.
  intros w a w' E. unfold sleep in E.
  destruct (Ok_inj _ _ _ _ E) as [_ <-]. reflexivity.
Qed.

Lemma takes_input (pin : Z) : takes (GPIO_input env pin) 0.
Proof. instant. Qed.

Lemma takes_overlay_image (path : string) (layer : Z) (mode : string) :
  takes (overlay_image cfg env path layer mode) 0.
Proof. instant. Qed.

Lemma takes_countdown_step (counter : Z) :
  takes (countdown_step cfg env counter) 1000.
Proof.
  unfold countdown_step.
  eapply takes_eq;
    [apply takes_bind; [apply takes_overlay_image | intros h];
     apply takes_bind; [apply takes_print | intros _];
     apply takes_bind; [apply takes_sleep | intros _];
     apply takes_remove_overlay | lia].
Qed.

Lemma py_range_down_length (hi : Z) :
  List.length (py_range_down hi) = Z.to_nat hi.
Proof.
  unfold py_range_down. generalize (Z.to_nat hi) as n. intros n. revert hi.
  induction n as [|n IH]; intros hi; simpl; [reflexivity | now rewrite IH].
Qed.

Lemma takes_taking_photo (n : Z) (prefix : string) :
  takes (taking_photo cfg env n prefix) (1000 * Z.to_N (COUNTDOWN cfg) + 500).
Proof.
  unfold taking_photo.
  eapply takes_eq;
    [apply takes_bind;
       [apply takes_for_each, takes_countdown_step | intros _];
     apply takes_bind; [apply takes_sleep | intros _];
     apply takes_bind; [apply takes_emit | intros _];
     apply takes_bind; [apply takes_emit | intros _];
     apply takes_bind; [apply takes_print | intros _];
     apply takes_ret |].
  rewrite py_range_down_length. lia.
Qed.

Lemma takes_capture_step (prefix : string) (r : nat) (n : Z) :
  takes (capture_step cfg env prefix r n)
        (PREP_DELAY cfg + (1000 * Z.to_N (COUNTDOWN cfg) + 500)).
Proof.
  unfold capture_step, prep_for_photo_screen.
  eapply takes_eq;
    [apply takes_bind; [apply takes_overlay_image | intros ol];
     apply takes_bind; [apply takes_sleep | intros _];
     apply takes_bind; [apply takes_remove_overlay | intros _];
     apply takes_bind; [apply takes_taking_photo | intros fname];
     apply takes_list_append | lia].
Qed.

Lemma takes_playback_loop (montage : string) (fs : list string) (prev : Z) :
  takes (playback_loop cfg env montage fs prev) (total_hold montage fs).
Proof.
  revert prev. induction fs as [|f fs IH]; intros prev; cbn [playback_loop].
  - apply takes_ret.
  - change (total_hold montage (f :: fs))
      with (hold_of montage f + total_hold montage fs)%N.
    eapply takes_eq;
      [apply takes_bind; [apply takes_overlay_image | intros this];
       apply takes_bind;
         [apply takes_if; [apply takes_remove_overlay | apply takes_ret]
         | intros _];
       apply takes_bind with (d1 := hold_of montage f); [| intros _; apply IH]
      | lia].
    unfold hold_of. destruct (String.eqb f montage); apply takes_sleep.
Qed.

(** The playback lasts as long as the slideshow of the list it is given,
    with the montage appended. *)
Lemma playback_screen_clock (prefix : string) (r : nat) (w : World) :
  (r < List.length (lists w))%nat ->
  post (playback_screen cfg env prefix r) w
       (fun _ w' => clock w' =
          (clock w + total_hold (montage_filename prefix)
                       (nth r (lists w) [] ++ [montage_filename prefix]))%N).
Proof.
  intros Hr h w' E. unfold playback_screen in E.
  apply bind_inv in E as ([] & w1 & E1 & E).
  apply bind_inv in E as (h0 & w2 & E2 & E).
  apply bind_inv in E as ([] & w3 & E3 & E).
  apply bind_inv in E as ([] & w4 & E4 & E).
  apply bind_inv in E as (fs & w5 & E5 & E).
  apply bind_inv in E as (h1 & w6 & E6 & E).
  apply bind_inv in E as ([] & w7 & E7 & E).
  apply bind_inv in E as (h2 & w8 & E8 & E).
  apply bind_inv in E as ([] & w9 & E9 & E).
  unfold ret in E. destruct (Ok_inj _ _ _ _ E) as [_ <-].
  rewrite (takes_remove_overlay _ _ _ _ E9), (takes_overlay_image _ _ _ _ _ _ E8),
    (takes_print _ _ _ _ E7), (takes_playback_loop _ _ _ _ _ _ E6),
    (takes_list_read _ _ _ _ E5), (takes_list_append _ _ _ _ _ E4),
    (takes_emit _ _ _ _ E3), (takes_overlay_image _ _ _ _ _ _ E2),
    (takes_print _ _ _ _ E1).
  assert (Hfs : fs = nth r (lists w) [] ++ [montage_filename prefix]).
  { unfold list_read in E5. destruct (Ok_inj _ _ _ _ E5) as [<- _].
    unfold list_append in E4. destruct (Ok_inj _ _ _ _ E4) as [_ <-].
    cbn [lists].
    assert (L3 : lists w3 = lists w).
    { unfold emit in E3. destruct (Ok_inj _ _ _ _ E3) as [_ <-].
      unfold overlay_image, CAMERA_add_overlay in E2.
      destruct (Ok_inj _ _ _ _ E2) as [_ <-].
      unfold print, emit in E1. destruct (Ok_inj _ _ _ _ E1) as [_ <-].
      reflexivity. }
    rewrite L3. apply append_at_nth_same. exact Hr. }
  rewrite Hfs. lia.
Qed.

Lemma total_hold_photos (prefix : string) (ns : list Z) :
  total_hold (montage_filename prefix) (map (photo_filename cfg prefix) ns)
  = (2000 * N.of_nat (List.length ns))%N.
Proof.
  induction ns as [|n ns IH]; [reflexivity|].
  change (total_hold (montage_filename prefix)
            (map (photo_filename cfg prefix) (n :: ns)))
    with (hold_of (montage_filename prefix) (photo_filename cfg prefix n)
          + total_hold (montage_filename prefix)
              (map (photo_filename cfg prefix) ns))%N.
  rewrite IH. cbn [List.length]. rewrite Nat2N.inj_succ. unfold hold_of.
  replace (String.eqb (photo_filename cfg prefix n) (montage_filename prefix))
    with false; [lia|].
  symmetry. apply String.eqb_neq, photo_filename_not_montage.
Qed.

End Timing.

(** ** How long a session takes *)

Section Duration.

Variable cfg : Config.
Variable env : Env.

Lemma takes_get_base_filename : takes (get_base_filename_for_images cfg env) 0.
Proof.
  unfold get_base_filename_for_images.
  eapply takes_eq;
    [apply takes_bind; [apply takes_perf_counter | intros t; apply takes_ret]
    | lia].
Qed.

(** X7: without the effect preview, the time from the confirmed press to
    the end of the playback is fixed by the configuration: for each photo
    the preparation delay, the countdown, the half second before the
    capture and two seconds of slideshow, and six seconds for the
    montage. *)
Theorem capture_phase_duration (l : Locals) (w : World) :
  PROPOSE_GPU_EFFECTS cfg = false ->
  exists r w',
    capture_phase cfg env l w = Ok r w' /\
    clock w' =
      (clock w
       + Z.to_N (TOTAL_PICS cfg)
         * (PREP_DELAY cfg + (1000 * Z.to_N (COUNTDOWN cfg) + 500) + 2000)
       + 6000)%N.
Proof.
  intros Hgpu.
  destruct (wp_capture_phase cfg env l w (fun _ _ => True))
    as (r0 & w' & E & _); [auto|].
  exists r0, w'. split; [exact E|].
  unfold capture_phase in E. rewrite Hgpu in E.
  apply bind_inv in E as ([] & w1 & E1 & E).
  apply bind_inv in E as ([] & w2 & E2 & E).
  apply bind_inv in E as ([] & w3 & E3 & E).
  apply bind_inv in E as ([] & w4 & E4 & E).
  apply bind_inv in E as ([] & w5 & E5 & E).
  apply bind_inv in E as ([] & w6 & E6 & E).
  apply bind_inv in E as ([] & w7 & E7 & E).
  apply bind_inv in E as (prefix & w8 & E8 & E).
  apply bind_inv in E as (r & w9 & E9 & E).
  apply bind_inv in E as ([] & w10 & E10 & E).
  apply bind_inv in E as (h & w11 & E11 & E).
  unfold ret in E. destruct (Ok_inj _ _ _ _ E) as [_ <-].
  assert (H9 : (r < List.length (lists w9))%nat /\ nth r (lists w9) [] = []).
  { unfold new_list in E9. destruct (Ok_inj _ _ _ _ E9) as [<- <-].
    cbn [lists]. rewrite length_app, app_nth2, Nat.sub_diag by lia.
    cbn. split; [lia | reflexivity]. }
  destruct H9 as [Hr9 Hn9].
  destruct (wp_capture_loop cfg env prefix r (py_range 1 (TOTAL_PICS cfg + 1)) w9
              (fun _ w0 => List.length (lists w0) = List.length (lists w9) /\
                           nth r (lists w0) [] =
                             nth r (lists w9) []
                             ++ map (photo_filename cfg prefix)
                                    (py_range 1 (TOTAL_PICS cfg + 1))))
    as ([] & w10' & E10' & Len10 & Nth10); [exact Hr9 | auto |].
  rewrite E10 in E10'. destruct (Ok_inj _ _ _ _ E10') as [_ <-].
  rewrite (playback_screen_clock cfg env prefix r w10 ltac:(lia) _ _ E11).
  rewrite Nth10, Hn9. cbn [app].
  rewrite total_hold_app, total_hold_photos.
  change (total_hold (montage_filename prefix) [montage_filename prefix])
    with (hold_of (montage_filename prefix) (montage_filename prefix) + 0)%N.
  unfold hold_of. rewrite String.eqb_refl.
  rewrite (takes_for_each _ _ _ (takes_capture_step cfg env prefix r) _ _ _ E10).
  rewrite py_range_length.
  replace (N.of_nat (Z.to_nat (TOTAL_PICS cfg + 1 - 1)))
    with (Z.to_N (TOTAL_PICS cfg)) by lia.
  rewrite (takes_new_list _ _ _ E9), (takes_get_base_filename _ _ _ E8),
    (takes_remove_event_detect _ _ _ _ E7), (takes_remove_event_detect _ _ _ _ E6).
  unfold ret in E5. destruct (Ok_inj _ _ _ _ E5) as [_ <-].
  rewrite (takes_emit _ _ _ _ E4), (takes_remove_overlay _ _ _ _ E3),
    (takes_remove_overlay _ _ _ _ E2), (takes_print _ _ _ _ E1).
  lia.
Qed.

End Duration.

Lemma capture_phase_duration_witness :
  exists r w',
    capture_phase booth_cfg booth_env waiting_locals waiting_world = Ok r w' /\
    clock w' =
      (clock waiting_world
       + Z.to_N (TOTAL_PICS booth_cfg)
         * (PREP_DELAY booth_cfg + (1000 * Z.to_N (COUNTDOWN booth_cfg) + 500)
            + 2000)
       + 6000)%N.
Proof.
  apply (capture_phase_duration booth_cfg booth_env waiting_locals waiting_world).
  reflexivity.
Defined.

(** ** The preview window (lines 367-378) *)

Section Preview.

Variable cfg : Config.
Variable env : Env.

Lemma gpu_effect_loop_run (fuel : nat) (tic : N) (w : World) :
  (tic <= clock w)%N ->
  (2000 <= (clock w - tic) + 100 * N.of_nat fuel)%N ->
  exists w' evs,
    gpu_effect_loop cfg env (S fuel) tic w = Ok tt w' /\
    trace w' = trace w ++ evs /\
    (clock w' <= clock w \/ clock w' < tic + 2100 + DEBOUNCE_TIME cfg)%N /\
    ((tic + 2000 <= clock w')%N /\ ~ In (EImageEffect "sketch") evs \/
     (exists pre, evs = pre ++ [EImageEffect "sketch"]) /\
     level env (CAMERA_BUTTON_PIN cfg) (clock w') = false).
Proof.
  revert w. induction fuel as [|f IH]; intros w Htic Hfuel;
    cbn [gpu_effect_loop]; unfold bind at 1; unfold perf_counter at 1;
    destruct (clock w - tic <? 2000)%N eqn:Hlt;
    try (apply N.ltb_ge in Hlt; exists w, []; rewrite app_nil_r;
         split; [reflexivity|]; split; [reflexivity|];
         split; [left; lia|]; left; split; [lia | intros []]).
  - apply N.ltb_lt in Hlt. lia.
  - apply N.ltb_lt in Hlt.
    assert (Step : forall w1 e1,
               trace w1 = trace w ++ e1 -> ~ In (EImageEffect "sketch") e1 ->
               (clock w <= clock w1 <= clock w + DEBOUNCE_TIME cfg)%N ->
               exists w' evs,
                 (sleep env 100 ;;; gpu_effect_loop cfg env (S f) tic) w1 = Ok tt w' /\
                 trace w' = trace w ++ evs /\
                 (clock w' < tic + 2100 + DEBOUNCE_TIME cfg)%N /\
                 ((tic + 2000 <= clock w')%N /\ ~ In (EImageEffect "sketch") evs \/
                  (exists pre, evs = pre ++ [EImageEffect "sketch"]) /\
                  level env (CAMERA_BUTTON_PIN cfg) (clock w') = false)).
    { intros w1 e1 T1 Hno Hc1.
      destruct (Quiet_sleep env 100 w1) as ([] & w2 & e2 & E2 & _).
      assert (F2 : trace w2 = trace w1 ++ [ESleep 100]
                   /\ clock w2 = (clock w1 + 100)%N).
      { unfold sleep in E2. now destruct (Ok_inj _ _ _ _ E2) as [_ <-]. }
      destruct F2 as [T2 C2].
      destruct (IH w2) as (w' & evs & E & T & Hb & Hend); [lia | lia |].
      exists w', (e1 ++ ESleep 100 :: evs). rewrite (bind_ok _ _ _ _ _ E2).
      split; [exact E|].
      split; [rewrite T, T2, T1, <- !app_assoc; reflexivity|].
      split; [lia|].
      destruct Hend as [[Hl Hn] | [(pre & ->) Hlow]].
      - left. split; [exact Hl|]. intros Hin.
        apply in_app_or in Hin as [Hin | [Hin | Hin]]; auto. discriminate Hin.
      - right. split; [|exact Hlow].
        exists (e1 ++ ESleep 100 :: pre). rewrite <- app_assoc. reflexivity. }
    destruct (debounced_press_cases cfg env (CAMERA_BUTTON_PIN cfg) w)
      as [(_ & w1 & E1 & C1 & T1) | (_ & w1 & E1 & C1 & T1)];
      rewrite (bind_ok _ _ _ _ _ E1).
    + destruct (level env (CAMERA_BUTTON_PIN cfg) (clock w + DEBOUNCE_TIME cfg))
        eqn:Hlv; cbn [negb].
      * destruct (Step w1 [ESleep (DEBOUNCE_TIME cfg)] T1) as (w' & evs & H);
          [intros [Hin | []]; discriminate Hin | lia |].
        exists w', evs. destruct H as (E & T & Hb & Hend). auto.
      * eexists _, [ESleep (DEBOUNCE_TIME cfg); EImageEffect "sketch"].
        split; [reflexivity|]. cbn [trace clock].
        split; [rewrite T1, <- app_assoc; reflexivity|].
        split; [right; lia|]. right. split.
        -- exists [ESleep (DEBOUNCE_TIME cfg)]. reflexivity.
        -- rewrite C1. exact Hlv.
    + destruct (Step w1 []) as (w' & evs & H);
        [rewrite app_nil_r; exact T1 | intros [] | lia |].
      exists w', evs. destruct H as (E & T & Hb & Hend). auto.
Qed.

(** X8: the effect preview window always closes, less than 2.1 s plus one
    debounce interval after it opened.  It closes either on a confirmed
    press of the capture button, the last call being the one that sets the
    image effect back to "sketch", with the button still low; or without
    that call, once at least two seconds have passed. *)
Theorem preview_window_closes (w : World) :
  exists w' evs,
    gpu_effect_loop cfg env gpu_effect_window_fuel (clock w) w = Ok tt w' /\
    trace w' = trace w ++ evs /\
    (clock w' < clock w + 2100 + DEBOUNCE_TIME cfg)%N /\
    ((clock w + 2000 <= clock w')%N /\ ~ In (EImageEffect "sketch") evs \/
     (exists pre, evs = pre ++ [EImageEffect "sketch"]) /\
     level env (CAMERA_BUTTON_PIN cfg) (clock w') = false).
Proof.
  destruct (gpu_effect_loop_run 20 (clock w) w) as (w' & evs & E & T & Hb & Hend);
    [lia | lia |].
  exists w', evs. split; [exact E|]. split; [exact T|]. split; [lia | exact Hend].
Qed.

End Preview.

(** ** The overlays on screen *)

Lemma remove_fresh (h : Z) (act : list Z) :
  ~ In h act -> List.remove Z.eq_dec h (h :: act) = act.
Proof. intros H. rewrite remove_cons. now apply notin_remove. Qed.

Lemma remove_under (h x : Z) (act : list Z) :
  x <> h -> List.remove Z.eq_dec h (x :: act) = x :: List.remove Z.eq_dec h act.
Proof. intros H. simpl. destruct (Z.eq_dec h x); congruence. Qed.

Lemma keeps_ret {A} (a : A) : keeps_screen (ret a).
Proof. intros w. now apply post_ret. Qed.

Lemma keeps_bind {A B} (m : M A) (k : A -> M B) :
  keeps_screen m -> (forall a, keeps_screen (k a)) -> keeps_screen (bind m k).
Proof.
  intros Hm Hk w. apply post_bind. intros a w1 E1 b w2 E2.
  rewrite (Hk a w1 b w2 E2). exact (Hm w a w1 E1).
Qed.

Lemma keeps_if {A} (b : bool) (m1 m2 : M A) :
  keeps_screen m1 -> keeps_screen m2 -> keeps_screen (if b then m1 else m2).
Proof. destruct b; auto. Qed.

Lemma keeps_for_each {A} (l : list A) (body : A -> M unit) :
  (forall x, keeps_screen (body x)) -> keeps_screen (for_each l body).
Proof.
  intros Hb. induction l as [|x l IH]; cbn [for_each].
  - apply keeps_ret.
  - apply keeps_bind; auto.
Qed.

(** A step that does not touch the screen. *)
Ltac off_screen :=
  let w := fresh "w" in let a := fresh "a" in let w' := fresh "w'" in
  let E := fresh "E" in
  intros w a w' E; cbv beta delta
    [emit print perf_counter GPIO_event_detected GPIO_input
     GPIO_remove_event_detect new_list list_append list_read sleep] in E;
  destruct (Ok_inj _ _ _ _ E) as [_ <-]; reflexivity.

Lemma keeps_emit (e : Event) : keeps_screen (emit e).
Proof. off_screen. Qed.

Lemma keeps_print (s : string) : keeps_screen (print s).
Proof. off_screen. Qed.

Lemma keeps_perf_counter : keeps_screen perf_counter.
Proof. off_screen. Qed.

Lemma keeps_event_detected (pin : Z) : keeps_screen (GPIO_event_detected pin).
Proof. off_screen. Qed.

Lemma keeps_remove_event_detect (pin : Z) :
  keeps_screen (GPIO_remove_event_detect pin).
Proof. off_screen. Qed.

Lemma keeps_add_event_detect (pin : Z) : keeps_screen (GPIO_add_event_detect pin).
Proof.
  intros w a w' E. unfold GPIO_add_event_detect in E.
  destruct (armed w pin); [discriminate|].
  now destruct (Ok_inj _ _ _ _ E) as [_ <-].
Qed.

Lemma keeps_new_list : keeps_screen new_list.
Proof. off_screen. Qed.

Lemma keeps_list_append (r : nat) (x : string) : keeps_screen (list_append r x).
Proof. off_screen. Qed.

Lemma keeps_list_read (r : nat) : keeps_screen (list_read r).
Proof. off_screen. Qed.

Lemma remove_overlay_screen (h : Z) (w : World) :
  h <> -1 ->
  post (remove_overlay h) w
       (fun _ w' => active w' = List.remove Z.eq_dec h (active w)).
Proof.
  intros Hh a w' E. unfold remove_overlay in E.
  replace (h =? -1) with false in E by (symmetry; now apply Z.eqb_neq).
  cbn [negb] in E. unfold CAMERA_remove_overlay in E.
  now destruct (Ok_inj _ _ _ _ E) as [_ <-].
Qed.

Section Screen.

Variable cfg : Config.
Variable env : Env.
Hypothesis Hal : well_behaved (alloc env).

Lemma keeps_sleep (ms : N) : keeps_screen (sleep env ms).
Proof. off_screen. Qed.

Lemma keeps_input (pin : Z) : keeps_screen (GPIO_input env pin).
Proof. off_screen. Qed.

Lemma overlay_image_screen (path : string) (layer : Z) (mode : string) (w : World) :
  post (overlay_image cfg env path layer mode) w
       (fun h w' => active w' = h :: active w /\ ~ In h (active w) /\
                    h <> 0 /\ h <> -1).
Proof.
  intros h w' E. unfold overlay_image, CAMERA_add_overlay in E.
  destruct (Ok_inj _ _ _ _ E) as [<- <-]. cbn [active].
  split; [reflexivity | apply Hal].
Qed.

Lemma keeps_debounced_press (pin : Z) : keeps_screen (debounced_press cfg env pin).
Proof.
  unfold debounced_press.
  apply keeps_bind; [apply keeps_event_detected | intros d].
  apply keeps_if; [|apply keeps_ret].
  apply keeps_bind; [apply keeps_sleep | intros _].
  apply keeps_bind; [apply keeps_input | intros lv; apply keeps_ret].
Qed.

Lemma keeps_gpu_effect_loop (fuel : nat) (tic : N) :
  keeps_screen (gpu_effect_loop cfg env fuel tic).
Proof.
  induction fuel as [|f IH]; cbn [gpu_effect_loop].
  - intros w a w' E. discriminate E.
  - apply keeps_bind; [apply keeps_perf_counter | intros t].
    apply keeps_if; [|apply keeps_ret].
    apply keeps_bind; [apply keeps_debounced_press | intros pressed].
    apply keeps_if; [apply keeps_emit|].
    apply keeps_bind; [apply keeps_sleep | intros _; exact IH].
Qed.

(** An overlay shown and taken off again leaves the screen as it was. *)
Lemma keeps_countdown_step (counter : Z) :
  keeps_screen (countdown_step cfg env counter).
Proof.
  unfold countdown_step. intros w. apply post_bind.
  intros h w1 E1. destruct (overlay_image_screen _ _ _ _ _ _ E1) as (A1 & F1 & _ & N1).
  apply post_bind. intros [] w2 E2. apply post_bind. intros [] w3 E3.
  intros [] w4 E4.
  rewrite (remove_overlay_screen h w3 N1 _ _ E4), (keeps_sleep _ _ _ _ E3),
    (keeps_print _ _ _ _ E2), A1.
  now apply remove_fresh.
Qed.

Lemma keeps_taking_photo (n : Z) (prefix : string) :
  keeps_screen (taking_photo cfg env n prefix).
Proof.
  unfold taking_photo.
  apply keeps_bind; [apply keeps_for_each, keeps_countdown_step | intros _].
  apply keeps_bind; [apply keeps_sleep | intros _].
  apply keeps_bind; [apply keeps_emit | intros _].
  apply keeps_bind; [apply keeps_emit | intros _].
  apply keeps_bind; [apply keeps_print | intros _; apply keeps_ret].
Qed.

Lemma keeps_capture_step (prefix : string) (r : nat) (n : Z) :
  keeps_screen (capture_step cfg env prefix r n).
Proof.
  unfold capture_step, prep_for_photo_screen. intros w. apply post_bind.
  intros h w1 E1. destruct (overlay_image_screen _ _ _ _ _ _ E1) as (A1 & F1 & _ & N1).
  apply post_bind. intros [] w2 E2. apply post_bind. intros [] w3 E3.
  apply post_bind. intros fname w4 E4. intros [] w5 E5.
  rewrite (keeps_list_append _ _ _ _ _ E5), (keeps_taking_photo _ _ _ _ _ E4),
    (remove_overlay_screen h w2 N1 _ _ E3), (keeps_sleep _ _ _ _ E2), A1.
  now apply remove_fresh.
Qed.

(** The slideshow replaces the overlay it finds on top by its last image. *)
Lemma playback_loop_screen (montage : string) (fs : list string) (prev : Z)
    (base : list Z) (w : World) :
  active w = prev :: base -> ~ In prev base -> prev <> 0 -> prev <> -1 ->
  post (playback_loop cfg env montage fs prev) w
       (fun h w' => active w' = h :: base /\ ~ In h base /\ h <> 0 /\ h <> -1).
Proof.
  revert prev w. induction fs as [|f fs IH]; intros prev w Hact Hfresh H0 H1;
    cbn [playback_loop].
  - apply post_ret. auto.
  - apply post_bind. intros this w1 E1.
    destruct (overlay_image_screen _ _ _ _ _ _ E1) as (A1 & F1 & T0 & T1).
    apply post_bind. intros [] w2 E2. apply post_bind. intros [] w3 E3.
    assert (A2 : active w2 = this :: base).
    { replace (truthy prev) with true in E2
        by (unfold truthy; symmetry; apply negb_true_iff; now apply Z.eqb_neq).
      rewrite (remove_overlay_screen prev w1 H1 _ _ E2), A1, Hact.
      rewrite remove_under, remove_fresh; auto.
      intros ->. apply F1. rewrite Hact. simpl. auto. }
    assert (A3 : active w3 = this :: base).
    { destruct (String.eqb f montage); now rewrite (keeps_sleep _ _ _ _ E3). }
    apply IH; auto. intros Hin. apply F1. rewrite Hact. simpl. auto.
Qed.

(** The playback leaves one more overlay on screen than it found: the
    "all done" overlay it returns. *)
Lemma playback_screen_screen (prefix : string) (r : nat) (w : World) :
  post (playback_screen cfg env prefix r) w
       (fun h w' => active w' = h :: active w /\ ~ In h (active w) /\
                    h <> 0 /\ h <> -1).
Proof.
  unfold playback_screen. apply post_bind. intros [] w1 E1.
  apply post_bind. intros h0 w2 E2.
  destruct (overlay_image_screen _ _ _ _ _ _ E2) as (A2 & F2 & Z2 & N2).
  rewrite (keeps_print _ _ _ _ E1) in A2, F2.
  apply post_bind. intros [] w3 E3. apply post_bind. intros [] w4 E4.
  apply post_bind. intros fs w5 E5. apply post_bind. intros h1 w6 E6.
  assert (A5 : active w5 = h0 :: active w).
  { now rewrite (keeps_list_read _ _ _ _ E5), (keeps_list_append _ _ _ _ _ E4),
      (keeps_emit _ _ _ _ E3). }
  destruct (playback_loop_screen _ _ _ _ _ A5 F2 Z2 N2 _ _ E6)
    as (A6 & F6 & Z6 & N6).
  apply post_bind. intros [] w7 E7. apply post_bind. intros h2 w8 E8.
  destruct (overlay_image_screen _ _ _ _ _ _ E8) as (A8 & F8 & Z8 & N8).
  rewrite (keeps_print _ _ _ _ E7), A6 in A8, F8.
  apply post_bind. intros [] w9 E9. apply post_ret.
  rewrite (remove_overlay_screen h1 w8 N6 _ _ E9), A8.
  rewrite remove_under, remove_fresh; auto.
  - repeat split; auto. intros Hin. apply F8. simpl. auto.
  - intros ->. apply F8. simpl. auto.
Qed.

End Screen.

(** ** Taking a photo (lines 235-257) *)

Section Countdown.

Variable cfg : Config.
Variable env : Env.

Lemma countdown_step_run (k : Z) (w : World) :
  exists w' h pd sz rm,
    countdown_step cfg env k w = Ok tt w' /\
    trace w' = trace w ++
      EAddOverlay (REAL_PATH env ++ "/assets/countdown_" ++ py_str k ++ ".png")
                  "RGBA" pd sz 5 h
      :: EPrint (" ..." ++ py_str k) :: ESleep 1000 :: rm /\
    (rm = [] \/ rm = [ERemoveOverlay h]).
Proof.
  unfold countdown_step.
  destruct (overlay_image_run cfg env
              (REAL_PATH env ++ "/assets/countdown_" ++ py_str k ++ ".png")
              5 "RGBA" w) as (h & pd & sz & w1 & E1 & T1 & _).
  rewrite (bind_ok _ _ _ _ _ E1).
  set (w2 := mkWorld (clock w1) (armed w1) (latch w1) (active w1) (lists w1)
                     (folders w1) (trace w1 ++ [EPrint (" ..." ++ py_str k)])).
  assert (E2 : print (" ..." ++ py_str k) w1 = Ok tt w2) by reflexivity.
  rewrite (bind_ok _ _ _ _ _ E2).
  destruct (Quiet_sleep env 1000 w2) as ([] & w3 & e3 & E3 & _).
  assert (T3 : trace w3 = trace w2 ++ [ESleep 1000]).
  { unfold sleep in E3. now destruct (Ok_inj _ _ _ _ E3) as [_ <-]. }
  rewrite (bind_ok _ _ _ _ _ E3).
  destruct (remove_overlay_run h w3) as (w4 & rm & E4 & T4 & _ & Hrm).
  exists w4, h, pd, sz, rm. split; [exact E4|]. split; [|exact Hrm].
  rewrite T4, T3. unfold w2. cbn [trace]. rewrite T1, <- !app_assoc. reflexivity.
Qed.

Lemma countdown_loop_run (ks : list Z) (w : World) :
  exists w' evs,
    for_each ks (countdown_step cfg env) w = Ok tt w' /\
    trace w' = trace w ++ evs /\
    (forall tail,
        slides 5 (evs ++ tail) =
        map (fun k => ((REAL_PATH env ++ "/assets/countdown_" ++ py_str k
                          ++ ".png")%string, Some 1000%N)) ks
        ++ slides 5 tail).
Proof.
  revert w. induction ks as [|k ks IH]; intros w.
  - exists w, []. rewrite app_nil_r. repeat split; auto.
  - destruct (countdown_step_run k w) as (w1 & h & pd & sz & rm & E1 & T1 & Hrm).
    destruct (IH w1) as (w2 & evs & E2 & T2 & S2).
    eexists w2, (_ ++ evs). cbn [for_each]. rewrite (bind_ok _ _ _ _ _ E1).
    split; [exact E2|]. split; [rewrite T2, T1, <- app_assoc; reflexivity|].
    intros tail. destruct Hrm as [-> | ->]; cbn; rewrite S2; reflexivity.
Qed.

(** X6: taking a photo shows the countdown images COUNTDOWN, ..., 1 on
    layer 5 in this order, each followed by a sleep of one second; then,
    half a second later, it clears the annotation text and captures to the
    file of the photo, once; the whole takes COUNTDOWN seconds and a
    half; and with a compositor whose handles are new and are neither 0
    nor -1, every countdown image has been taken off again: the overlays
    on screen are those there were before. *)
Theorem photo_countdown (photo_number : Z) (prefix : string) (w : World) :
  exists w' pre msg,
    taking_photo cfg env photo_number prefix w
      = Ok (photo_filename cfg prefix photo_number) w' /\
    trace w' = trace w ++ pre ++
      [ESleep 500; EAnnotate EmptyString;
       ECapture (photo_filename cfg prefix photo_number); EPrint msg] /\
    file_ops pre = [] /\
    slides 5 pre =
      map (fun k => ((REAL_PATH env ++ "/assets/countdown_" ++ py_str k
                        ++ ".png")%string, Some 1000%N))
          (py_range_down (COUNTDOWN cfg)) /\
    clock w' = (clock w + 1000 * Z.to_N (COUNTDOWN cfg) + 500)%N /\
    (well_behaved (alloc env) -> active w' = active w).
Proof.
  destruct (countdown_loop_run (py_range_down (COUNTDOWN cfg)) w)
    as (w1 & pre & E1 & T1 & S1).
  destruct (Quiet_for_each (py_range_down (COUNTDOWN cfg)) (countdown_step cfg env)
              (Quiet_countdown_step cfg env) w)
    as ([] & w1' & pre' & E1' & T1' & F1' & _).
  rewrite E1 in E1'. destruct (Ok_inj _ _ _ _ E1') as [_ <-].
  assert (pre' = pre) as -> by (rewrite T1 in T1'; now apply app_inv_head in T1').
  destruct (Quiet_sleep env 500 w1) as ([] & w2 & e2 & E2 & _).
  assert (T2 : trace w2 = trace w1 ++ [ESleep 500]).
  { unfold sleep in E2. now destruct (Ok_inj _ _ _ _ E2) as [_ <-]. }
  assert (E : exists w', taking_photo cfg env photo_number prefix w
                = Ok (photo_filename cfg prefix photo_number) w' /\
              trace w' = trace w2 ++
                [EAnnotate EmptyString;
                 ECapture (photo_filename cfg prefix photo_number);
                 EPrint ("Photo (" ++ py_str photo_number ++ ") saved: "
                           ++ photo_filename cfg prefix photo_number)]).
  { unfold taking_photo. rewrite (bind_ok _ _ _ _ _ E1), (bind_ok _ _ _ _ _ E2).
    eexists. split; [reflexivity|]. cbn [trace]. rewrite <- !app_assoc.
    reflexivity. }
  destruct E as (w' & E & T).
  eexists w', pre, _. split; [exact E|].
  split; [rewrite T, T2, T1, <- !app_assoc; reflexivity|].
  split; [exact F1'|]. split; [|split].
  - specialize (S1 []). rewrite !app_nil_r in S1. exact S1.
  - rewrite (takes_taking_photo cfg env _ _ _ _ _ E). lia.
  - intros Hal. exact (keeps_taking_photo cfg env Hal _ _ _ _ _ E).
Qed.

End Countdown.

Lemma photo_countdown_witness :
  exists w' pre msg,
    taking_photo walkup_cfg walkup_env 1 "photos/s" waiting_world
      = Ok (photo_filename walkup_cfg "photos/s" 1) w' /\
    trace w' = trace waiting_world ++ pre ++
      [ESleep 500; EAnnotate EmptyString;
       ECapture (photo_filename walkup_cfg "photos/s" 1); EPrint msg] /\
    file_ops pre = [] /\
    slides 5 pre =
      map (fun k => ((REAL_PATH walkup_env ++ "/assets/countdown_" ++ py_str k
                        ++ ".png")%string, Some 1000%N))
          (py_range_down (COUNTDOWN walkup_cfg)) /\
    clock w' = (clock waiting_world + 1000 * Z.to_N (COUNTDOWN walkup_cfg) + 500)%N /\
    active w' = active waiting_world.
Proof.
  destruct (photo_countdown walkup_cfg walkup_env 1 "photos/s" waiting_world)
    as (w' & pre & msg & E & T & F & S & C & A).
  exists w', pre, msg. repeat (split; [assumption|]).
  exact (A counting_handle_well_behaved).
Defined.

(** ** The sentinel and the handles of the camera *)

Section Handles.

Variable cfg : Config.
Variable env : Env.

(** One iteration of the slideshow loop (lines 274-282): the overlay that
    was up is removed when its handle passes the truth test of line 276
    and is not the sentinel, and is left alone otherwise. *)
Lemma playback_loop_step (montage f : string) (prev : Z) (w : World) :
  exists hn pd sz w',
    playback_loop cfg env montage [f] prev w = Ok hn w' /\
    trace w' = trace w ++
      EAddOverlay f "RGB" pd sz 6 hn
      :: (if truthy prev && negb (prev =? -1) then [ERemoveOverlay prev] else [])
      ++ [ESleep (hold_of montage f)].
Proof.
  unfold playback_loop, bind, overlay_image, CAMERA_add_overlay, hold_of,
    remove_overlay.
  destruct (truthy prev); cbn [andb]; [destruct (negb (prev =? -1))|];
    unfold CAMERA_remove_overlay, ret, sleep;
    destruct (String.eqb f montage); eexists _, _, _, _;
    (split; [reflexivity|]); cbn [trace app]; rewrite <- !app_assoc;
    reflexivity.
Qed.

(** C7, as the script has it: [remove_overlay] does nothing on the
    sentinel -1 and calls the camera on any other handle, 0 included; the
    slideshow loop, on its side, puts the handle to a truth test first and
    leaves a falsy one alone; and with the handles of a compositor that
    are new, truthy and different from -1, the playback takes off every
    overlay it has put up but the last, the one it returns. *)
Theorem sentinel_and_proper_handles (h prev : Z) (montage f prefix : string)
    (r : nat) (w : World) :
  remove_overlay (-1) w = Ok tt w /\
  (h <> -1 ->
   exists w', remove_overlay h w = Ok tt w' /\
              trace w' = trace w ++ [ERemoveOverlay h] /\
              active w' = List.remove Z.eq_dec h (active w)) /\
  (exists hn pd sz w',
     playback_loop cfg env montage [f] prev w = Ok hn w' /\
     trace w' = trace w ++
       EAddOverlay f "RGB" pd sz 6 hn
       :: (if truthy prev && negb (prev =? -1) then [ERemoveOverlay prev] else [])
       ++ [ESleep (hold_of montage f)]) /\
  (well_behaved (alloc env) -> (r < List.length (lists w))%nat ->
   exists ol_done w',
     playback_screen cfg env prefix r w = Ok ol_done w' /\
     active w' = ol_done :: active w).
Proof.
  split; [reflexivity|]. split; [|split].
  - intros Hh. destruct (remove_overlay_calls h w Hh) as (w' & E & T & A & _).
    exists w'. auto.
  - apply playback_loop_step.
  - intros Hal Hr.
    destruct (wp_playback_screen cfg env prefix r w (fun _ _ => True) Hr)
      as (ol & w' & E & _); [auto|].
    exists ol, w'. split; [exact E|].
    exact (proj1 (playback_screen_screen cfg env Hal prefix r w ol w' E)).
Qed.

End Handles.

Lemma sentinel_and_proper_handles_witness :
  remove_overlay (-1) archiving_world = Ok tt archiving_world /\
  (exists w', remove_overlay 0 archiving_world = Ok tt w' /\
              trace w' = trace archiving_world ++ [ERemoveOverlay 0] /\
              active w' = List.remove Z.eq_dec 0 (active archiving_world)) /\
  (exists ol_done w',
     playback_screen walkup_cfg walkup_env "photos/s" 0 archiving_world
       = Ok ol_done w' /\
     active w' = ol_done :: active archiving_world).
Proof.
  destruct (sentinel_and_proper_handles walkup_cfg walkup_env 0 7
              "photos/s.jpg" "a.jpg" "photos/s" 0 archiving_world)
    as (H1 & H2 & _ & H4).
  split; [exact H1|]. split.
  - apply H2. lia.
  - apply H4; [exact counting_handle_well_behaved | cbn; lia].
Defined.

(** ** Sessions and the waiting loop, end to end *)

Lemma Quiet_health_test_loop (fl checked : list string) :
  Quiet (health_test_loop fl checked).
Proof.
  revert checked. induction fl as [|f fl IH]; intros checked; cbn [health_test_loop].
  - apply Quiet_ret.
  - apply Quiet_bind; [|intros c; apply IH].
    unfold health_test_folder.
    assert (Qe : Quiet (os_path_exists f)).
    { intros w. exists (py_in f (folders w)), w, []. rewrite app_nil_r.
      repeat split; auto. apply N.le_refl. }
    assert (Qm : Quiet (os_makedirs f)).
    { intros w. eexists tt, _, [_]. unfold os_makedirs.
      repeat split; cbn; auto. apply N.le_refl. }
    apply Quiet_bind.
    + apply Quiet_if; [apply Quiet_ret|].
      apply Quiet_bind; [apply Quiet_print | intros _; apply Quiet_ret].
    + intros c. apply Quiet_bind; [exact Qe | intros present].
      apply Quiet_bind; [|intros _; apply Quiet_ret].
      apply Quiet_if; [|apply Quiet_ret].
      apply Quiet_bind; [apply Quiet_print | intros _; exact Qm].
Qed.

Lemma keeps_health_test_loop (fl checked : list string) :
  keeps_screen (health_test_loop fl checked).
Proof.
  revert checked. induction fl as [|f fl IH]; intros checked; cbn [health_test_loop].
  - apply keeps_ret.
  - apply keeps_bind; [|intros c; apply IH].
    unfold health_test_folder.
    apply keeps_bind.
    + apply keeps_if; [apply keeps_ret|].
      apply keeps_bind; [apply keeps_print | intros _; apply keeps_ret].
    + intros c. apply keeps_bind.
      * intros w a w' E. unfold os_path_exists in E.
        now destruct (Ok_inj _ _ _ _ E) as [_ <-].
      * intros present. apply keeps_bind; [|intros _; apply keeps_ret].
        apply keeps_if; [|apply keeps_ret].
        apply keeps_bind; [apply keeps_print | intros _].
        intros w a w' E. unfold os_makedirs in E.
        now destruct (Ok_inj _ _ _ _ E) as [_ <-].
Qed.

(** The falling edges of a stretch of time are those of its two parts. *)
Lemma fell_app (sig : N -> bool) (t : N) (n m : nat) :
  fell sig t (n + m) = fell sig t n || fell sig (t + N.of_nat n) m.
Proof.
  revert t. induction n as [|n IH]; intros t.
  - cbn [Nat.add N.of_nat]. rewrite N.add_0_r. reflexivity.
  - cbn [Nat.add]. unfold fell; fold fell. rewrite IH, orb_assoc.
    replace (N.succ t + N.of_nat n)%N with (t + N.of_nat (S n))%N by lia.
    reflexivity.
Qed.

Lemma fell_high (sig : N -> bool) (t : N) (n : nat) :
  (forall u, sig u = true) -> fell sig t n = false.
Proof.
  intros H. revert t. induction n as [|n IH]; intros t;
    unfold fell; fold fell; [reflexivity|].
  rewrite !H, IH. reflexivity.
Qed.

Section EndToEnd.

Variable cfg : Config.
Variable env : Env.

Lemma keeps_archive (r : nat) : keeps_screen (archive cfg env r).
Proof.
  unfold archive. apply keeps_for_each. intros dest.
  apply keeps_bind; [apply keeps_list_read | intros srcs].
  apply keeps_for_each. intros src. unfold copy_pair, copy2.
  apply keeps_bind; [apply keeps_print | intros _].
  apply keeps_bind; [apply keeps_emit | intros _].
  apply keeps_if; [|apply keeps_ret].
  intros w a w' E. discriminate E.
Qed.

Lemma wp_add_event_detect (pin : Z) (w : World) (Q : unit -> World -> Prop) :
  armed w pin = false ->
  (forall w', armed w' pin = true -> latch w' pin = false ->
              (forall p, p <> pin ->
                         armed w' p = armed w p /\ latch w' p = latch w p) ->
              trace w' = trace w -> active w' = active w -> Q tt w') ->
  wp (GPIO_add_event_detect pin) w Q.
Proof.
  intros Ha HQ.
  eapply wp_ok; [unfold GPIO_add_event_detect; rewrite Ha; reflexivity|].
  apply HQ; cbn; auto.
  - now rewrite Z.eqb_refl.
  - now rewrite Z.eqb_refl.
  - intros p Hp. apply Z.eqb_neq in Hp. rewrite Hp. auto.
Qed.

(** The start of [main] arms both buttons with clear latches and creates no
    picture file. *)
Lemma startup_run (w : World) :
  armed w (CAMERA_BUTTON_PIN cfg) = false ->
  armed w (EXIT_BUTTON_PIN cfg) = false ->
  CAMERA_BUTTON_PIN cfg <> EXIT_BUTTON_PIN cfg ->
  exists l w' evs,
    main_startup cfg env w = Ok l w' /\
    trace w' = trace w ++ evs /\ file_ops evs = [] /\
    armed_and_clear cfg w' /\ loc_i l = 0.
Proof.
  intros Hc He Hne.
  cut (wp (main_startup cfg env) w
          (fun l w' => (exists evs, trace w' = trace w ++ evs /\ file_ops evs = [])
                       /\ armed_and_clear cfg w' /\ loc_i l = 0)).
  { intros (l & w' & E & (evs & T & F) & AC & Hi). exists l, w', evs. auto. }
  unfold main_startup.
  apply wp_bind, wp_quiet; [apply Quiet_print | intros _ w1 F1 _].
  apply wp_bind, wp_quiet; [apply Quiet_print | intros _ w2 F2 _].
  apply wp_bind, wp_quiet; [apply Quiet_print | intros _ w3 F3 _].
  apply wp_bind, wp_quiet; [apply Quiet_print | intros _ w4 F4 _].
  apply wp_bind, wp_quiet; [apply Quiet_print | intros _ w5 F5 _].
  apply wp_bind, wp_quiet; [apply Quiet_print | intros _ w6 F6 _].
  apply wp_bind, wp_quiet; [apply Quiet_health_test_loop | intros _ w7 F7 _].
  apply wp_bind, wp_quiet; [apply Quiet_overlay_image | intros o1 w8 F8 _].
  apply wp_bind, wp_quiet; [apply Quiet_overlay_image | intros o2 w9 F9 _].
  apply wp_bind, wp_quiet; [now apply Quiet_emit | intros _ w10 F10 _].
  pose proof (frame_quiet_l _ _ _ _ F1 (frame_quiet_l _ _ _ _ F2
    (frame_quiet_l _ _ _ _ F3 (frame_quiet_l _ _ _ _ F4
      (frame_quiet_l _ _ _ _ F5 (frame_quiet_l _ _ _ _ F6
        (frame_quiet_l _ _ _ _ F7 (frame_quiet_l _ _ _ _ F8
          (frame_quiet_l _ _ _ _ F9 F10)))))))))
    as (A10 & _ & evs & T10 & Fo10).
  apply wp_bind, wp_add_event_detect; [congruence|].
  intros w11 Ac11 Lc11 O11 T11 _.
  apply wp_bind, wp_add_event_detect.
  { rewrite (proj1 (O11 _ (not_eq_sym Hne))). congruence. }
  intros w12 Ae12 Le12 O12 T12 _.
  eapply wp_ok; [reflexivity|]. split; [|split; [|reflexivity]].
  - exists evs. split; [congruence | exact Fo10].
  - unfold armed_and_clear.
    destruct (O12 _ Hne) as [Ha Hl]. rewrite Ha, Hl. auto.
Qed.

End EndToEnd.

Section WaitingLoop.

Variable cfg : Config.
Variable env : Env.

(** With distinct pins and copies that succeed, a session returns: in test
    mode it breaks out of the loop with both pins disarmed, otherwise it
    goes round with both pins armed and both latches clear. *)
Lemma session_returns (l : Locals) (w : World) :
  CAMERA_BUTTON_PIN cfg <> EXIT_BUTTON_PIN cfg ->
  (forall s d, copy_fails env s d = false) ->
  exists c l' w',
    session cfg env l w = Ok (c, l') w' /\
    (if TESTMODE_AUTOPRESS_BUTTON cfg
     then c = CBreak /\ l' = l /\
          armed w' (CAMERA_BUTTON_PIN cfg) = false /\
          armed w' (EXIT_BUTTON_PIN cfg) = false
     else c = CContinue /\ armed_and_clear cfg w').
Proof.
  intros Hne Hok.
  destruct (wp_capture_phase cfg env l w
              (fun _ w1 => armed w1 (CAMERA_BUTTON_PIN cfg) = false /\
                           armed w1 (EXIT_BUTTON_PIN cfg) = false))
    as ([[prefix ref] h] & w1 & E1 & Ac1 & Ae1); [auto|].
  destruct (Quiet_sleep env 2000 w1) as ([] & w2 & e2 & E2 & _ & _ & A2 & _).
  destruct (copy_all_ok env
              (archive_pairs (COPY_IMAGES_TO cfg) (nth ref (lists w2) [])) w2)
    as (w3 & E3 & (A3 & _) & _); [intros p _; apply Hok|].
  rewrite <- archive_flat in E3.
  unfold session. rewrite (bind_ok _ _ _ _ _ E1). cbv beta iota.
  rewrite (bind_ok _ _ _ _ _ E2), (bind_ok _ _ _ _ _ E3).
  destruct (TESTMODE_AUTOPRESS_BUTTON cfg).
  - exists CBreak, l, w3. split; [reflexivity|]. repeat split; congruence.
  - destruct (rearm_run cfg env l h w3) as (l' & w4 & E4 & H4);
      [congruence | congruence | exact Hne |].
    exists CContinue, l', w4. rewrite (bind_ok _ _ _ _ _ E4).
    split; [reflexivity|]. split; [reflexivity | exact H4].
Qed.

Lemma idle_blink_run (l : Locals) (w : World) :
  exists l' w' evs,
    idle_blink env l w = Ok l' w' /\
    trace w' = trace w ++ evs /\ file_ops evs = [] /\
    armed w' = armed w /\ active w' = active w /\
    clock w' = (clock w + 100)%N /\
    (forall p, latch w' p =
               latch w p || (armed w p && fell (level env p) (clock w) (N.to_nat 100))) /\
    loc_overlay_1 l' = loc_overlay_1 l /\ loc_overlay_2 l' = loc_overlay_2 l.
Proof.
  unfold idle_blink, bind.
  destruct (loc_i l + 1 =? blink_speed);
    [|destruct (loc_i l + 1 =? 2 * blink_speed)];
    unfold emit, ret, sleep; cbn [clock armed latch active trace].
  - eexists _, _, [_; _]. rewrite <- app_assoc. repeat split; reflexivity.
  - eexists _, _, [_; _]. rewrite <- app_assoc. repeat split; reflexivity.
  - eexists _, _, [_]. repeat split; reflexivity.
Qed.

(** An iteration of the waiting loop during which neither button goes
    down. *)
Lemma idle_tick (l : Locals) (w : World) :
  TESTMODE_AUTOPRESS_BUTTON cfg = false ->
  armed_and_clear cfg w ->
  fell (level env (CAMERA_BUTTON_PIN cfg)) (clock w) (N.to_nat 100) = false ->
  fell (level env (EXIT_BUTTON_PIN cfg)) (clock w) (N.to_nat 100) = false ->
  exists l' w' evs,
    loop_body cfg env l w = Ok (CContinue, l') w' /\
    trace w' = trace w ++ evs /\ file_ops evs = [] /\
    armed_and_clear cfg w' /\ active w' = active w /\
    clock w' = (clock w + 100)%N /\
    loc_overlay_1 l' = loc_overlay_1 l /\ loc_overlay_2 l' = loc_overlay_2 l.
Proof.
  intros Htest (Ac & Ae & Lc & Le) Fc Fe.
  destruct (debounced_press_unlatched cfg env (CAMERA_BUTTON_PIN cfg) w)
    as (w1 & E1 & A1 & L1 & T1); [rewrite Lc; apply andb_false_r|].
  destruct (debounced_press_cases cfg env (CAMERA_BUTTON_PIN cfg) w)
    as [(H & _) | (_ & w1' & E1' & C1 & _)];
    [rewrite Lc, andb_false_r in H; discriminate|].
  rewrite E1 in E1'. destruct (Ok_inj _ _ _ _ E1') as [_ <-].
  pose proof (keeps_debounced_press cfg env _ _ _ _ E1) as S1.
  destruct (debounced_press_unlatched cfg env (EXIT_BUTTON_PIN cfg) w1)
    as (w2 & E2 & A2 & L2 & T2); [rewrite (L1 _ Le); apply andb_false_r|].
  destruct (debounced_press_cases cfg env (EXIT_BUTTON_PIN cfg) w1)
    as [(H & _) | (_ & w2' & E2' & C2 & _)];
    [rewrite (L1 _ Le), andb_false_r in H; discriminate|].
  rewrite E2 in E2'. destruct (Ok_inj _ _ _ _ E2') as [_ <-].
  pose proof (keeps_debounced_press cfg env _ _ _ _ E2) as S2.
  destruct (idle_blink_run l w2)
    as (l' & w3 & evs & E3 & T3 & F3 & A3 & S3 & C3 & L3 & O1 & O2).
  exists l', w3, evs. unfold loop_body.
  rewrite (bind_ok _ _ _ _ _ E1), (bind_ok _ _ _ _ _ E2), Htest. cbn [negb].
  rewrite (bind_ok _ _ _ _ _ E3).
  split; [reflexivity|]. split; [congruence|]. split; [exact F3|].
  split; [|repeat split; congruence].
  unfold armed_and_clear. rewrite !L3, A3, A2, A1, C2, C1, Fc, Fe, Ac, Ae.
  rewrite (L2 _ (L1 _ Lc)), (L2 _ (L1 _ Le)). auto.
Qed.

Lemma main_loop_idles (fuel : nat) (l : Locals) (w : World) :
  TESTMODE_AUTOPRESS_BUTTON cfg = false ->
  (forall t, level env (CAMERA_BUTTON_PIN cfg) t = true) ->
  (forall t, level env (EXIT_BUTTON_PIN cfg) t = true) ->
  armed_and_clear cfg w ->
  main_loop cfg env fuel l w = OutOfFuel.
Proof.
  intros Htest Hc He. revert l w. induction fuel as [|f IH]; intros l w AC.
  - reflexivity.
  - destruct (idle_tick l w Htest AC) as (l' & w' & evs & E & _ & _ & AC' & _);
      [now apply fell_high | now apply fell_high |].
    cbn [main_loop]. rewrite (bind_ok _ _ _ _ _ E). cbn [fst snd]. now apply IH.
Qed.

(** X11: outside test mode, as long as neither button is ever pressed, the
    booth never leaves its waiting loop: [main] does not return, whatever
    the number of iterations it is given. *)
Theorem booth_waits_until_a_button_is_pressed (w : World) (fuel : nat) :
  TESTMODE_AUTOPRESS_BUTTON cfg = false ->
  armed w (CAMERA_BUTTON_PIN cfg) = false ->
  armed w (EXIT_BUTTON_PIN cfg) = false ->
  CAMERA_BUTTON_PIN cfg <> EXIT_BUTTON_PIN cfg ->
  (forall t, level env (CAMERA_BUTTON_PIN cfg) t = true) ->
  (forall t, level env (EXIT_BUTTON_PIN cfg) t = true) ->
  main cfg env fuel w = OutOfFuel.
Proof.
  intros Htest Ac Ae Hne Hc He.
  destruct (startup_run cfg env w Ac Ae Hne) as (l & w1 & evs & E & _ & _ & AC & _).
  unfold main. rewrite (bind_ok _ _ _ _ _ E). now apply main_loop_idles.
Qed.

(** X12: in test mode, whatever the buttons do, [main] runs exactly one
    session and returns: one iteration of its loop is enough; the run
    issues the N captures and then the montage, and it ends with both
    buttons disarmed, the waiting screen not set up again. *)
Theorem test_mode_runs_one_session (w : World) (fuel : nat) :
  TESTMODE_AUTOPRESS_BUTTON cfg = true ->
  armed w (CAMERA_BUTTON_PIN cfg) = false ->
  armed w (EXIT_BUTTON_PIN cfg) = false ->
  CAMERA_BUTTON_PIN cfg <> EXIT_BUTTON_PIN cfg ->
  (forall s d, copy_fails env s d = false) ->
  exists base w' evs,
    main cfg env (S fuel) w = Ok tt w' /\
    trace w' = trace w ++ evs /\
    produced evs =
      map (fun i => ECapture (photo_filename cfg base i))
          (py_range 1 (TOTAL_PICS cfg + 1))
      ++ [EMontage (base ++ "*")%string
                   (inject_Z (PHOTO_W cfg) / 2)%Q (inject_Z (PHOTO_H cfg) / 2)%Q
                   (montage_filename base)] /\
    armed w' (CAMERA_BUTTON_PIN cfg) = false /\
    armed w' (EXIT_BUTTON_PIN cfg) = false.
Proof.
  intros Htest Ac Ae Hne Hok.
  destruct (startup_run cfg env w Ac Ae Hne)
    as (l & w1 & e1 & E1 & T1 & F1 & (Ac1 & Ae1 & Lc1 & Le1) & _).
  destruct (debounced_press_unlatched cfg env (CAMERA_BUTTON_PIN cfg) w1)
    as (w2 & E2 & A2 & L2 & T2); [rewrite Lc1; apply andb_false_r|].
  destruct (debounced_press_unlatched cfg env (EXIT_BUTTON_PIN cfg) w2)
    as (w3 & E3 & A3 & L3 & T3); [rewrite (L2 _ Le1); apply andb_false_r|].
  destruct (session_returns l w3 Hne Hok) as (c & l' & w4 & E4 & H4).
  rewrite Htest in H4. destruct H4 as (-> & -> & Ac4 & Ae4).
  destruct (session_file_ops cfg env l w3)
    as (base & copies & (w4' & e4 & E4' & T4 & F4) & _ & _).
  rewrite E4 in E4'. injection E4' as <-.
  assert (EL : loop_body cfg env l w1 = Ok (CBreak, l) w4).
  { unfold loop_body.
    rewrite (bind_ok _ _ _ _ _ E2), (bind_ok _ _ _ _ _ E3), Htest.
    cbn [negb]. exact E4. }
  exists base, w4, (e1 ++ e4). split; [|split; [|split; [|auto]]].
  - unfold main. rewrite (bind_ok _ _ _ _ _ E1). cbn [main_loop].
    rewrite (bind_ok _ _ _ _ _ EL). reflexivity.
  - rewrite T4, T3, T2, T1. symmetry. apply app_assoc.
  - rewrite <- produced_file_ops, file_ops_app, F1, F4, app_nil_l.
    rewrite !produced_app, produced_copies, app_nil_r.
    rewrite (produced_captures (photo_filename cfg base)). reflexivity.
Qed.

End WaitingLoop.

Section IntroScreen.

Variable cfg : Config.
Variable env : Env.
Hypothesis Hal : well_behaved (alloc env).

Lemma capture_phase_screen (l : Locals) (w : World) :
  loc_overlay_1 l <> -1 -> loc_overlay_2 l <> -1 ->
  post (capture_phase cfg env l) w
       (fun r w' =>
          let rest := List.remove Z.eq_dec (loc_overlay_1 l)
                        (List.remove Z.eq_dec (loc_overlay_2 l) (active w)) in
          active w' = snd r :: rest /\ ~ In (snd r) rest /\ snd r <> -1).
Proof.
  intros H1 H2. unfold capture_phase.
  apply post_bind. intros [] w1 E1. apply post_bind. intros [] w2 E2.
  apply post_bind. intros [] w3 E3. apply post_bind. intros [] w4 E4.
  apply post_bind. intros [] w5 E5. apply post_bind. intros [] w6 E6.
  apply post_bind. intros [] w7 E7. apply post_bind. intros prefix w8 E8.
  apply post_bind. intros r w9 E9. apply post_bind. intros [] w10 E10.
  apply post_bind. intros h w11 E11. apply post_ret. cbn [snd].
  assert (K5 : active w5 = active w4).
  { revert E5. apply (keeps_if _ _ _ (keeps_bind _ _ keeps_perf_counter
      (fun tic => keeps_gpu_effect_loop cfg env gpu_effect_window_fuel tic))
      (keeps_ret tt)). }
  assert (K8 : active w8 = active w7).
  { revert E8. unfold get_base_filename_for_images.
    apply (keeps_bind _ _ keeps_perf_counter (fun t => keeps_ret _)). }
  assert (A10 : active w10 =
                List.remove Z.eq_dec (loc_overlay_1 l)
                  (List.remove Z.eq_dec (loc_overlay_2 l) (active w))).
  { rewrite (keeps_for_each _ _ (keeps_capture_step cfg env Hal prefix r) _ _ _ E10),
      (keeps_new_list _ _ _ E9), K8,
      (keeps_remove_event_detect _ _ _ _ E7),
      (keeps_remove_event_detect _ _ _ _ E6), K5, (keeps_emit _ _ _ _ E4),
      (remove_overlay_screen _ _ H1 _ _ E3), (remove_overlay_screen _ _ H2 _ _ E2),
      (keeps_print _ _ _ _ E1).
    reflexivity. }
  destruct (playback_screen_screen cfg env Hal prefix r w10 _ _ E11)
    as (A11 & F11 & _ & N11).
  rewrite A10 in A11, F11. auto.
Qed.

Lemma rearm_screen (l : Locals) (h : Z) (rest : list Z) (w : World) :
  active w = h :: rest -> ~ In h rest -> h <> -1 ->
  post (rearm cfg env l h) w
       (fun l' w' =>
          active w' = loc_overlay_2 l' :: loc_overlay_1 l' :: rest /\
          loc_overlay_1 l' <> loc_overlay_2 l' /\
          loc_overlay_1 l' <> -1 /\ loc_overlay_2 l' <> -1).
Proof.
  intros Hact Hfresh Hh. unfold rearm.
  apply post_bind. intros o1 w1 E1.
  destruct (overlay_image_screen cfg env Hal _ _ _ _ _ _ E1) as (A1 & F1 & _ & N1).
  apply post_bind. intros o2 w2 E2.
  destruct (overlay_image_screen cfg env Hal _ _ _ _ _ _ E2) as (A2 & F2 & _ & N2).
  rewrite Hact in A1, F1. rewrite A1 in A2, F2.
  apply post_bind. intros [] w3 E3. apply post_bind. intros [] w4 E4.
  apply post_bind. intros [] w5 E5. apply post_bind. intros [] w6 E6.
  apply post_ret. cbn [loc_overlay_1 loc_overlay_2].
  rewrite (keeps_print _ _ _ _ E6), (keeps_add_event_detect _ _ _ _ E5),
    (keeps_add_event_detect _ _ _ _ E4), (remove_overlay_screen _ _ Hh _ _ E3), A2.
  assert (D1 : o1 <> h) by (intros ->; apply F1; simpl; auto).
  assert (D2 : o2 <> h) by (intros ->; apply F2; simpl; auto).
  rewrite (remove_under h o2 _ D2), (remove_under h o1 _ D1), remove_fresh
    by exact Hfresh.
  repeat split; auto. intros ->. apply F2. simpl. auto.
Qed.

(** X9: with a compositor that hands out proper handles, a session that
    starts from the waiting screen (the two intro overlays, nothing else)
    ends on the waiting screen again: every overlay it put up in between
    has been taken off, the buttons are armed and their latches clear. *)
Theorem session_restores_waiting_screen (l : Locals) (w : World) :
  TESTMODE_AUTOPRESS_BUTTON cfg = false ->
  CAMERA_BUTTON_PIN cfg <> EXIT_BUTTON_PIN cfg ->
  (forall s d, copy_fails env s d = false) ->
  intro_screen l w ->
  exists l' w',
    session cfg env l w = Ok (CContinue, l') w' /\
    intro_screen l' w' /\ armed_and_clear cfg w'.
Proof.
  intros Htest Hne Hok (Hact & Hd & H1 & H2).
  destruct (session_returns cfg env l w Hne Hok) as (c & l' & w' & E & H).
  rewrite Htest in H. destruct H as [-> AC].
  exists l', w'. split; [exact E|]. split; [|exact AC].
  unfold session in E.
  apply bind_inv in E as ([[prefix r] h] & w1 & E1 & E).
  apply bind_inv in E as ([] & w2 & E2 & E).
  apply bind_inv in E as ([] & w3 & E3 & E).
  rewrite Htest in E.
  apply bind_inv in E as (l'' & w4 & E4 & E).
  unfold ret in E. destruct (Ok_inj _ _ _ _ E) as [El <-].
  injection El as <-.
  destruct (capture_phase_screen l w H1 H2 _ _ E1) as (A1 & F1 & N1).
  cbn [snd] in A1, F1, N1. rewrite Hact in A1, F1.
  rewrite remove_fresh in A1, F1
    by (intros [E' | []]; apply Hd; auto).
  rewrite remove_fresh in A1, F1 by (intros []).
  apply (rearm_screen l h [] w3); auto.
  rewrite (keeps_archive cfg env _ _ _ _ E3), (keeps_sleep env _ _ _ _ E2).
  exact A1.
Qed.

(** X10: started with no overlay on screen and no pin armed, and with
    folders of plain names, [main] reaches its waiting loop with exactly
    the two intro overlays on screen, both buttons armed and both latches
    clear, and the blink counter at 0; the folder check has been through
    by then: the raw-image folder and every archive folder exist, next to
    the folders there were. *)
Theorem startup_reaches_waiting_screen (w : World) :
  plain_folders cfg ->
  armed w (CAMERA_BUTTON_PIN cfg) = false ->
  armed w (EXIT_BUTTON_PIN cfg) = false ->
  CAMERA_BUTTON_PIN cfg <> EXIT_BUTTON_PIN cfg ->
  active w = [] ->
  exists l w',
    main_startup cfg env w = Ok l w' /\
    intro_screen l w' /\ armed_and_clear cfg w' /\ loc_i l = 0 /\
    (forall f, In f (folders w') <-> In f (folders w) \/ In f (folders_list cfg)).
Proof.
  intros _ Ac Ae Hne Hact.
  destruct (startup_run cfg env w Ac Ae Hne) as (l & w' & evs & E & _ & _ & AC & Hi).
  exists l, w'. split; [exact E|].
  unfold main_startup in E.
  apply bind_inv in E as ([] & w1 & E1 & E).
  apply bind_inv in E as ([] & w2 & E2 & E).
  apply bind_inv in E as ([] & w3 & E3 & E).
  apply bind_inv in E as ([] & w4 & E4 & E).
  apply bind_inv in E as ([] & w5 & E5 & E).
  apply bind_inv in E as ([] & w6 & E6 & E).
  apply bind_inv in E as ([] & w7 & E7 & E).
  apply bind_inv in E as (o1 & w8 & E8 & E).
  apply bind_inv in E as (o2 & w9 & E9 & E).
  apply bind_inv in E as ([] & w10 & E10 & E).
  apply bind_inv in E as ([] & w11 & E11 & E).
  apply bind_inv in E as ([] & w12 & E12 & E).
  unfold ret in E. destruct (Ok_inj _ _ _ _ E) as [<- <-].
  destruct (overlay_image_screen cfg env Hal _ _ _ _ _ _ E8) as (A8 & F8 & _ & N8).
  destruct (overlay_image_screen cfg env Hal _ _ _ _ _ _ E9) as (A9 & F9 & _ & N9).
  assert (A7 : active w7 = []).
  { rewrite (keeps_health_test_loop _ _ _ _ _ E7), (keeps_print _ _ _ _ E6),
      (keeps_print _ _ _ _ E5), (keeps_print _ _ _ _ E4), (keeps_print _ _ _ _ E3),
      (keeps_print _ _ _ _ E2), (keeps_print _ _ _ _ E1). exact Hact. }
  rewrite A7 in A8. rewrite A8 in A9, F9.
  split; [|split; [exact AC | split; [exact Hi|]]].
  - unfold intro_screen. cbn [loc_overlay_1 loc_overlay_2].
    rewrite (keeps_add_event_detect _ _ _ _ E12), (keeps_add_event_detect _ _ _ _ E11),
      (keeps_emit _ _ _ _ E10), A9.
    repeat split; auto. intros ->. apply F9. simpl. auto.
  - assert (P : forall s u u', print s u = Ok tt u' -> folders u' = folders u).
    { intros s u u' Eu. unfold print, emit in Eu.
      now destruct (Ok_inj _ _ _ _ Eu) as [_ <-]. }
    assert (O : forall path ly md u h u',
               overlay_image cfg env path ly md u = Ok h u' ->
               folders u' = folders u).
    { intros path ly md u h u' Eu. unfold overlay_image, CAMERA_add_overlay in Eu.
      now destruct (Ok_inj _ _ _ _ Eu) as [_ <-]. }
    assert (G : forall pin u u', GPIO_add_event_detect pin u = Ok tt u' ->
                                 folders u' = folders u).
    { intros pin u u' Eu. unfold GPIO_add_event_detect in Eu.
      destruct (armed u pin); [discriminate Eu|].
      now destruct (Ok_inj _ _ _ _ Eu) as [_ <-]. }
    assert (F6 : folders w6 = folders w).
    { rewrite (P _ _ _ E6), (P _ _ _ E5), (P _ _ _ E4), (P _ _ _ E3),
        (P _ _ _ E2), (P _ _ _ E1). reflexivity. }
    assert (F12 : folders w12 = folders w7).
    { rewrite (G _ _ _ E12), (G _ _ _ E11).
      unfold emit in E10. destruct (Ok_inj _ _ _ _ E10) as [_ <-]. cbn [folders].
      rewrite (O _ _ _ _ _ _ E9), (O _ _ _ _ _ _ E8). reflexivity. }
    destruct (health_test_loop_run (folders_list cfg) [] w6)
      as (w7' & e7 & E7' & _ & F7 & _).
    unfold health_test_required_folders in E7. fold (folders_list cfg) in E7.
    rewrite E7 in E7'. destruct (Ok_inj _ _ _ _ E7') as [_ <-].
    intros f. rewrite F12, F7, F6. reflexivity.
Qed.

End IntroScreen.

Lemma session_restores_waiting_screen_witness :
  exists l' w',
    session walkup_cfg (sample_env exit_hammered counting_handle never_fails)
            waiting_locals waiting_world = Ok (CContinue, l') w' /\
    intro_screen l' w' /\ armed_and_clear walkup_cfg w'.
Proof.
  apply (session_restores_waiting_screen walkup_cfg
           (sample_env exit_hammered counting_handle never_fails)
           counting_handle_well_behaved waiting_locals waiting_world).
  - reflexivity.
  - cbn. lia.
  - intros s d. reflexivity.
  - unfold intro_screen. cbn. repeat split; lia.
Defined.

Lemma startup_reaches_waiting_screen_witness :
  exists l w',
    main_startup walkup_cfg (sample_env released counting_handle never_fails)
                 fresh_world = Ok l w' /\
    intro_screen l w' /\ armed_and_clear walkup_cfg w' /\ loc_i l = 0 /\
    (forall f, In f (folders w') <->
               In f (folders fresh_world) \/ In f (folders_list walkup_cfg)).
Proof.
  apply (startup_reaches_waiting_screen walkup_cfg
           (sample_env released counting_handle never_fails)
           counting_handle_well_behaved fresh_world).
  - intros f [<- | [<- | []]]; reflexivity.
  - reflexivity.
  - reflexivity.
  - cbn. lia.
  - reflexivity.
Defined.

Lemma booth_waits_until_a_button_is_pressed_witness :
  main walkup_cfg (sample_env released counting_handle never_fails) 1000
       fresh_world = OutOfFuel.
Proof.
  apply (booth_waits_until_a_button_is_pressed walkup_cfg
           (sample_env released counting_handle never_fails) fresh_world 1000).
  - reflexivity.
  - reflexivity.
  - reflexivity.
  - cbn. lia.
  - intros t. reflexivity.
  - intros t. reflexivity.
Defined.

Lemma test_mode_runs_one_session_witness :
  exists base w' evs,
    main booth_cfg booth_env (S 0) fresh_world = Ok tt w' /\
    trace w' = trace fresh_world ++ evs /\
    produced evs =
      map (fun i => ECapture (photo_filename booth_cfg base i))
          (py_range 1 (TOTAL_PICS booth_cfg + 1))
      ++ [EMontage (base ++ "*")%string
                   (inject_Z (PHOTO_W booth_cfg) / 2)%Q
                   (inject_Z (PHOTO_H booth_cfg) / 2)%Q
                   (montage_filename base)] /\
    armed w' (CAMERA_BUTTON_PIN booth_cfg) = false /\
    armed w' (EXIT_BUTTON_PIN booth_cfg) = false.
Proof.
  apply (test_mode_runs_one_session booth_cfg booth_env fresh_world 0).
  - reflexivity.
  - reflexivity.
  - reflexivity.
  - cbn. lia.
  - intros s d. reflexivity.
Defined.

(** ** One edge, one report; no photo to take *)

Section Edges.

Variable cfg : Config.
Variable env : Env.

(** X13: a poll uses up the latch of its pin: when the line of the pin
    shows no falling edge from the start of a poll to the end of the sleep
    that follows it (so neither during the debounce sleep of the poll nor
    during the sleep before the next one), the next poll reports no press,
    whatever the first one reported, and returns at once, without a
    debounce sleep. *)
Theorem press_is_reported_once (pin : Z) (d : N) (w : World) :
  fell (level env pin) (clock w) (N.to_nat (DEBOUNCE_TIME cfg + d)) = false ->
  exists b w1 w2 w3,
    debounced_press cfg env pin w = Ok b w1 /\
    sleep env d w1 = Ok tt w2 /\
    debounced_press cfg env pin w2 = Ok false w3 /\
    clock w3 = clock w2 /\ trace w3 = trace w2.
Proof.
  intros Hfell.
  assert (HD : fell (level env pin) (clock w) (N.to_nat (DEBOUNCE_TIME cfg)) = false
               /\ fell (level env pin) (clock w + DEBOUNCE_TIME cfg)
                       (N.to_nat d) = false).
  { rewrite N2Nat.inj_add, fell_app, N2Nat.id in Hfell.
    now apply orb_false_iff in Hfell. }
  assert (Hd : fell (level env pin) (clock w) (N.to_nat d) = false).
  { rewrite N.add_comm, N2Nat.inj_add, fell_app in Hfell.
    now apply orb_false_iff in Hfell. }
  destruct HD as [HD1 HD2].
  assert (H1 : exists b w1, debounced_press cfg env pin w = Ok b w1 /\
                            latch w1 pin = false /\
                            fell (level env pin) (clock w1) (N.to_nat d) = false).
  { unfold debounced_press, bind, GPIO_event_detected.
    destruct (armed w pin && latch w pin).
    - unfold sleep, GPIO_input, ret. cbn [clock armed latch].
      eexists _, _. split; [reflexivity|]. cbn [latch clock].
      rewrite Z.eqb_refl, HD1, andb_false_r. auto.
    - unfold ret. eexists _, _. split; [reflexivity|]. cbn [latch clock].
      rewrite Z.eqb_refl. auto. }
  destruct H1 as (b & w1 & E1 & L1 & F1).
  set (w2 := mkWorld (clock w1 + d)%N (armed w1)
               (fun p => latch w1 p
                         || (armed w1 p && fell (level env p) (clock w1) (N.to_nat d)))
               (active w1) (lists w1) (folders w1) (trace w1 ++ [ESleep d])).
  assert (L2 : latch w2 pin = false).
  { unfold w2. cbn [latch]. rewrite L1, F1, andb_false_r. reflexivity. }
  destruct (debounced_press_cases cfg env pin w2)
    as [(H & _) | (_ & w3 & E3 & C3 & T3)].
  - rewrite L2, andb_false_r in H. discriminate.
  - exists b, w1, w2, w3. split; [exact E1|]. split; [reflexivity|]. auto.
Qed.

(** X14: with a photo count of zero or less a session takes no photo, and
    still runs the montage command once, on its file pattern and to its
    output file. *)
Theorem session_without_photos (l : Locals) (w : World) :
  TOTAL_PICS cfg <= 0 ->
  exists base w' evs,
    final_world (session cfg env l w) = Some w' /\
    trace w' = trace w ++ evs /\
    produced evs =
      [EMontage (base ++ "*")%string
                (inject_Z (PHOTO_W cfg) / 2)%Q (inject_Z (PHOTO_H cfg) / 2)%Q
                (base ++ ".jpg")%string].
Proof.
  intros HN.
  destruct (session_file_ops cfg env l w)
    as (base & copies & (w' & evs & E & T & F) & _ & _).
  exists base, w', evs. split; [exact E|]. split; [exact T|].
  rewrite <- produced_file_ops, F.
  replace (py_range 1 (TOTAL_PICS cfg + 1)) with (@nil Z).
  - cbn [map app]. unfold produced. cbn [filter is_production].
    fold (produced (map copy_event copies)). now rewrite produced_copies.
  - unfold py_range. replace (Z.to_nat (TOTAL_PICS cfg + 1 - 1)) with O by lia.
    reflexivity.
Qed.

End Edges.

Lemma press_is_reported_once_witness :
  exists w1 w2 w3,
    debounced_press walkup_cfg (sample_env held lowest_handle never_fails) 21
                    both_latched = Ok true w1 /\
    sleep (sample_env held lowest_handle never_fails) 100 w1 = Ok tt w2 /\
    debounced_press walkup_cfg (sample_env held lowest_handle never_fails) 21 w2
      = Ok false w3 /\
    clock w3 = clock w2 /\ trace w3 = trace w2.
Proof.
  destruct (press_is_reported_once walkup_cfg
              (sample_env held lowest_handle never_fails) 21 100 both_latched)
    as (b & w1 & w2 & w3 & E1 & E2 & E3 & C & T); [vm_compute; reflexivity|].
  exists w1, w2, w3. split; [|auto].
  destruct (debounced_press_cases walkup_cfg
              (sample_env held lowest_handle never_fails) 21 both_latched)
    as [(_ & w' & E & _) | (H & _)]; [|discriminate H].
  rewrite E1 in E. destruct (Ok_inj _ _ _ _ E) as [-> ->]. exact E1.
Defined.

Lemma session_without_photos_witness :
  exists base w' evs,
    final_world (session (sample_cfg 0 true false []) booth_env waiting_locals
                         fresh_world) = Some w' /\
    trace w' = trace fresh_world ++ evs /\
    produced evs =
      [EMontage (base ++ "*")%string
                (inject_Z (PHOTO_W (sample_cfg 0 true false [])) / 2)%Q
                (inject_Z (PHOTO_H (sample_cfg 0 true false [])) / 2)%Q
                (base ++ ".jpg")%string].
Proof.
  apply (session_without_photos (sample_cfg 0 true false []) booth_env
           waiting_locals fresh_world).
  cbn. lia.
Defined.

Section IdleTick.

Variable cfg : Config.
Variable env : Env.



End IdleTick.

